(** * Task manager with user authentication: a model of [app.py]

    The program keeps a credential file [users.json] (username to
    SHA-256 hex digest of the password) and one task file per user under
    [tasks/].  Every operation reads its arguments from standard input and
    reports on standard output, so the model threads an explicit [world]
    (files, directories, pending input lines, output written so far)
    through a small state-and-exception monad.

    Conventions.
    - A Python [str] is a [string] whose characters are its code points,
      which are taken below 256.  A Python [int] is a [Z].
    - The credential dictionary is a [gmap string string]; a task
      dictionary, whose three keys are fixed, is a record.
    - A file holds the JSON document last dumped into it: [json.load]
      gives back what [json.dump] wrote.  A document of another shape than
      the program writes makes the load raise.
    - The file system has no faults of its own: a path can always be
      opened for writing, whatever its name.
    - The two menu loops, [main_menu] and [run_app], are given fuel;
      they are shown to need one unit per input line, and one more. *)

From stdpp Require Import gmap strings list sorting pretty.
From Stdlib Require Import ZArith Lia Ascii.

Set Warnings "-register-all,-clear-no-such-hyp".
Local Open Scope Z_scope.

(** ** [hashlib.sha256(...).hexdigest()]

    FIPS 180-4 over 32-bit words carried in [Z] with the wrap-around
    written out.  The round constants are the first 32 fractional bits of
    the cube roots of the first 64 primes, the initial state those of the
    square roots of the first 8; both are computed rather than tabulated. *)
Module Sha256.

Definition wrap32 (x : Z) : Z := Z.land x 0xffffffff.

Definition add32 (x y : Z) : Z := wrap32 (x + y).

Definition rotr (n x : Z) : Z :=
  Z.lor (Z.shiftr x n) (wrap32 (Z.shiftl x (32 - n))).

Definition Ch (x y z : Z) : Z :=
  Z.lxor (Z.land x y) (Z.land (Z.lxor x 0xffffffff) z).

Definition Maj (x y z : Z) : Z :=
  Z.lxor (Z.lxor (Z.land x y) (Z.land x z)) (Z.land y z).

Definition bsig0 (x : Z) : Z := Z.lxor (Z.lxor (rotr 2 x) (rotr 13 x)) (rotr 22 x).
Definition bsig1 (x : Z) : Z := Z.lxor (Z.lxor (rotr 6 x) (rotr 11 x)) (rotr 25 x).
Definition ssig0 (x : Z) : Z := Z.lxor (Z.lxor (rotr 7 x) (rotr 18 x)) (Z.shiftr x 3).
Definition ssig1 (x : Z) : Z := Z.lxor (Z.lxor (rotr 17 x) (rotr 19 x)) (Z.shiftr x 10).

Definition primes64 : list Z :=
  [2; 3; 5; 7; 11; 13; 17; 19; 23; 29; 31; 37; 41; 43; 47; 53;
   59; 61; 67; 71; 73; 79; 83; 89; 97; 101; 103; 107; 109; 113; 127; 131;
   137; 139; 149; 151; 157; 163; 167; 173; 179; 181; 191; 193; 197; 199;
   211; 223; 227; 229; 233; 239; 241; 251; 257; 263; 269; 271; 277; 281;
   283; 293; 307; 311].

(** Largest [r' >= r] reachable by setting some of the low [k] bits with
    [r'^3 <= x]: the integer cube root when [r = 0] and [x < 2^(3k)]. *)
Fixpoint cbrt_bits (k : nat) (r x : Z) : Z :=
  match k with
  | O => r
  | S k' =>
      let r' := r + 2 ^ Z.of_nat k' in
      if r' * r' * r' <=? x then cbrt_bits k' r' x else cbrt_bits k' r x
  end.

Definition K : list Z :=
  Eval vm_compute in
    map (fun p => wrap32 (cbrt_bits 36 0 (p * 2 ^ 96))) primes64.

Definition H0 : list Z :=
  Eval vm_compute in
    map (fun p => wrap32 (Z.sqrt (p * 2 ^ 64))) (take 8 primes64).

(** Big-endian bytes of [x], [n] of them. *)
Fixpoint be_bytes (n : nat) (x : Z) : list Z :=
  match n with
  | O => []
  | S n' => Z.land (Z.shiftr x (8 * Z.of_nat n')) 0xff :: be_bytes n' x
  end.

Definition pad (msg : list Z) : list Z :=
  let len := Z.of_nat (length msg) in
  let k := (55 - len) mod 64 in
  msg ++ 0x80 :: replicate (Z.to_nat k) 0 ++ be_bytes 8 (8 * len).

Definition word_of (b3 b2 b1 b0 : Z) : Z :=
  Z.lor (Z.lor (Z.shiftl b3 24) (Z.shiftl b2 16)) (Z.lor (Z.shiftl b1 8) b0).

Fixpoint words_of (bs : list Z) : list Z :=
  match bs with
  | b3 :: b2 :: b1 :: b0 :: bs' => word_of b3 b2 b1 b0 :: words_of bs'
  | _ => []
  end.

(** Message schedule, most recent word first: the head is W(t-1). *)
Fixpoint schedule (n : nat) (rw : list Z) : list Z :=
  match n with
  | O => rw
  | S n' =>
      let w := add32 (add32 (ssig1 (nth 1 rw 0)) (nth 6 rw 0))
                     (add32 (ssig0 (nth 14 rw 0)) (nth 15 rw 0)) in
      schedule n' (w :: rw)
  end.

Record state := State { sa : Z; sb : Z; sc : Z; sd : Z; se : Z; sf : Z; sg : Z; sh : Z }.

Definition round (s : state) (kw : Z * Z) : state :=
  let '(k, w) := kw in
  let t1 := add32 (add32 (add32 (sh s) (bsig1 (se s))) (add32 (Ch (se s) (sf s) (sg s)) k)) w in
  let t2 := add32 (bsig0 (sa s)) (Maj (sa s) (sb s) (sc s)) in
  State (add32 t1 t2) (sa s) (sb s) (sc s) (add32 (sd s) t1) (se s) (sf s) (sg s).

Definition compress (h : state) (block : list Z) : state :=
  let w := rev (schedule 48 (rev block)) in
  let s := foldl round h (zip K w) in
  State (add32 (sa h) (sa s)) (add32 (sb h) (sb s)) (add32 (sc h) (sc s))
        (add32 (sd h) (sd s)) (add32 (se h) (se s)) (add32 (sf h) (sf s))
        (add32 (sg h) (sg s)) (add32 (sh h) (sh s)).

(** [n] blocks of sixteen words each. *)
Fixpoint blocks (n : nat) (ws : list Z) (h : state) : state :=
  match n with
  | O => h
  | S n' => blocks n' (drop 16 ws) (compress h (take 16 ws))
  end.

Definition init : state :=
  State (nth 0 H0 0) (nth 1 H0 0) (nth 2 H0 0) (nth 3 H0 0)
        (nth 4 H0 0) (nth 5 H0 0) (nth 6 H0 0) (nth 7 H0 0).

Definition digest (msg : list Z) : list Z :=
  let ws := words_of (pad msg) in
  let s := blocks (length ws / 16)%nat ws init in
  [sa s; sb s; sc s; sd s; se s; sf s; sg s; sh s].

Definition hex_digit (d : Z) : ascii :=
  Ascii.ascii_of_N (Z.to_N (if d <? 10 then 48 + d else 87 + d)).

Fixpoint hex_word (n : nat) (x : Z) : string :=
  match n with
  | O => EmptyString
  | S n' => String (hex_digit (Z.land (Z.shiftr x (4 * Z.of_nat n')) 0xf)) (hex_word n' x)
  end.

Definition hexdigest (msg : list Z) : string :=
  foldr (fun w acc => hex_word 8 w +:+ acc) EmptyString (digest msg).

End Sha256.

(** ** Python strings and integers *)

(** [ord(c)] *)
Definition ord (c : ascii) : Z := Z.of_N (Ascii.N_of_ascii c).

(** [s.encode()]: UTF-8, one byte below 128 and two bytes from 128 on. *)
Fixpoint encode (s : string) : list Z :=
  match s with
  | EmptyString => []
  | String c s' =>
      let n := ord c in
      if n <? 128 then n :: encode s'
      else Z.lor 0xc0 (Z.shiftr n 6) :: Z.lor 0x80 (Z.land n 0x3f) :: encode s'
  end.

(** [c.isspace()] below 256: tab to carriage return, the separators 0x1c
    to 0x1f, the space, NEL and the no-break space. *)
Definition isspace (c : ascii) : bool :=
  let n := ord c in
  (9 <=? n) && (n <=? 13) || (28 <=? n) && (n <=? 32) || (n =? 133) || (n =? 160).

(** The whitespace [int] skips around a number: as [isspace], without
    the separators 0x1c to 0x1f. *)
Definition int_space (c : ascii) : bool :=
  let n := ord c in
  (9 <=? n) && (n <=? 13) || (n =? 32) || (n =? 133) || (n =? 160).

Fixpoint all_of (sp : ascii → bool) (s : string) : bool :=
  match s with
  | EmptyString => true
  | String c s' => sp c && all_of sp s'
  end.

Fixpoint none_of (sp : ascii → bool) (s : string) : bool :=
  match s with
  | EmptyString => true
  | String c s' => negb (sp c) && none_of sp s'
  end.

Fixpoint lstrip_by (sp : ascii → bool) (s : string) : string :=
  match s with
  | EmptyString => EmptyString
  | String c s' => if sp c then lstrip_by sp s' else s
  end.

Fixpoint rstrip_by (sp : ascii → bool) (s : string) : string :=
  match s with
  | EmptyString => EmptyString
  | String c s' =>
      match rstrip_by sp s' with
      | EmptyString => if sp c then EmptyString else String c EmptyString
      | r => String c r
      end
  end.

Definition strip_by (sp : ascii → bool) (s : string) : string :=
  rstrip_by sp (lstrip_by sp s).

(** [s.strip()] *)
Definition strip (s : string) : string := strip_by isspace s.

(** A string of whitespace only. *)
Definition all_space (s : string) : bool := all_of isspace s.

(** Python truthiness of a string: [not s] holds of the empty string only. *)
Definition is_empty (s : string) : bool :=
  match s with EmptyString => true | _ => false end.

Definition digit_of (c : ascii) : option Z :=
  let n := ord c in
  if (48 <=? n) && (n <=? 57) then Some (n - 48) else None.

(** Decimal digits with single underscores allowed between two digits;
    [prev] tells whether the previous character was a digit. *)
Fixpoint int_digits (s : string) (acc : Z) (prev : bool) : option Z :=
  match s with
  | EmptyString => if prev then Some acc else None
  | String c s' =>
      match digit_of c with
      | Some d => int_digits s' (10 * acc + d) true
      | None =>
          if Ascii.eqb c "_" && prev then int_digits s' acc false else None
      end
  end.

(** [int(s)] in base ten; [None] stands for [ValueError]. *)
Definition py_int (s : string) : option Z :=
  match strip_by int_space s with
  | String "+" r => int_digits r 0 false
  | String "-" r => Z.opp <$> int_digits r 0 false
  | r => int_digits r 0 false
  end.

(** [str(n)] for an integer, as in an f-string. *)
Definition py_str (n : Z) : string := pretty n.

(** [hash_password]: SHA-256 of the UTF-8 bytes, as lowercase hex. *)
Definition hash_password (password : string) : string :=
  Sha256.hexdigest (encode password).

(** ** JSON documents *)

Inductive json :=
  | JNull
  | JBool (b : bool)
  | JInt (n : Z)
  | JStr (s : string)
  | JList (l : list json)
  | JDict (m : gmap string json).

(** A task dictionary [{'id': .., 'description': .., 'status': ..}];
    the status is the string the code stores, "Pending" or "Completed". *)
Record task := Task { id : Z; description : string; status : string }.

Definition json_of_task (t : task) : json :=
  JDict (<["id" := JInt (id t)]>
          (<["description" := JStr (description t)]>
            (<["status" := JStr (status t)]> ∅))).

Definition task_of_json (j : json) : option task :=
  match j with
  | JDict m =>
      match m !! "id", m !! "description", m !! "status" with
      | Some (JInt i), Some (JStr d), Some (JStr s) =>
          if decide (size m = 3%nat) then Some (Task i d s) else None
      | _, _, _ => None
      end
  | _ => None
  end.

Definition json_of_tasks (ts : list task) : json := JList (json_of_task <$> ts).

Definition tasks_of_json (j : json) : option (list task) :=
  match j with
  | JList l => mapM task_of_json l
  | _ => None
  end.

Definition as_str (j : json) : option string :=
  match j with JStr s => Some s | _ => None end.

Definition json_of_users (users : gmap string string) : json :=
  JDict (JStr <$> users).

Definition users_of_json (j : json) : option (gmap string string) :=
  match j with
  | JDict m =>
      if decide (map_Forall (λ _ v, is_Some (as_str v)) m)
      then Some (omap as_str m) else None
  | _ => None
  end.

(** ** The world and the effects of the program

    A [world] is what the program can observe and change: regular files
    (each holding the JSON document last dumped into it), directories,
    the paths opened for writing so far (oldest first), the lines still
    to be read from standard input, and what has been written to standard
    output (one entry per [print] call or [input] prompt). *)
Record world := World {
  files : gmap string json;
  dirs : gset string;
  saved : list string;
  stdin : list string;
  stdout : list string
}.

Inductive exn := EOFError | OSError | BadDocument.

Inductive res (A : Type) :=
  | Ok (a : A)
  | Raise (e : exn).
Arguments Ok {A} a.
Arguments Raise {A} e.

(** A computation changes the world and returns or raises; what it did
    before raising stays done. *)
Definition M (A : Type) : Type := world → res A * world.

Global Instance M_ret : MRet M := λ A a w, (Ok a, w).

Global Instance M_bind : MBind M := λ A B f m w,
  match m w with
  | (Ok a, w') => f a w'
  | (Raise e, w') => (Raise e, w')
  end.

Definition raise {A} (e : exn) : M A := λ w, (Raise e, w).

Definition emit (s : string) (w : world) : world :=
  World (files w) (dirs w) (saved w) (stdin w) (stdout w ++ [s]).

Definition set_stdin (l : list string) (w : world) : world :=
  World (files w) (dirs w) (saved w) l (stdout w).

(** [print(s)] *)
Definition print (s : string) : M unit := λ w, (Ok tt, emit s w).

(** [input(prompt)]: the prompt is written, then a line is read;
    [EOFError] at the end of input. *)
Definition input (prompt : string) : M string := λ w,
  match stdin w with
  | [] => (Raise EOFError, emit prompt w)
  | line :: rest => (Ok line, set_stdin rest (emit prompt w))
  end.

Definition path_exists (p : string) (w : world) : bool :=
  bool_decide (is_Some (files w !! p)) || bool_decide (p ∈ dirs w).

(** [os.path.exists(p)] *)
Definition os_path_exists (p : string) : M bool := λ w, (Ok (path_exists p w), w).

Definition add_dir (p : string) (w : world) : world :=
  World (files w) ({[p]} ∪ dirs w) (saved w) (stdin w) (stdout w).

(** [os.makedirs(p)]: fails when the path is already there. *)
Definition os_makedirs (p : string) : M unit := λ w,
  if path_exists p w then (Raise OSError, w) else (Ok tt, add_dir p w).

Definition starts_with_slash (s : string) : bool :=
  match s with String "/" _ => true | _ => false end.

Fixpoint ends_with_slash (s : string) : bool :=
  match s with
  | EmptyString => false
  | String c EmptyString => Ascii.eqb c "/"
  | String _ s' => ends_with_slash s'
  end.

(** [os.path.join(a, b)] on POSIX. *)
Definition os_path_join (a b : string) : string :=
  if starts_with_slash b then b
  else if is_empty a || ends_with_slash a then a +:+ b
  else a +:+ "/" +:+ b.

(** [with open(p, 'r') as f: json.load(f)] *)
Definition read_json (p : string) : M json := λ w,
  match files w !! p with
  | Some doc => (Ok doc, w)
  | None => (Raise OSError, w)
  end.

Definition put_file (p : string) (doc : json) (w : world) : world :=
  World (<[p := doc]> (files w)) (dirs w) (saved w ++ [p]) (stdin w) (stdout w).

(** [with open(p, 'w') as f: json.dump(doc, f, indent=4)] *)
Definition write_json (p : string) (doc : json) : M unit := λ w,
  (Ok tt, put_file p doc w).

(** A loaded document that is not what the program writes cannot be used
    as the dictionary or list the code takes it for. *)
Definition expect {A} (o : option A) : M A :=
  match o with Some a => mret a | None => raise BadDocument end.

(** ** File handling *)

Definition USERS_FILE : string := "users.json".
Definition TASKS_DIR : string := "tasks".

Definition load_users : M (gmap string string) :=
  e ← os_path_exists USERS_FILE;
  if negb e then mret ∅
  else doc ← read_json USERS_FILE; expect (users_of_json doc).

Definition save_users (users : gmap string string) : M unit :=
  write_json USERS_FILE (json_of_users users).

Definition get_user_tasks_file (username : string) : M string :=
  e ← os_path_exists TASKS_DIR;
  (if negb e then os_makedirs TASKS_DIR else mret tt);;
  mret (os_path_join TASKS_DIR (username +:+ "_tasks.json")).

Definition load_tasks (username : string) : M (list task) :=
  tasks_file ← get_user_tasks_file username;
  e ← os_path_exists tasks_file;
  if negb e then mret []
  else doc ← read_json tasks_file; expect (tasks_of_json doc).

Definition save_tasks (username : string) (tasks : list task) : M unit :=
  tasks_file ← get_user_tasks_file username;
  write_json tasks_file (json_of_tasks tasks).

(** ** Authentication *)

(** The [while True] loop of [register_user].  Each turn reads one line,
    so the loop is recursive on the pending input [lines = stdin w]. *)
Fixpoint register_user_loop (users : gmap string string)
    (lines : list string) (w : world) : res string * world :=
  match lines with
  | [] => (Raise EOFError, emit "Enter new username: " w)
  | line :: rest =>
      let w := set_stdin rest (emit "Enter new username: " w) in
      let username := strip line in
      if is_empty username then
        register_user_loop users rest (emit "Username cannot be empty." w)
      else if bool_decide (is_Some (users !! username)) then
        register_user_loop users rest
          (emit "Username already exists. Please choose a different one." w)
      else (Ok username, w)
  end.

Definition register_user : M bool :=
  users ← load_users;
  username ← (λ w, register_user_loop users (stdin w) w);
  line ← input "Enter password: ";
  let password := strip line in
  if is_empty password then
    print "Password cannot be empty. Registration failed.";; mret false
  else
    let users := <[username := hash_password password]> users in
    save_users users;;
    print "Registration successful!";;
    mret true.

Definition login_user : M (option string) :=
  users ← load_users;
  line1 ← input "Enter username: ";
  let username := strip line1 in
  line2 ← input "Enter password: ";
  let password := strip line2 in
  if bool_decide (is_Some (users !! username))
     && bool_decide (users !! username = Some (hash_password password))
  then print ("Welcome, " +:+ username +:+ "!");; mret (Some username)
  else print "Invalid username or password.";; mret None.

(** ** Task management *)

(** [max(task['id'] for task in tasks)] on a list with head [t]. *)
Definition max_id (t : task) (rest : list task) : Z :=
  foldl Z.max (id t) (id <$> rest).

Definition add_task (current_user : string) : M unit :=
  tasks ← load_tasks current_user;
  line ← input "Enter task description: ";
  let description := strip line in
  if is_empty description then print "Task description cannot be empty."
  else
    let task_id := match tasks with [] => 1 | t :: rest => max_id t rest + 1 end in
    let new_task := Task task_id description "Pending" in
    let tasks := tasks ++ [new_task] in
    save_tasks current_user tasks;;
    print ("Task '" +:+ description +:+ "' (ID: " +:+ py_str task_id
           +:+ ") added successfully.").

Definition task_line (t : task) : string :=
  "ID: " +:+ py_str (id t) +:+ ", Description: " +:+ description t
  +:+ ", Status: " +:+ status t.

Definition view_tasks (current_user : string) : M unit :=
  tasks ← load_tasks current_user;
  match tasks with
  | [] => print "No tasks found."
  | _ =>
      print (String "010" "--- Your Tasks ---");;
      mapM (λ t, print (task_line t)) tasks;;
      print ("------------------" +:+ String "010" "")
  end.

(** The [for ... break] loop of [mark_task_completed]: the first task
    whose id matches is updated in place; the flag is [found]. *)
Fixpoint mark_first (task_id : Z) (tasks : list task) : list task * bool :=
  match tasks with
  | [] => ([], false)
  | t :: rest =>
      if bool_decide (id t = task_id)
      then (Task (id t) (description t) "Completed" :: rest, true)
      else let '(rest', found) := mark_first task_id rest in (t :: rest', found)
  end.

Definition mark_task_completed (current_user : string) : M unit :=
  tasks ← load_tasks current_user;
  match tasks with
  | [] => print "No tasks to mark as completed."
  | _ =>
      view_tasks current_user;;
      line ← input "Enter the ID of the task to mark as completed: ";
      match py_int line with
      | None => print "Invalid input. Please enter a number."
      | Some task_id =>
          let '(tasks, found) := mark_first task_id tasks in
          if found then
            save_tasks current_user tasks;;
            print ("Task ID " +:+ py_str task_id +:+ " marked as Completed.")
          else print ("Task with ID " +:+ py_str task_id +:+ " not found.")
      end
  end.

Definition delete_task (current_user : string) : M unit :=
  tasks ← load_tasks current_user;
  match tasks with
  | [] => print "No tasks to delete."
  | _ =>
      view_tasks current_user;;
      line ← input "Enter the ID of the task to delete: ";
      match py_int line with
      | None => print "Invalid input. Please enter a number."
      | Some task_id =>
          let initial_len := length tasks in
          let tasks := filter (λ t, id t ≠ task_id) tasks in
          if bool_decide (length tasks < initial_len)%nat then
            save_tasks current_user tasks;;
            print ("Task ID " +:+ py_str task_id +:+ " deleted successfully.")
          else print ("Task with ID " +:+ py_str task_id +:+ " not found.")
      end
  end.

(** ** Vocabulary of the statements *)

(** The path of a user's task file. *)
Definition tasks_path (username : string) : string :=
  os_path_join TASKS_DIR (username +:+ "_tasks.json").

(** The world once the task directory has been looked for. *)
Definition with_tasks_dir (w : world) : world :=
  if path_exists TASKS_DIR w then w else add_dir TASKS_DIR w.

(** The credential mapping held by the store: the document in
    [users.json], or the empty mapping when nothing is there. *)
Definition credentials (w : world) (users : gmap string string) : Prop :=
  (path_exists USERS_FILE w = false ∧ users = ∅)
  ∨ files w !! USERS_FILE = Some (json_of_users users).

(** The task list held by the store for a user. *)
Definition task_list (username : string) (w : world) (tasks : list task) : Prop :=
  (path_exists (tasks_path username) w = false ∧ tasks = [])
  ∨ files w !! tasks_path username = Some (json_of_tasks tasks).

Definition emits (l : list string) (w : world) : world :=
  World (files w) (dirs w) (saved w) (stdin w) (stdout w ++ l).

(** What [view_tasks] prints for a list. *)
Definition listing (tasks : list task) : list string :=
  match tasks with
  | [] => ["No tasks found."]
  | _ => String "010" "--- Your Tasks ---" :: (task_line <$> tasks)
         ++ ["------------------" +:+ String "010" ""]
  end.

(** [n] calls of [add_task] in a row. *)
Fixpoint add_tasks (n : nat) (current_user : string) : M unit :=
  match n with
  | O => mret tt
  | S n' => add_task current_user;; add_tasks n' current_user
  end.

(** The record [add_task] appends for an input line. *)
Definition new_task (tasks : list task) (line : string) : task :=
  Task (match tasks with [] => 1 | t :: rest => max_id t rest + 1 end)
       (strip line) "Pending".

(** The task lists after [add_task] has taken each of [lines] in turn. *)
Fixpoint added (tasks : list task) (lines : list string) : list task :=
  match lines with
  | [] => tasks
  | line :: lines' => added (tasks ++ [new_task tasks line]) lines'
  end.

(** The world once an operation has loaded the tasks, shown [shown],
    prompted and read a line, [rest] being the input left. *)
Definition after_prompt (prompt : string) (shown : list string)
    (rest : list string) (w : world) : world :=
  set_stdin rest (emit prompt (emits shown (with_tasks_dir w))).

(** [s] occurs in [t] as a run of consecutive characters. *)
Fixpoint occurs_in (s t : string) : bool :=
  String.prefix s t || match t with EmptyString => false | String _ t' => occurs_in s t' end.

(** A world with nothing stored and the given lines waiting on input. *)
Definition fresh (lines : list string) : world := World ∅ ∅ [] lines [].

(** ** The menus

    Both menus loop until the user leaves or the input ends.  A turn of
    either loop reads at least one line, so the loops are given fuel, and
    [None] says that the fuel ran out; [main_menu] and [run_app] start
    with more fuel than there are lines to read. *)

(** The six lines printed at the top of a turn of [main_menu], then the
    prompt. *)
Definition main_menu_prompt : M string :=
  print (String "010" "--- Task Manager Menu ---");;
  print "1. Add a Task";;
  print "2. View Tasks";;
  print "3. Mark a Task as Completed";;
  print "4. Delete a Task";;
  print "5. Logout";;
  input "Enter your choice: ".

Fixpoint main_menu_loop (fuel : nat) (current_user : string) (w : world)
    : option (res unit * world) :=
  match fuel with
  | O => None
  | S fuel' =>
      let again (r : res unit * world) :=
        match r with
        | (Ok _, w') => main_menu_loop fuel' current_user w'
        | (Raise e, w') => Some (Raise e, w')
        end in
      match main_menu_prompt w with
      | (Raise e, w') => Some (Raise e, w')
      | (Ok line, w') =>
          let choice := strip line in
          if bool_decide (choice = "1") then again (add_task current_user w')
          else if bool_decide (choice = "2") then again (view_tasks current_user w')
          else if bool_decide (choice = "3") then again (mark_task_completed current_user w')
          else if bool_decide (choice = "4") then again (delete_task current_user w')
          else if bool_decide (choice = "5") then Some (print "Logging out..." w')
          else again (print "Invalid choice. Please try again." w')
      end
  end.

Definition main_menu (current_user : string) (w : world) : option (res unit * world) :=
  main_menu_loop (S (length (stdin w))) current_user w.

(** The four lines printed at the top of a turn of [run_app], then the
    prompt. *)
Definition run_app_prompt : M string :=
  print (String "010" "--- Welcome to Task Manager ---");;
  print "1. Login";;
  print "2. Register";;
  print "3. Exit";;
  input "Enter your choice: ".

(** The [while current_user is None] loop of [run_app].  It ends with
    [Some username] when a login succeeded and with [None] when the
    function returned from inside the loop, at the choice 3. *)
Fixpoint run_app_loop (fuel : nat) (w : world)
    : option (res (option string) * world) :=
  match fuel with
  | O => None
  | S fuel' =>
      match run_app_prompt w with
      | (Raise e, w') => Some (Raise e, w')
      | (Ok line, w') =>
          let auth_choice := strip line in
          if bool_decide (auth_choice = "1") then
            match login_user w' with
            | (Ok (Some current_user), w'') => Some (Ok (Some current_user), w'')
            | (Ok None, w'') => run_app_loop fuel' w''
            | (Raise e, w'') => Some (Raise e, w'')
            end
          else if bool_decide (auth_choice = "2") then
            match register_user w' with
            | (Ok _, w'') => run_app_loop fuel' w''
            | (Raise e, w'') => Some (Raise e, w'')
            end
          else if bool_decide (auth_choice = "3") then
            match print "Exiting application. Goodbye!" w' with
            | (_, w'') => Some (Ok None, w'')
            end
          else
            match print "Invalid choice. Please try again." w' with
            | (_, w'') => run_app_loop fuel' w''
            end
      end
  end.

(** [run_app]: after the loop, [if current_user: main_menu(current_user)];
    an empty username is false. *)
Definition run_app (w : world) : option (res unit * world) :=
  match run_app_loop (S (length (stdin w))) w with
  | None => None
  | Some (Raise e, w') => Some (Raise e, w')
  | Some (Ok None, w') => Some (Ok tt, w')
  | Some (Ok (Some current_user), w') =>
      if is_empty current_user then Some (Ok tt, w')
      else main_menu current_user w'
  end.

(** ** Vocabulary of the further properties *)

(** What a run may do to the world, [allowed] being the paths it may
    write: it reads input from the front, only adds output, writes
    allowed paths only, and creates no directory but the task directory. *)
Definition changes (allowed : string → Prop) (w w' : world) : Prop :=
  stdin w' `suffix_of` stdin w
  ∧ stdout w `prefix_of` stdout w'
  ∧ (∀ p, ¬ allowed p → files w' !! p = files w !! p)
  ∧ dirs w ⊆ dirs w' ∧ dirs w' ⊆ {[TASKS_DIR]} ∪ dirs w
  ∧ ∃ l, saved w' = saved w ++ l ∧ Forall allowed l.

Definition keeps {A} (allowed : string → Prop) (m : M A) : Prop :=
  ∀ w r w', m w = (r, w') → changes allowed w w'.

(** What [register_user] prints for the lines it turns down. *)
Definition rejections (rejected : list string) : list string :=
  rejected ≫= λ line,
    ["Enter new username: ";
     if is_empty (strip line) then "Username cannot be empty."
     else "Username already exists. Please choose a different one."].

(** The four commands of the task menu. *)
Inductive command := Add | View | Complete | Delete.

Definition run_command (c : command) (current_user : string) : M unit :=
  match c with
  | Add => add_task current_user
  | View => view_tasks current_user
  | Complete => mark_task_completed current_user
  | Delete => delete_task current_user
  end.

(** What a command can do to a task list when it saves. *)
Inductive task_step : command → list task → list task → Prop :=
  | step_add tasks line :
      strip line ≠ "" → task_step Add tasks (tasks ++ [new_task tasks line])
  | step_complete tasks task_id :
      task_step Complete tasks (mark_first task_id tasks).1
  | step_delete tasks task_id :
      task_step Delete tasks (filter (λ t, id t ≠ task_id) tasks).

(** Some command takes the first list to the second. *)
Definition some_step (tasks tasks' : list task) : Prop :=
  ∃ c, task_step c tasks tasks'.

(** The ids of a list, each larger than the ones before it. *)
Definition ids_increase (tasks : list task) : Prop :=
  StronglySorted Z.lt (id <$> tasks).


(** What a turn of [main_menu] prints before it reads the choice. *)
Definition menu_text : list string :=
  [String "010" "--- Task Manager Menu ---"; "1. Add a Task"; "2. View Tasks";
   "3. Mark a Task as Completed"; "4. Delete a Task"; "5. Logout";
   "Enter your choice: "].

(** What a turn of [run_app] prints before it reads the choice. *)
Definition welcome_text : list string :=
  [String "010" "--- Welcome to Task Manager ---"; "1. Login"; "2. Register";
   "3. Exit"; "Enter your choice: "].

(** The branches of the [if] chain of [main_menu]. *)
Inductive menu_choice := Run (c : command) | Logout | Unknown.

Definition read_choice (choice : string) : menu_choice :=
  if bool_decide (choice = "1") then Run Add
  else if bool_decide (choice = "2") then Run View
  else if bool_decide (choice = "3") then Run Complete
  else if bool_decide (choice = "4") then Run Delete
  else if bool_decide (choice = "5") then Logout
  else Unknown.

(** What [main_menu] prints for lines that are no choice of its menu. *)
Definition invalid_turns (rejected : list string) : list string :=
  rejected ≫= λ _, menu_text ++ ["Invalid choice. Please try again."].

(** What [run_app] prints for lines that are no choice of its menu. *)
Definition invalid_welcomes (rejected : list string) : list string :=
  rejected ≫= λ _, welcome_text ++ ["Invalid choice. Please try again."].

(** ** Lines that cannot be encoded

    When standard input is opened with the error handler
    [surrogateescape], as it is in the C and POSIX locales, [input()]
    returns a byte that belongs to no UTF-8 sequence as a lone surrogate
    (U+DC80 to U+DCFF), and [str.encode()] raises [UnicodeEncodeError] on
    a string that holds one.  The strings above stop at code point 255 and
    can all be encoded.  This module has [hash_password] and [login_user]
    once more, on strings of arbitrary code points; the store holds the
    credential mapping itself, or nothing when [users.json] is absent. *)
Module Wide.

(** A Python [str]: its code points. *)
Definition str := list Z.

Fixpoint of_string (s : string) : str :=
  match s with
  | EmptyString => []
  | String c s' => ord c :: of_string s'
  end.

(** UTF-8 of one code point; a surrogate has none. *)
Definition encode_point (c : Z) : option (list Z) :=
  if (c <? 0) || (0x10ffff <? c) then None
  else if c <? 0x80 then Some [c]
  else if c <? 0x800 then
    Some [Z.lor 0xc0 (Z.shiftr c 6); Z.lor 0x80 (Z.land c 0x3f)]
  else if (0xd800 <=? c) && (c <=? 0xdfff) then None
  else if c <? 0x10000 then
    Some [Z.lor 0xe0 (Z.shiftr c 12);
          Z.lor 0x80 (Z.land (Z.shiftr c 6) 0x3f);
          Z.lor 0x80 (Z.land c 0x3f)]
  else
    Some [Z.lor 0xf0 (Z.shiftr c 18);
          Z.lor 0x80 (Z.land (Z.shiftr c 12) 0x3f);
          Z.lor 0x80 (Z.land (Z.shiftr c 6) 0x3f);
          Z.lor 0x80 (Z.land c 0x3f)].

(** [s.encode()]; [None] stands for [UnicodeEncodeError]. *)
Fixpoint encode (s : str) : option (list Z) :=
  match s with
  | [] => Some []
  | c :: s' =>
      match encode_point c, encode s' with
      | Some b, Some bs => Some (b ++ bs)
      | _, _ => None
      end
  end.

(** [c.isspace()] over all of Unicode. *)
Definition isspace (c : Z) : bool :=
  (9 <=? c) && (c <=? 13) || (28 <=? c) && (c <=? 32)
  || (c =? 133) || (c =? 160) || (c =? 5760)
  || (8192 <=? c) && (c <=? 8202)
  || (c =? 8232) || (c =? 8233) || (c =? 8239) || (c =? 8287) || (c =? 12288).

Fixpoint lstrip (s : str) : str :=
  match s with
  | [] => []
  | c :: s' => if isspace c then lstrip s' else s
  end.

Fixpoint rstrip (s : str) : str :=
  match s with
  | [] => []
  | c :: s' =>
      match rstrip s' with
      | [] => if isspace c then [] else [c]
      | r => c :: r
      end
  end.

(** [s.strip()] *)
Definition strip (s : str) : str := rstrip (lstrip s).

Record world := World {
  users_file : option (gmap str str);
  stdin : list str;
  stdout : list str
}.

Inductive exn := EOFError | UnicodeEncodeError.

Inductive res (A : Type) :=
  | Ok (a : A)
  | Raise (e : exn).
Arguments Ok {A} a.
Arguments Raise {A} e.

Definition M (A : Type) : Type := world → res A * world.

Global Instance M_ret : MRet M := λ A a w, (Ok a, w).

Global Instance M_bind : MBind M := λ A B f m w,
  match m w with
  | (Ok a, w') => f a w'
  | (Raise e, w') => (Raise e, w')
  end.

Definition raise {A} (e : exn) : M A := λ w, (Raise e, w).

Definition emit (s : str) (w : world) : world :=
  World (users_file w) (stdin w) (stdout w ++ [s]).

(** [print(s)] *)
Definition print (s : str) : M unit := λ w, (Ok tt, emit s w).

(** [input(prompt)] *)
Definition input (prompt : str) : M str := λ w,
  match stdin w with
  | [] => (Raise EOFError, emit prompt w)
  | line :: rest => (Ok line, World (users_file w) rest (stdout w ++ [prompt]))
  end.

(** [load_users]: the empty mapping when the file is absent. *)
Definition load_users : M (gmap str str) := λ w,
  (Ok (default ∅ (users_file w)), w).

(** [hash_password]: raises where the password cannot be encoded. *)
Definition hash_password (password : str) : M str :=
  match encode password with
  | Some bytes => mret (of_string (Sha256.hexdigest bytes))
  | None => raise UnicodeEncodeError
  end.

(** [login_user].  The test
    [username in users and users[username] == hash_password(password)]
    hashes the password only when the username is a key. *)
Definition login_user : M (option str) :=
  users ← load_users;
  line1 ← input (of_string "Enter username: ");
  let username := strip line1 in
  line2 ← input (of_string "Enter password: ");
  let password := strip line2 in
  matches ← match users !! username with
            | None => mret false
            | Some stored =>
                h ← hash_password password; mret (bool_decide (stored = h))
            end;
  if matches : bool
  then print (of_string "Welcome, " ++ username ++ of_string "!");;
       mret (Some username)
  else print (of_string "Invalid username or password.");; mret None.

End Wide.

(** ** The file helpers on a directory tree

    The world above keeps files under the path they were opened with and
    lets every [open(p, 'w')] succeed.  On disk a path is resolved name
    by name from the working directory: [.] and [..] are followed, every
    directory on the way must exist, a name is at most 255 bytes and a
    path at most 4095, and a NUL is refused.  This module has the five
    file helpers once more, on such a tree without symbolic links; it
    shows where they fail and which usernames share a file. *)
Module Posix.

(** A place in the tree: the names from the root down. *)
Definition loc := list string.

Record disk := Disk {
  cwd : loc;
  dirs : gset loc;
  files : gmap loc json
}.

(** [OSError] is the error of a name or path that is too long. *)
Inductive exn :=
  | FileNotFoundError | NotADirectoryError | IsADirectoryError
  | FileExistsError | OSError | ValueError | BadDocument.

Inductive res (A : Type) :=
  | Ok (a : A)
  | Raise (e : exn).
Arguments Ok {A} a.
Arguments Raise {A} e.

Definition M (A : Type) : Type := disk → res A * disk.

Global Instance M_ret : MRet M := λ A a d, (Ok a, d).

Global Instance M_bind : MBind M := λ A B f m d,
  match m d with
  | (Ok a, d') => f a d'
  | (Raise e, d') => (Raise e, d')
  end.

Definition raise {A} (e : exn) : M A := λ d, (Raise e, d).

Inductive entry := Missing | Dir | File (doc : json).

(** What is at a place; the root is a directory. *)
Definition lookup (l : loc) (d : disk) : entry :=
  if bool_decide (l = [] ∨ l ∈ dirs d) then Dir
  else match files d !! l with
       | Some doc => File doc
       | None => Missing
       end.

(** [p.split('/')] *)
Fixpoint split (p : string) : list string :=
  match p with
  | EmptyString => [EmptyString]
  | String c p' =>
      if Ascii.eqb c "/" then EmptyString :: split p'
      else match split p' with
           | [] => [String c EmptyString]
           | name :: names => String c name :: names
           end
  end.

Fixpoint has_nul (p : string) : bool :=
  match p with
  | EmptyString => false
  | String c p' => (ord c =? 0) || has_nul p'
  end.

Definition parent (l : loc) : loc := take (length l - 1) l.

Definition too_long (limit : Z) (s : string) : bool :=
  limit <? Z.of_nat (length (encode s)).

(** One step of the resolution from the directory [l]. *)
Definition step (name : string) (l : loc) : exn + loc :=
  if bool_decide (name = "" ∨ name = ".") then inr l
  else if bool_decide (name = "..") then inr (parent l)
  else if too_long 255 name then inl OSError
  else inr (l ++ [name]).

(** The directories of a path, followed one after the other. *)
Fixpoint walk (names : list string) (l : loc) (d : disk) : exn + loc :=
  match names with
  | [] => inr l
  | name :: rest =>
      match step name l with
      | inl e => inl e
      | inr l' =>
          match lookup l' d with
          | Dir => walk rest l' d
          | File _ => inl NotADirectoryError
          | Missing => inl FileNotFoundError
          end
      end
  end.

(** The place a path names, whether or not something is there. *)
Definition resolve (p : string) (d : disk) : exn + loc :=
  if has_nul p then inl ValueError
  else if is_empty p then inl FileNotFoundError
  else if too_long 4095 p then inl OSError
  else
    let names := split p in
    match walk (take (length names - 1) names)
            (if starts_with_slash p then [] else cwd d) d with
    | inl e => inl e
    | inr l => step (default "" (last names)) l
    end.

(** [os.path.exists(p)]: false also where the path cannot be resolved. *)
Definition os_path_exists (p : string) : M bool := λ d,
  (Ok match resolve p d with
      | inr l => match lookup l d with Missing => false | _ => true end
      | inl _ => false
      end, d).

(** [os.makedirs(p)] for a path whose parent exists, as that of
    [TASKS_DIR] does: one directory is made. *)
Definition os_makedirs (p : string) : M unit := λ d,
  match resolve p d with
  | inl e => (Raise e, d)
  | inr l =>
      match lookup l d with
      | Missing => (Ok tt, Disk (cwd d) ({[l]} ∪ dirs d) (files d))
      | _ => (Raise FileExistsError, d)
      end
  end.

(** [with open(p, 'r') as f: json.load(f)] *)
Definition read_json (p : string) : M json := λ d,
  match resolve p d with
  | inl e => (Raise e, d)
  | inr l =>
      match lookup l d with
      | File doc => (Ok doc, d)
      | Dir => (Raise IsADirectoryError, d)
      | Missing => (Raise FileNotFoundError, d)
      end
  end.

(** [with open(p, 'w') as f: json.dump(doc, f, indent=4)] *)
Definition write_json (p : string) (doc : json) : M unit := λ d,
  match resolve p d with
  | inl e => (Raise e, d)
  | inr l =>
      match lookup l d with
      | Dir => (Raise IsADirectoryError, d)
      | _ => (Ok tt, Disk (cwd d) (dirs d) (<[l := doc]> (files d)))
      end
  end.

Definition expect {A} (o : option A) : M A :=
  match o with Some a => mret a | None => raise BadDocument end.

Definition load_users : M (gmap string string) :=
  e ← os_path_exists USERS_FILE;
  if negb e then mret ∅
  else doc ← read_json USERS_FILE; expect (users_of_json doc).

Definition save_users (users : gmap string string) : M unit :=
  write_json USERS_FILE (json_of_users users).

Definition get_user_tasks_file (username : string) : M string :=
  e ← os_path_exists TASKS_DIR;
  (if negb e then os_makedirs TASKS_DIR else mret tt);;
  mret (os_path_join TASKS_DIR (username +:+ "_tasks.json")).

Definition load_tasks (username : string) : M (list task) :=
  tasks_file ← get_user_tasks_file username;
  e ← os_path_exists tasks_file;
  if negb e then mret []
  else doc ← read_json tasks_file; expect (tasks_of_json doc).

Definition save_tasks (username : string) (tasks : list task) : M unit :=
  tasks_file ← get_user_tasks_file username;
  write_json tasks_file (json_of_tasks tasks).

(** The disk once the task directory has been looked for. *)
Definition with_tasks_dir (d : disk) : disk :=
  match lookup (cwd d ++ [TASKS_DIR]) d with
  | Missing => Disk (cwd d) ({[cwd d ++ [TASKS_DIR]]} ∪ dirs d) (files d)
  | _ => d
  end.

(** The place of a user's task file for a username that is one name. *)
Definition tasks_loc (username : string) (d : disk) : loc :=
  cwd d ++ [TASKS_DIR; username +:+ "_tasks.json"].

(** The disk with a document put at a place. *)
Definition put (l : loc) (doc : json) (d : disk) : disk :=
  Disk (cwd d) (dirs d) (<[l := doc]> (files d)).

End Posix.

(** A username that gives a file name in the task directory: no slash,
    no NUL, and at most 255 bytes with the suffix. *)
Definition plain (username : string) : Prop :=
  Posix.split username = [username]
  ∧ Posix.has_nul username = false
  ∧ Posix.too_long 255 (username +:+ "_tasks.json") = false.

(** A world of lines below 256 as the login on arbitrary lines sees it:
    the credential mapping [users] it holds, and its lines. *)
Definition widen (users : gmap string string) (w : world) : Wide.world :=
  Wide.World
    (if path_exists USERS_FILE w
     then Some (kmap Wide.of_string (Wide.of_string <$> users)) else None)
    (Wide.of_string <$> stdin w) (Wide.of_string <$> stdout w).

(** * Properties *)

(** ** Worlds *)

Lemma world_eq (w1 w2 : world) :
  files w1 = files w2 → dirs w1 = dirs w2 → saved w1 = saved w2 →
  stdin w1 = stdin w2 → stdout w1 = stdout w2 → w1 = w2.
Proof. destruct w1, w2; simpl; intros; subst; reflexivity. Qed.

Lemma emits_nil w : emits [] w = w.
Proof. apply world_eq; simpl; auto using app_nil_r. Qed.

Lemma emits_cons s l w : emits (s :: l) w = emits l (emit s w).
Proof. apply world_eq; simpl; auto. by rewrite <- app_assoc. Qed.

Lemma path_exists_files p w w' :
  files w' = files w → dirs w' = dirs w → path_exists p w' = path_exists p w.
Proof. unfold path_exists. by intros -> ->. Qed.

Lemma tasks_path_not_dir u : tasks_path u ≠ TASKS_DIR.
Proof.
  unfold tasks_path, os_path_join.
  destruct (starts_with_slash _) eqn:E.
  - destruct u as [|c u]; simpl in *; [discriminate|].
    destruct c as [[] [] [] [] [] [] [] []]; simpl in E; try discriminate.
  - simpl. discriminate.
Qed.

Lemma with_tasks_dir_exists w : path_exists TASKS_DIR (with_tasks_dir w) = true.
Proof.
  unfold with_tasks_dir. destruct (path_exists TASKS_DIR w) eqn:E; [done|].
  unfold path_exists; simpl. rewrite (bool_decide_true (_ ∈ _)).
  - apply orb_true_r.
  - apply elem_of_union_l. by apply elem_of_singleton.
Qed.

Lemma with_tasks_dir_id w : path_exists TASKS_DIR w = true → with_tasks_dir w = w.
Proof. unfold with_tasks_dir. by intros ->. Qed.


Lemma with_tasks_dir_idem w : with_tasks_dir (with_tasks_dir w) = with_tasks_dir w.
Proof. unfold with_tasks_dir at 1. by rewrite with_tasks_dir_exists. Qed.

Lemma with_tasks_dir_files w : files (with_tasks_dir w) = files w.
Proof. unfold with_tasks_dir. by destruct (path_exists _ _). Qed.

Lemma with_tasks_dir_saved w : saved (with_tasks_dir w) = saved w.
Proof. unfold with_tasks_dir. by destruct (path_exists _ _). Qed.

Lemma with_tasks_dir_stdin w : stdin (with_tasks_dir w) = stdin w.
Proof. unfold with_tasks_dir. by destruct (path_exists _ _). Qed.

Lemma with_tasks_dir_stdout w : stdout (with_tasks_dir w) = stdout w.
Proof. unfold with_tasks_dir. by destruct (path_exists _ _). Qed.

Lemma with_tasks_dir_path_exists u w :
  path_exists (tasks_path u) (with_tasks_dir w) = path_exists (tasks_path u) w.
Proof.
  unfold with_tasks_dir. destruct (path_exists TASKS_DIR w); [done|].
  unfold path_exists; simpl. f_equal.
  apply bool_decide_ext. pose proof (tasks_path_not_dir u).
  rewrite elem_of_union, elem_of_singleton. tauto.
Qed.

(** ** JSON documents *)

Lemma task_of_json_of_task t : task_of_json (json_of_task t) = Some t.
Proof.
  destruct t as [i d s]. unfold task_of_json, json_of_task; simpl.
  rewrite lookup_insert_eq.
  rewrite lookup_insert_ne, lookup_insert_eq by done.
  rewrite !lookup_insert_ne, lookup_insert_eq by done.
  rewrite decide_True; [done|].
  rewrite !map_size_insert_None, map_size_empty; [done|..];
    by rewrite ?lookup_insert_ne, ?lookup_empty.
Qed.

Lemma tasks_of_json_of_tasks ts : tasks_of_json (json_of_tasks ts) = Some ts.
Proof.
  unfold tasks_of_json, json_of_tasks. apply mapM_Some.
  induction ts as [|t ts IH]; simpl; constructor; auto using task_of_json_of_task.
Qed.

Lemma users_of_json_of_users (m : gmap string string) :
  users_of_json (json_of_users m) = Some m.
Proof.
  unfold users_of_json, json_of_users.
  rewrite decide_True.
  - f_equal. apply map_eq; intros k.
    rewrite lookup_omap, lookup_fmap. by destruct (m !! k).
  - apply map_Forall_fmap, map_Forall_lookup; intros k v _. by eexists.
Qed.



(** ** The monad *)

Lemma bind_Ok {A B} (m : M A) (f : A → M B) w a w' :
  m w = (Ok a, w') → (m ≫= f) w = f a w'.
Proof. unfold mbind, M_bind. by intros ->. Qed.

Lemma bind_Raise {A B} (m : M A) (f : A → M B) w e w' :
  m w = (Raise e, w') → (m ≫= f) w = (Raise e, w').
Proof. unfold mbind, M_bind. by intros ->. Qed.

Lemma input_line prompt w line rest :
  stdin w = line :: rest →
  input prompt w = (Ok line, set_stdin rest (emit prompt w)).
Proof. unfold input. by intros ->. Qed.

Lemma mapM_print {A} (f : A → string) (l : list A) w :
  ∃ r, mapM (λ x, print (f x)) l w = (Ok r, emits (f <$> l) w).
Proof.
  revert w; induction l as [|x l IH]; intros w; simpl.
  - eexists. by rewrite emits_nil.
  - destruct (IH (emit (f x) w)) as [r Hr].
    exists (tt :: r). rewrite emits_cons.
    rewrite (bind_Ok _ _ _ tt (emit (f x) w)) by reflexivity.
    by rewrite (bind_Ok _ _ _ _ _ Hr).
Qed.

(** ** File handling *)

Lemma load_users_spec w users : credentials w users → load_users w = (Ok users, w).
Proof.
  unfold load_users, os_path_exists, mbind, M_bind. intros [[E ->]|H].
  - by rewrite E.
  - assert (path_exists USERS_FILE w = true) as ->.
    { unfold path_exists. rewrite bool_decide_true; eauto. }
    simpl. unfold read_json. rewrite H. by rewrite users_of_json_of_users.
Qed.

Lemma save_users_spec users w :
  save_users users w = (Ok tt, put_file USERS_FILE (json_of_users users) w).
Proof. reflexivity. Qed.

Lemma credentials_put users w :
  credentials (put_file USERS_FILE (json_of_users users) w) users.
Proof. right. simpl. apply lookup_insert_eq. Qed.

Lemma credentials_ext w w' users :
  files w' = files w → dirs w' = dirs w → credentials w users → credentials w' users.
Proof.
  unfold credentials. intros Hf Hd. rewrite (path_exists_files _ _ _ Hf Hd), Hf. auto.
Qed.


Lemma get_user_tasks_file_spec u w :
  get_user_tasks_file u w = (Ok (tasks_path u), with_tasks_dir w).
Proof.
  unfold get_user_tasks_file, with_tasks_dir, os_path_exists, os_makedirs, mbind, M_bind.
  destruct (path_exists TASKS_DIR w) eqn:E; simpl; [done|]. by rewrite E.
Qed.

Lemma load_tasks_spec u w ts :
  task_list u w ts → load_tasks u w = (Ok ts, with_tasks_dir w).
Proof.
  intros H. unfold load_tasks.
  rewrite (bind_Ok _ _ _ _ _ (get_user_tasks_file_spec u w)).
  unfold os_path_exists, mbind, M_bind.
  rewrite with_tasks_dir_path_exists. destruct H as [[E ->]|H].
  - by rewrite E.
  - assert (path_exists (tasks_path u) w = true) as ->.
    { unfold path_exists. rewrite bool_decide_true; eauto. }
    simpl. unfold read_json. rewrite with_tasks_dir_files, H.
    by rewrite tasks_of_json_of_tasks.
Qed.

Lemma save_tasks_spec u ts w :
  save_tasks u ts w
  = (Ok tt, put_file (tasks_path u) (json_of_tasks ts) (with_tasks_dir w)).
Proof.
  unfold save_tasks. by rewrite (bind_Ok _ _ _ _ _ (get_user_tasks_file_spec u w)).
Qed.

Lemma task_list_put u ts w : task_list u (put_file (tasks_path u) (json_of_tasks ts) w) ts.
Proof. right. simpl. apply lookup_insert_eq. Qed.

Lemma task_list_ext u w w' ts :
  files w' = files w → dirs w' = dirs w → task_list u w ts → task_list u w' ts.
Proof.
  unfold task_list. intros Hf Hd. rewrite (path_exists_files _ _ _ Hf Hd), Hf. auto.
Qed.

Lemma task_list_with_tasks_dir u w ts :
  task_list u w ts → task_list u (with_tasks_dir w) ts.
Proof.
  unfold task_list. by rewrite with_tasks_dir_path_exists, with_tasks_dir_files.
Qed.



Lemma view_tasks_spec u w ts :
  task_list u w ts →
  view_tasks u w = (Ok tt, emits (listing ts) (with_tasks_dir w)).
Proof.
  intros H. unfold view_tasks.
  rewrite (bind_Ok _ _ _ _ _ (load_tasks_spec _ _ _ H)).
  destruct ts as [|t ts]; [reflexivity|].
  cbv beta iota. remember (t :: ts) as l eqn:El.
  replace (listing l) with
    (String "010" "--- Your Tasks ---" :: (task_line <$> l)
       ++ ["------------------" +:+ String "010" ""]) by (by subst l).
  rewrite emits_cons.
  rewrite (bind_Ok _ _ _ tt (emit (String "010" "--- Your Tasks ---") (with_tasks_dir w)))
    by reflexivity.
  destruct (mapM_print task_line l (emit (String "010" "--- Your Tasks ---") (with_tasks_dir w)))
    as [r Hr].
  rewrite (bind_Ok _ _ _ _ _ Hr).
  unfold print. f_equal. apply world_eq; simpl; auto. by rewrite <- !app_assoc.
Qed.

(** ** Task operations, as equations on worlds *)

Lemma after_prompt_dir prompt shown rest w :
  with_tasks_dir (after_prompt prompt shown rest w) = after_prompt prompt shown rest w.
Proof.
  apply with_tasks_dir_id.
  rewrite <- (with_tasks_dir_exists w). by apply path_exists_files.
Qed.

Lemma add_task_spec u w ts line rest :
  task_list u w ts → stdin w = line :: rest → is_empty (strip line) = false →
  add_task u w
  = (Ok tt,
     emit ("Task '" +:+ strip line +:+ "' (ID: " +:+ py_str (id (new_task ts line))
           +:+ ") added successfully.")
       (put_file (tasks_path u) (json_of_tasks (ts ++ [new_task ts line]))
          (after_prompt "Enter task description: " [] rest w))).
Proof.
  intros Hts Hin Hne. unfold add_task.
  rewrite (bind_Ok _ _ _ _ _ (load_tasks_spec _ _ _ Hts)).
  erewrite bind_Ok; [|apply input_line; by rewrite with_tasks_dir_stdin].
  rewrite Hne.
  erewrite bind_Ok; [|apply save_tasks_spec].
  unfold print. do 3 f_equal.
  rewrite <- (after_prompt_dir "Enter task description: " [] rest w).
  unfold after_prompt. by rewrite emits_nil.
Qed.

Lemma add_task_empty u w ts line rest :
  task_list u w ts → stdin w = line :: rest → is_empty (strip line) = true →
  add_task u w
  = (Ok tt, emit "Task description cannot be empty."
              (after_prompt "Enter task description: " [] rest w)).
Proof.
  intros Hts Hin He. unfold add_task.
  rewrite (bind_Ok _ _ _ _ _ (load_tasks_spec _ _ _ Hts)).
  erewrite bind_Ok; [|apply input_line; by rewrite with_tasks_dir_stdin].
  rewrite He. unfold print, after_prompt. by rewrite emits_nil.
Qed.

Lemma mark_task_completed_spec u w ts line rest task_id :
  ts ≠ [] → task_list u w ts → stdin w = line :: rest → py_int line = Some task_id →
  mark_task_completed u w
  = (Ok tt,
     let w1 := after_prompt "Enter the ID of the task to mark as completed: "
                 (listing ts) rest w in
     if (mark_first task_id ts).2
     then emit ("Task ID " +:+ py_str task_id +:+ " marked as Completed.")
            (put_file (tasks_path u) (json_of_tasks (mark_first task_id ts).1) w1)
     else emit ("Task with ID " +:+ py_str task_id +:+ " not found.") w1).
Proof.
  intros Hne Hts Hin Hint. unfold mark_task_completed.
  rewrite (bind_Ok _ _ _ _ _ (load_tasks_spec _ _ _ Hts)).
  destruct ts as [|t ts]; [done|]. cbv beta iota.
  remember (t :: ts) as l eqn:El. clear El Hne.
  erewrite bind_Ok;
    [|apply view_tasks_spec, task_list_with_tasks_dir, Hts].
  rewrite with_tasks_dir_idem.
  erewrite bind_Ok; [|apply input_line; simpl; by rewrite with_tasks_dir_stdin].
  rewrite Hint. fold (after_prompt "Enter the ID of the task to mark as completed: "
                        (listing l) rest w).
  destruct (mark_first task_id l) as [l' [|]]; simpl; [|done].
  erewrite bind_Ok; [|apply save_tasks_spec].
  by rewrite after_prompt_dir.
Qed.

Lemma mark_task_completed_nil u w :
  task_list u w [] →
  mark_task_completed u w
  = (Ok tt, emit "No tasks to mark as completed." (with_tasks_dir w)).
Proof.
  intros Hts. unfold mark_task_completed.
  by rewrite (bind_Ok _ _ _ _ _ (load_tasks_spec _ _ _ Hts)).
Qed.

Lemma delete_task_spec u w ts line rest task_id :
  ts ≠ [] → task_list u w ts → stdin w = line :: rest → py_int line = Some task_id →
  delete_task u w
  = (Ok tt,
     let w1 := after_prompt "Enter the ID of the task to delete: " (listing ts) rest w in
     let ts' := filter (λ t, id t ≠ task_id) ts in
     if bool_decide (length ts' < length ts)%nat
     then emit ("Task ID " +:+ py_str task_id +:+ " deleted successfully.")
            (put_file (tasks_path u) (json_of_tasks ts') w1)
     else emit ("Task with ID " +:+ py_str task_id +:+ " not found.") w1).
Proof.
  intros Hne Hts Hin Hint. unfold delete_task.
  rewrite (bind_Ok _ _ _ _ _ (load_tasks_spec _ _ _ Hts)).
  destruct ts as [|t ts]; [done|]. cbv beta iota.
  remember (t :: ts) as l eqn:El. clear El Hne.
  erewrite bind_Ok;
    [|apply view_tasks_spec, task_list_with_tasks_dir, Hts].
  rewrite with_tasks_dir_idem.
  erewrite bind_Ok; [|apply input_line; simpl; by rewrite with_tasks_dir_stdin].
  rewrite Hint. fold (after_prompt "Enter the ID of the task to delete: " (listing l) rest w).
  cbv zeta. case_bool_decide; [|done].
  erewrite bind_Ok; [|apply save_tasks_spec].
  by rewrite after_prompt_dir.
Qed.

Lemma delete_task_nil u w :
  task_list u w [] →
  delete_task u w = (Ok tt, emit "No tasks to delete." (with_tasks_dir w)).
Proof.
  intros Hts. unfold delete_task.
  by rewrite (bind_Ok _ _ _ _ _ (load_tasks_spec _ _ _ Hts)).
Qed.

(** ** Stripping *)

Lemma lstrip_by_all sp s : all_of sp s = true → lstrip_by sp s = "".
Proof.
  induction s as [|c s IH]; simpl; [done|].
  intros [Hc Hs]%andb_true_iff. rewrite Hc. auto.
Qed.

Lemma rstrip_by_all sp s : all_of sp s = true → rstrip_by sp s = "".
Proof.
  induction s as [|c s IH]; simpl; [done|].
  intros [Hc Hs]%andb_true_iff. by rewrite (IH Hs), Hc.
Qed.

Lemma lstrip_by_app_all sp pre s :
  all_of sp pre = true → lstrip_by sp (pre +:+ s) = lstrip_by sp s.
Proof.
  induction pre as [|c pre IH]; simpl; [done|].
  intros [Hc Hs]%andb_true_iff. rewrite Hc. auto.
Qed.

Lemma rstrip_by_app_all sp s post :
  all_of sp post = true → rstrip_by sp (s +:+ post) = rstrip_by sp s.
Proof.
  intros H. induction s as [|c s IH]; simpl.
  - by apply rstrip_by_all.
  - by rewrite IH.
Qed.

Lemma lstrip_by_app sp s post :
  lstrip_by sp (s +:+ post)
  = if all_of sp s then lstrip_by sp post else lstrip_by sp s +:+ post.
Proof.
  induction s as [|c s IH]; simpl; [done|].
  destruct (sp c); simpl; [apply IH|done].
Qed.

Lemma strip_by_none sp s : none_of sp s = true → strip_by sp s = s.
Proof.
  intros H. unfold strip_by.
  assert (lstrip_by sp s = s) as ->.
  { destruct s as [|c s]; [done|]. simpl in *.
    apply andb_true_iff in H as [Hc _]. by destruct (sp c). }
  induction s as [|c s IH]; [done|]. simpl in *.
  apply andb_true_iff in H as [Hc Hs]. rewrite (IH Hs).
  destruct s; [|done]. by destruct (sp c).
Qed.

Lemma strip_all_space s : all_space s = true → strip s = "".
Proof. intros H. unfold strip, strip_by. by rewrite (lstrip_by_all _ _ H). Qed.

Lemma strip_pad pre s post :
  all_space pre = true → all_space post = true → strip (pre +:+ s +:+ post) = strip s.
Proof.
  intros Hpre Hpost. unfold strip, strip_by.
  rewrite (lstrip_by_app_all _ _ _ Hpre), lstrip_by_app.
  destruct (all_of isspace s) eqn:E.
  - by rewrite (lstrip_by_all _ _ Hpost), (lstrip_by_all _ _ E).
  - by apply rstrip_by_app_all.
Qed.

Lemma is_empty_true s : is_empty s = true ↔ s = "".
Proof. destruct s; simpl; split; congruence. Qed.

Lemma is_empty_false s : is_empty s = false ↔ s ≠ "".
Proof. destruct s; simpl; split; congruence. Qed.

(** ** [int] reads what [str] writes *)

Lemma digit_of_pretty_N_char (d : N) :
  (d < 10)%N → digit_of (pretty_N_char d) = Some (Z.of_N d).
Proof.
  intros Hd.
  assert (d = 0 ∨ d = 1 ∨ d = 2 ∨ d = 3 ∨ d = 4 ∨ d = 5 ∨ d = 6 ∨ d = 7
          ∨ d = 8 ∨ d = 9)%N as Hcases by lia.
  repeat (destruct Hcases as [->|Hcases]; [reflexivity|]). by subst.
Qed.

Lemma int_space_pretty_N_char (d : N) : int_space (pretty_N_char d) = false.
Proof. unfold pretty_N_char. by repeat case_match. Qed.

Lemma int_digits_pretty_N_go (x : N) : ∀ s prev,
  (0 < x)%N →
  int_digits (pretty_N_go x s) 0 prev = int_digits s (Z.of_N x) true.
Proof.
  induction (N.lt_wf_0 x) as [x _ IH]. intros s prev Hx.
  rewrite pretty_N_go_step by done.
  assert (x `mod` 10 < 10)%N as Hd by by apply N.mod_lt.
  destruct (decide (x `div` 10 = 0)%N) as [E|E].
  - rewrite E, pretty_N_go_0. simpl. rewrite digit_of_pretty_N_char by done.
    f_equal. pose proof (N.div_mod' x 10) as H. rewrite E in H. lia.
  - rewrite IH; [|apply N.div_lt; lia|by apply N.neq_0_lt_0].
    simpl. rewrite digit_of_pretty_N_char by done.
    f_equal. pose proof (N.div_mod' x 10). lia.
Qed.

Lemma pretty_N_go_head (x : N) : ∀ s,
  (0 < x)%N → ∃ d r, (d < 10)%N ∧ pretty_N_go x s = String (pretty_N_char d) r.
Proof.
  induction (N.lt_wf_0 x) as [x _ IH]. intros s Hx.
  rewrite pretty_N_go_step by done.
  destruct (decide (x `div` 10 = 0)%N) as [E|E].
  - rewrite E, pretty_N_go_0. eexists _, _. split; [|done]. by apply N.mod_lt.
  - apply IH; [apply N.div_lt; lia|by apply N.neq_0_lt_0].
Qed.

Lemma none_of_pretty_N_go (x : N) : ∀ s,
  none_of int_space s = true → none_of int_space (pretty_N_go x s) = true.
Proof.
  induction (N.lt_wf_0 x) as [x _ IH]. intros s Hs.
  destruct (decide (0 < x)%N) as [Hx|Hx].
  - rewrite pretty_N_go_step by done. apply IH; [apply N.div_lt; lia|].
    simpl. by rewrite int_space_pretty_N_char.
  - assert (x = 0%N) as -> by lia. by rewrite pretty_N_go_0.
Qed.

Lemma py_int_digits (x : N) :
  (0 < x)%N → py_int (pretty_N_go x "") = Some (Z.of_N x).
Proof.
  intros Hx. unfold py_int.
  rewrite strip_by_none by by apply none_of_pretty_N_go.
  trans (int_digits (pretty_N_go x "") 0 false);
    [|by rewrite int_digits_pretty_N_go].
  destruct (pretty_N_go_head x "" Hx) as (d & r & Hd & ->).
  assert (d = 0 ∨ d = 1 ∨ d = 2 ∨ d = 3 ∨ d = 4 ∨ d = 5 ∨ d = 6 ∨ d = 7
          ∨ d = 8 ∨ d = 9)%N as Hcases by lia.
  repeat (destruct Hcases as [->|Hcases]; [reflexivity|]). by subst.
Qed.

(** What [str] writes for an integer, [int] reads back. *)
Lemma py_int_py_str (n : Z) : py_int (py_str n) = Some n.
Proof.
  destruct n as [|p|p]; [reflexivity|..].
  - unfold py_str, pretty, pretty_Z, pretty, pretty_positive, pretty, pretty_N.
    rewrite decide_False by done. by rewrite py_int_digits.
  - unfold py_str, pretty, pretty_Z, pretty, pretty_positive, pretty, pretty_N.
    rewrite decide_False by done.
    change ("-" +:+ ?r) with (String "-" r). unfold py_int.
    rewrite strip_by_none by (simpl; by apply none_of_pretty_N_go).
    by rewrite int_digits_pretty_N_go.
Qed.

(** ** Known values *)

Example sha256_empty :
  hash_password ""
  = "e3b0c44298fc1c149afbf4c8996fb92427ae41e4649b934ca495991b7852b855".
Proof. vm_compute. reflexivity. Qed.

Example sha256_abc :
  hash_password "abc"
  = "ba7816bf8f01cfea414140de5dae2223b00361a396177a9cb410ff61f20015ad".
Proof. vm_compute. reflexivity. Qed.

Example sha256_two_blocks :
  hash_password "abcdbcdecdefdefgefghfghighijhijkijkljklmklmnlmnomnopnopq"
  = "248d6a61d20638b8e5c026930c3e6039a33ce45964ff2167f6ecedd419db06c1".
Proof. vm_compute. reflexivity. Qed.

Example sha256_two_byte_characters :
  hash_password (String "233" (String "255" ""))
  = "8a4cb24b88376ed3e4c3d2f084efa768152449e3bc668c2ebd8ac5bf2b201a7a".
Proof. vm_compute. reflexivity. Qed.

Example strip_examples :
  strip "  Buy milk " = "Buy milk" ∧ strip (String "009" " ") = ""
  ∧ strip "a  b" = "a  b" ∧ strip (String "160" (String "028" "x")) = "x".
Proof. by vm_compute. Qed.

Example py_int_examples :
  py_int " -1_2 " = Some (-12) ∧ py_int "+0012" = Some 12
  ∧ py_int "0_0" = Some 0 ∧ py_int (String "133" "5") = Some 5
  ∧ py_int "12_" = None ∧ py_int "1__2" = None ∧ py_int "" = None
  ∧ py_int "-" = None ∧ py_int "1 2" = None ∧ py_int "two" = None
  ∧ py_int "+-1" = None ∧ py_int (String "028" "5") = None.
Proof. by vm_compute. Qed.

Example os_path_join_examples :
  os_path_join TASKS_DIR "alice_tasks.json" = "tasks/alice_tasks.json"
  ∧ os_path_join "tasks/" "x" = "tasks/x" ∧ os_path_join "tasks" "/x" = "/x".
Proof. by vm_compute. Qed.

(** The scenario of the specification, run from an empty store. *)
Example scenario :
  ∃ w,
    (register_user ≫= λ ok, login_user ≫= λ who,
     add_task "alice" ≫= λ _, add_task "alice" ≫= λ _,
     mark_task_completed "alice" ≫= λ _, delete_task "alice" ≫= λ _,
     login_user ≫= λ again, mret (ok, who, again))
      (fresh ["alice"; "secret1"; "alice"; "secret1"; "Buy milk"; "Pay bills";
              "1"; "2"; "alice"; "wrongpass"])
    = (Ok (true, Some "alice", None), w)
    ∧ task_list "alice" w [Task 1 "Buy milk" "Completed"]
    ∧ saved w = [USERS_FILE; tasks_path "alice"; tasks_path "alice";
                 tasks_path "alice"; tasks_path "alice"].
Proof.
  eexists. split; [vm_compute; reflexivity|].
  split; [right|]; vm_compute; reflexivity.
Qed.

(** ** Authentication, as equations on worlds *)

Lemma register_user_loop_accept users line rest w :
  strip line ≠ "" → users !! strip line = None →
  register_user_loop users (line :: rest) w
  = (Ok (strip line), set_stdin rest (emit "Enter new username: " w)).
Proof.
  intros He%is_empty_false Hn. simpl. rewrite He, Hn.
  rewrite bool_decide_false; [done|]. by intros [? ?].
Qed.

Lemma register_user_loop_taken users line rest w :
  is_Some (users !! strip line) →
  register_user_loop users (line :: rest) w
  = register_user_loop users rest
      (emit (if is_empty (strip line) then "Username cannot be empty."
             else "Username already exists. Please choose a different one.")
         (set_stdin rest (emit "Enter new username: " w))).
Proof.
  intros Hs. simpl. destruct (is_empty (strip line)); [done|].
  by rewrite bool_decide_true.
Qed.

Lemma register_user_loop_inv users lines w r w' :
  register_user_loop users lines w = (r, w') →
  files w' = files w ∧ dirs w' = dirs w ∧ saved w' = saved w
  ∧ ∀ u, r = Ok u → u ≠ "" ∧ users !! u = None.
Proof.
  revert w. induction lines as [|line rest IH]; intros w; simpl.
  - intros [= <- <-]. by simpl.
  - destruct (is_empty (strip line)) eqn:He.
    { intros H. apply IH in H. by simpl in H. }
    case_bool_decide as Hs.
    { intros H. apply IH in H. by simpl in H. }
    intros [= <- <-]. simpl. do 3 (split; [done|]).
    intros u [= <-]. split.
    + by apply is_empty_false.
    + destruct (users !! strip line) eqn:E; [|done].
      destruct Hs; eauto.
Qed.

Lemma register_user_spec w users lu lp rest :
  credentials w users → stdin w = lu :: lp :: rest →
  strip lu ≠ "" → users !! strip lu = None → strip lp ≠ "" →
  register_user w
  = (Ok true,
     emit "Registration successful!"
       (put_file USERS_FILE
          (json_of_users (<[strip lu := hash_password (strip lp)]> users))
          (set_stdin rest (emit "Enter password: " (emit "Enter new username: " w))))).
Proof.
  intros Hc Hin Hu Hn Hp. unfold register_user.
  rewrite (bind_Ok _ _ _ _ _ (load_users_spec _ _ Hc)).
  erewrite bind_Ok; [|rewrite Hin; by apply register_user_loop_accept].
  erewrite bind_Ok; [|by apply input_line].
  apply is_empty_false in Hp. rewrite Hp.
  erewrite bind_Ok; [|apply save_users_spec].
  reflexivity.
Qed.

Lemma register_user_blank w users lu lp rest :
  credentials w users → stdin w = lu :: lp :: rest →
  strip lu ≠ "" → users !! strip lu = None → strip lp = "" →
  register_user w
  = (Ok false,
     emit "Password cannot be empty. Registration failed."
       (set_stdin rest (emit "Enter password: " (emit "Enter new username: " w)))).
Proof.
  intros Hc Hin Hu Hn Hp. unfold register_user.
  rewrite (bind_Ok _ _ _ _ _ (load_users_spec _ _ Hc)).
  erewrite bind_Ok; [|rewrite Hin; by apply register_user_loop_accept].
  erewrite bind_Ok; [|by apply input_line].
  apply is_empty_true in Hp. rewrite Hp. reflexivity.
Qed.

Lemma login_user_spec w users l1 l2 rest :
  credentials w users → stdin w = l1 :: l2 :: rest →
  login_user w
  = let w2 := set_stdin rest (emit "Enter password: " (emit "Enter username: " w)) in
    if decide (users !! strip l1 = Some (hash_password (strip l2)))
    then (Ok (Some (strip l1)), emit ("Welcome, " +:+ strip l1 +:+ "!") w2)
    else (Ok None, emit "Invalid username or password." w2).
Proof.
  intros Hc Hin. unfold login_user.
  rewrite (bind_Ok _ _ _ _ _ (load_users_spec _ _ Hc)).
  erewrite bind_Ok; [|by apply input_line].
  erewrite bind_Ok; [|by apply input_line].
  cbv zeta. destruct (decide _) as [E|E].
  - rewrite E. rewrite !bool_decide_true by eauto. reflexivity.
  - rewrite (bool_decide_false (_ = _)) by done. by rewrite andb_false_r.
Qed.

Lemma register_user_preserves w users r w' :
  credentials w users → register_user w = (r, w') →
  ∃ users', credentials w' users' ∧ users ⊆ users'.
Proof.
  intros Hc. unfold register_user.
  rewrite (bind_Ok _ _ _ _ _ (load_users_spec _ _ Hc)).
  destruct (register_user_loop users (stdin w) w) as [[u|e] w1] eqn:Hloop.
  2:{ erewrite bind_Raise by exact Hloop. intros [= <- <-].
      apply register_user_loop_inv in Hloop as (Hf & Hd & _).
      exists users. split; [by apply (credentials_ext w)|done]. }
  erewrite bind_Ok by exact Hloop.
  apply register_user_loop_inv in Hloop as (Hf & Hd & _ & Hu).
  destruct (Hu u eq_refl) as [_ Hfree].
  assert (credentials w1 users) as Hc1 by by apply (credentials_ext w).
  destruct (stdin w1) as [|line rest] eqn:Hin.
  { erewrite bind_Raise; [|unfold input; by rewrite Hin].
    intros [= <- <-]. exists users. split; [by apply (credentials_ext w1)|done]. }
  erewrite bind_Ok by by apply input_line.
  destruct (is_empty (strip line)).
  - intros [= <- <-]. exists users. split; [by apply (credentials_ext w1)|done].
  - erewrite bind_Ok by apply save_users_spec.
    intros [= <- <-]. eexists. split.
    + eapply credentials_ext; [| |apply credentials_put]; reflexivity.
    + by apply insert_subseteq.
Qed.

(** ** Task ids: the arithmetic of [add_task] *)

Lemma foldl_max_spec (a : Z) (l : list Z) :
  a ≤ foldl Z.max a l
  ∧ Forall (λ x, x ≤ foldl Z.max a l) l
  ∧ (foldl Z.max a l = a ∨ foldl Z.max a l ∈ l).
Proof.
  revert a. induction l as [|x l IH]; intros a; simpl.
  - split; [lia|]. split; [constructor|by left].
  - destruct (IH (Z.max a x)) as (H1 & H2 & H3).
    split; [lia|]. split; [constructor; [lia|done]|].
    destruct H3 as [H3|H3].
    + rewrite H3. destruct (Z.max_spec a x) as [[_ ->]|[_ ->]];
        [right; left|by left].
    + right. by right.
Qed.

Lemma max_id_spec t rest :
  (∀ x, x ∈ t :: rest → id x ≤ max_id t rest)
  ∧ ∃ x, x ∈ t :: rest ∧ id x = max_id t rest.
Proof.
  unfold max_id. destruct (foldl_max_spec (id t) (id <$> rest)) as (H1 & H2 & H3).
  split.
  - intros x [->|Hx]%elem_of_cons; [done|].
    rewrite Forall_forall in H2. apply H2. by apply list_elem_of_fmap_2.
  - destruct H3 as [->|(x & -> & Hx)%list_elem_of_fmap].
    + exists t. split; [left|done].
    + exists x. split; [by right|done].
Qed.

Lemma new_task_id_spec ts line :
  (∀ x, x ∈ ts → id x < id (new_task ts line))
  ∧ (ts = [] → id (new_task ts line) = 1)
  ∧ (ts ≠ [] → ∃ x, x ∈ ts ∧ id (new_task ts line) = id x + 1).
Proof.
  destruct ts as [|t rest]; simpl.
  - split; [by intros x ?%elem_of_nil|]. split; [done|by intros []].
  - destruct (max_id_spec t rest) as (H1 & x & Hx & H2).
    split; [|split; [done|]].
    + intros y Hy. specialize (H1 y Hy). lia.
    + intros _. exists x. split; [done|lia].
Qed.

Lemma new_task_id_seqZ ts line :
  id <$> ts = seqZ 1 (Z.of_nat (length ts)) →
  id (new_task ts line) = 1 + Z.of_nat (length ts).
Proof.
  intros Hids. destruct (new_task_id_spec ts line) as (Hlt & Hnil & Hmax).
  destruct ts as [|t rest]; [by rewrite Hnil|].
  destruct Hmax as (x & Hx & Hmax); [done|].
  assert (id x ∈ seqZ 1 (Z.of_nat (length (t :: rest)))) as Hin
    by (rewrite <- Hids; by apply list_elem_of_fmap_2).
  apply elem_of_seqZ in Hin.
  assert (∃ z, z ∈ t :: rest ∧ id z = Z.of_nat (length (t :: rest))) as (z & Hz & Hzid).
  { assert (Z.of_nat (length (t :: rest)) ∈ id <$> t :: rest) as Hm.
    { rewrite Hids. apply elem_of_seqZ. rewrite length_cons. lia. }
    apply list_elem_of_fmap in Hm as (z & ? & ?). eauto. }
  specialize (Hlt z Hz). rewrite Hmax in Hlt |- *. lia.
Qed.

Lemma added_snoc ts lines line :
  added ts (lines ++ [line]) = added ts lines ++ [new_task (added ts lines) line].
Proof. revert ts. induction lines as [|l lines IH]; intros ts; simpl; auto. Qed.

Lemma added_length ts lines : length (added ts lines) = (length ts + length lines)%nat.
Proof.
  revert ts. induction lines as [|l lines IH]; intros ts; simpl; [lia|].
  rewrite IH, length_app. simpl. lia.
Qed.

Lemma added_ids lines :
  id <$> added [] lines = seqZ 1 (Z.of_nat (length lines)).
Proof.
  induction lines as [|line lines IH] using rev_ind; [done|].
  rewrite added_snoc, fmap_app, length_app.
  change (length [line]) with 1%nat.
  rewrite Nat.add_1_r, seqZ_S, IH. f_equal.
  change (id <$> [?x]) with [id x]. f_equal.
  rewrite new_task_id_seqZ; rewrite added_length; [done|exact IH].
Qed.

Lemma added_descriptions ts lines :
  description <$> added ts lines = (description <$> ts) ++ (strip <$> lines).
Proof.
  revert ts. induction lines as [|l lines IH]; intros ts; simpl.
  - by rewrite app_nil_r.
  - rewrite IH, fmap_app, <- app_assoc. done.
Qed.

Lemma added_prefix ts lines k line :
  lines !! k = Some line →
  added ts lines !! (length ts + k)%nat
  = Some (new_task (take (length ts + k) (added ts lines)) line).
Proof.
  revert k line. induction lines as [|l lines IH] using rev_ind; intros k line Hk.
  - by rewrite lookup_nil in Hk.
  - rewrite added_snoc.
    destruct (decide (k < length lines)%nat) as [Hlt|Hge].
    + rewrite lookup_app_l in Hk by done.
      rewrite lookup_app_l by (rewrite added_length; lia).
      rewrite take_app_le by (rewrite added_length; lia). by apply IH.
    + assert (k = length lines) as ->.
      { apply lookup_lt_Some in Hk. rewrite length_app in Hk. simpl in Hk. lia. }
      rewrite list_lookup_middle in Hk by done. injection Hk as ->.
      rewrite <- (added_length ts lines).
      rewrite list_lookup_middle by done.
      by rewrite take_app_length.
Qed.

Lemma seqZ_sorted m n : StronglySorted Z.lt (seqZ m n).
Proof.
  destruct (decide (0 ≤ n)) as [Hn|Hn]; [|rewrite seqZ_nil by lia; constructor].
  rewrite <- (Z2Nat.id n Hn). generalize (Z.to_nat n) as k. clear.
  induction k as [|k IH]; [constructor|].
  rewrite seqZ_S. apply StronglySorted_app_2; [|done|repeat constructor].
  intros x y Hx%elem_of_seqZ Hy%list_elem_of_singleton. lia.
Qed.

Lemma add_tasks_spec u lines : ∀ ts w rest,
  task_list u w ts → stdin w = lines ++ rest →
  Forall (λ line, strip line ≠ "") lines →
  ∃ w', add_tasks (length lines) u w = (Ok tt, w')
        ∧ task_list u w' (added ts lines) ∧ stdin w' = rest.
Proof.
  induction lines as [|line lines IH]; intros ts w rest Hts Hin Hok; simpl.
  - by exists w.
  - apply Forall_cons in Hok as [Hline Hok].
    erewrite bind_Ok;
      [|apply (add_task_spec _ _ ts line (lines ++ rest)); auto; by apply is_empty_false].
    apply IH; [|done..]. apply task_list_put.
Qed.

Lemma added_app ts l1 l2 : added ts (l1 ++ l2) = added (added ts l1) l2.
Proof. revert ts. induction l1 as [|l l1 IH]; intros ts; simpl; auto. Qed.

Lemma added_extends ts lines : ∃ new, added ts lines = ts ++ new.
Proof.
  revert ts. induction lines as [|l lines IH]; intros ts; simpl.
  - exists []. by rewrite app_nil_r.
  - destruct (IH (ts ++ [new_task ts l])) as [new ->].
    eexists. by rewrite <- app_assoc.
Qed.

Lemma added_take ts lines k :
  added ts (take k lines) = take (length (added ts (take k lines))) (added ts lines).
Proof.
  rewrite <- (take_drop k lines) at 3. rewrite added_app.
  destruct (added_extends (added ts (take k lines)) (drop k lines)) as [new ->].
  by rewrite take_app_length.
Qed.

(** ** The loops of [mark_task_completed] and [delete_task] *)

Lemma mark_first_absent t ts :
  Forall (λ x, id x ≠ t) ts → mark_first t ts = (ts, false).
Proof.
  induction 1 as [|x ts Hx _ IH]; simpl; [done|].
  rewrite bool_decide_false by done. by rewrite IH.
Qed.

Lemma mark_first_split t pre x post :
  Forall (λ y, id y ≠ t) pre → id x = t →
  mark_first t (pre ++ x :: post)
  = (pre ++ Task (id x) (description x) "Completed" :: post, true).
Proof.
  intros Hpre Hx. induction Hpre as [|y pre Hy _ IH]; simpl.
  - by rewrite bool_decide_true.
  - rewrite bool_decide_false by done. by rewrite IH.
Qed.

Lemma first_occurrence t ts :
  Exists (λ x, id x = t) ts →
  ∃ pre x post, ts = pre ++ x :: post ∧ Forall (λ y, id y ≠ t) pre ∧ id x = t.
Proof.
  induction ts as [|y ts IH]; [by intros ?%Exists_nil|].
  intros H. destruct (decide (id y = t)) as [Hy|Hy].
  - by exists [], y, ts.
  - apply Exists_cons in H as [?|H]; [done|].
    destruct (IH H) as (pre & x & post & -> & Hpre & Hx).
    exists (y :: pre), x, post. split; [done|]. split; [by constructor|done].
Qed.

Lemma filter_absent t ts :
  Forall (λ x, id x ≠ t) ts → filter (λ x, id x ≠ t) ts = ts.
Proof.
  induction 1 as [|x ts Hx _ IH]; [done|].
  by rewrite filter_cons_True, IH.
Qed.

Lemma filter_present t ts :
  Exists (λ x, id x = t) ts → (length (filter (λ x, id x ≠ t) ts) < length ts)%nat.
Proof.
  intros (x & Hx & Hid)%Exists_exists.
  apply (length_filter_lt _ _ x); [done|]. by intros ?.
Qed.

(** * The claims *)

(** ** Persistence *)

(** C8: when nothing is persisted, loading does not fail: [load_users]
    returns the empty mapping and leaves the world as it is, and
    [load_tasks] returns the empty list for every identity, touching no
    file (it only makes sure the task directory is there). *)
Theorem load_absent_is_empty (identity : string) (w : world) :
  (path_exists USERS_FILE w = false → load_users w = (Ok ∅, w))
  ∧ (path_exists (tasks_path identity) w = false →
     load_tasks identity w = (Ok [], with_tasks_dir w)
     ∧ files (with_tasks_dir w) = files w).
Proof.
  split; intros E.
  - apply load_users_spec. by left.
  - split; [|apply with_tasks_dir_files]. apply load_tasks_spec. by left.
Qed.

Lemma load_absent_is_empty_witness :
  load_users (fresh []) = (Ok ∅, fresh [])
  ∧ load_tasks "alice" (fresh []) = (Ok [], with_tasks_dir (fresh [])).
Proof.
  destruct (load_absent_is_empty "alice" (fresh [])) as [H1 H2].
  split; [apply H1; reflexivity | apply H2; reflexivity].
Defined.


(** ** Authentication *)






(** C9: the entered username and password are stripped before lookup and
    hashing.  Whitespace added around a line does not change what it is
    stripped to; after a registration the stored hash is that of the
    stripped password, and a login succeeds whenever its two lines strip
    to what the registered lines strip to; a password line of whitespace
    only is refused at registration as empty, with nothing saved. *)
Theorem credentials_are_stripped (w : world) (users : gmap string string)
    (lu lp lu' lp' pre post blank : string) (rest : list string) :
  credentials w users →
  strip lu ≠ "" → users !! strip lu = None →
  all_space pre = true → all_space post = true → all_space blank = true →
  strip (pre +:+ lp +:+ post) = strip lp
  ∧ (strip lp ≠ "" → strip lu' = strip lu → strip lp' = strip lp →
     ∃ w1,
       register_user (set_stdin (lu :: lp :: rest) w) = (Ok true, w1)
       ∧ credentials w1 (<[strip lu := hash_password (strip lp)]> users)
       ∧ ∀ rest', ∃ w2,
           login_user (set_stdin (lu' :: lp' :: rest') w1)
           = (Ok (Some (strip lu)), w2))
  ∧ (∃ w1,
       register_user (set_stdin (lu :: blank :: rest) w) = (Ok false, w1)
       ∧ files w1 = files w ∧ saved w1 = saved w
       ∧ last (stdout w1) = Some "Password cannot be empty. Registration failed.").
Proof.
  intros Hc Hu Hfree Hpre Hpost Hblank. split_and!.
  - by apply strip_pad.
  - intros Hp Hlu' Hlp'. eexists. split_and!.
    + by apply (register_user_spec _ users lu lp rest).
    + eapply credentials_ext; [| |apply credentials_put]; reflexivity.
    + intros rest'. eexists.
      erewrite login_user_spec; [| |reflexivity].
      2:{ eapply credentials_ext; [| |apply credentials_put]; reflexivity. }
      cbv zeta. rewrite Hlu', Hlp'.
      rewrite decide_True by apply lookup_insert_eq. reflexivity.
  - eexists. split_and!.
    + apply (register_user_blank _ users lu blank rest); auto.
      by apply strip_all_space.
    + reflexivity.
    + reflexivity.
    + simpl. apply last_snoc.
Qed.

Lemma credentials_are_stripped_witness :
  (∃ w1, register_user (set_stdin [" alice "; "secret1 "] (fresh [])) = (Ok true, w1)
         ∧ ∃ w2, login_user (set_stdin ["alice"; "  secret1"] w1) = (Ok (Some "alice"), w2))
  ∧ ∃ w1, register_user (set_stdin [" alice "; "   "] (fresh [])) = (Ok false, w1).
Proof.
  destruct (credentials_are_stripped (fresh []) ∅ " alice " "secret1 " "alice" "  secret1"
              "  " " " "   " [])
    as (_ & Hok & Hblank); try reflexivity.
  - by left.
  - vm_compute. discriminate.
  - split.
    + destruct Hok as (w1 & Hreg & _ & Hlogin);
        [vm_compute; discriminate|reflexivity|reflexivity|].
      exists w1. split; [exact Hreg|].
      destruct (Hlogin []) as (w2 & H2).
      exists w2. exact H2.
    + destruct Hblank as (w1 & H1 & _). by exists w1.
Defined.

(** ** Task ids *)

(** C3: a run of successful [add_task] calls on a store with no tasks
    gives the ids 1, 2, ..., n in that order: strictly increasing,
    pairwise distinct, starting at 1.  After the first [k] calls the
    store holds the first [k] of these tasks, and the task added next has
    id 1 when [k = 0] and otherwise one more than the largest id then
    stored. *)
Theorem fresh_adds_number_from_one (u : string) (w : world)
    (lines rest : list string) :
  task_list u w [] → stdin w = lines ++ rest →
  Forall (λ line, strip line ≠ "") lines →
  ∃ w' ts,
    add_tasks (length lines) u w = (Ok tt, w')
    ∧ task_list u w' ts
    ∧ id <$> ts = seqZ 1 (Z.of_nat (length lines))
    ∧ description <$> ts = strip <$> lines
    ∧ StronglySorted Z.lt (id <$> ts)
    ∧ NoDup (id <$> ts)
    ∧ (∀ k, (k ≤ length lines)%nat →
         ∃ wk, add_tasks k u w = (Ok tt, wk) ∧ task_list u wk (take k ts))
    ∧ (∀ k t, ts !! k = Some t →
         (k = 0%nat → id t = 1)
         ∧ (∀ x, x ∈ take k ts → id x < id t)
         ∧ (k ≠ 0%nat → ∃ x, x ∈ take k ts ∧ id t = id x + 1)).
Proof.
  intros Hts Hin Hok.
  destruct (add_tasks_spec u lines [] w rest Hts Hin Hok) as (w' & Hrun & Hts' & _).
  exists w', (added [] lines). split_and!; auto.
  - apply added_ids.
  - apply (added_descriptions []).
  - rewrite added_ids. apply seqZ_sorted.
  - rewrite added_ids. apply NoDup_seqZ.
  - intros k Hk.
    destruct (add_tasks_spec u (take k lines) [] w (drop k lines ++ rest)) as (wk & Hk1 & Hk2 & _).
    + done.
    + by rewrite app_assoc, take_drop.
    + by apply Forall_take.
    + exists wk. rewrite length_take_le in Hk1 by done. split; [done|].
      rewrite added_take, added_length, length_take_le in Hk2 by done. done.
  - intros k t Hk.
    assert (k < length lines)%nat as Hlt.
    { apply lookup_lt_Some in Hk. by rewrite added_length in Hk. }
    destruct (lookup_lt_is_Some_2 lines k Hlt) as [line Hline].
    pose proof (added_prefix [] lines k line Hline) as Hp. simpl in Hp.
    rewrite Hk in Hp. injection Hp as ->.
    destruct (new_task_id_spec (take k (added [] lines)) line) as (H1 & H2 & H3).
    split_and!; [|exact H1|].
    + intros ->. by apply H2.
    + intros Hk0. apply H3. intros Hnil%(f_equal length).
      rewrite length_take_le in Hnil by (rewrite added_length; simpl; lia). done.
Qed.

Lemma fresh_adds_number_from_one_witness :
  ∃ w' ts,
    add_tasks 3 "alice" (fresh ["Buy milk"; "Pay bills"; " Call Bob "]) = (Ok tt, w')
    ∧ task_list "alice" w' ts ∧ id <$> ts = [1; 2; 3].
Proof.
  destruct (fresh_adds_number_from_one "alice"
              (fresh ["Buy milk"; "Pay bills"; " Call Bob "])
              ["Buy milk"; "Pay bills"; " Call Bob "] [])
    as (w' & ts & H1 & H2 & H3 & _).
  - left. split; reflexivity.
  - reflexivity.
  - repeat constructor; vm_compute; discriminate.
  - exists w', ts. split; [exact H1|]. split; [exact H2|exact H3].
Defined.

(** C4, as stated, fails: with tasks 1 and 2 stored, deleting task 2 and
    adding again gives the new task the id 2 once more. *)
Lemma deleted_id_reused :
  ∃ w,
    (add_tasks 2 "alice" ≫= λ _, delete_task "alice" ≫= λ _, add_task "alice")
      (fresh ["a"; "b"; "2"; "c"]) = (Ok tt, w)
    ∧ task_list "alice" w [Task 1 "a" "Pending"; Task 2 "c" "Pending"]
    ∧ stdout w
      = ["Enter task description: "; "Task 'a' (ID: 1) added successfully.";
         "Enter task description: "; "Task 'b' (ID: 2) added successfully.";
         String "010" "--- Your Tasks ---";
         "ID: 1, Description: a, Status: Pending";
         "ID: 2, Description: b, Status: Pending";
         "------------------" +:+ String "010" "";
         "Enter the ID of the task to delete: "; "Task ID 2 deleted successfully.";
         "Enter task description: "; "Task 'c' (ID: 2) added successfully."].
Proof.
  eexists. split; [vm_compute; reflexivity|].
  split; [right|]; vm_compute; reflexivity.
Qed.

(** C4, amended: [add_task] gives the new task an id larger than every
    id then stored (1 on an empty list, otherwise the largest stored id
    plus one).  So an id [t], deleted or not, is not assigned as long as
    the list holds a task with an id of [t] or more; it is assigned
    exactly when the list is empty and [t = 1] or the largest stored id is
    [t - 1]. *)
Theorem new_id_exceeds_stored (u : string) (w : world) (ts : list task)
    (line : string) (rest : list string) (t : Z) :
  task_list u w ts → stdin w = line :: rest → strip line ≠ "" →
  ∃ w' n,
    add_task u w = (Ok tt, w')
    ∧ task_list u w' (ts ++ [Task n (strip line) "Pending"])
    ∧ (∀ x, x ∈ ts → id x < n)
    ∧ ((∃ x, x ∈ ts ∧ t ≤ id x) → t < n)
    ∧ (n = t ↔ (ts = [] ∧ t = 1)
               ∨ ((∃ x, x ∈ ts ∧ id x = t - 1) ∧ ∀ x, x ∈ ts → id x ≤ t - 1)).
Proof.
  intros Hts Hin Hne.
  exists (emit ("Task '" +:+ strip line +:+ "' (ID: " +:+ py_str (id (new_task ts line))
                +:+ ") added successfully.")
            (put_file (tasks_path u) (json_of_tasks (ts ++ [new_task ts line]))
               (after_prompt "Enter task description: " [] rest w))),
         (id (new_task ts line)).
  destruct (new_task_id_spec ts line) as (Hlt & Hnil & Hmax).
  split_and!.
  - apply add_task_spec; auto. by apply is_empty_false.
  - apply (task_list_put u _ (after_prompt "Enter task description: " [] rest w)).
  - exact Hlt.
  - intros (x & Hx & Hle). specialize (Hlt x Hx). lia.
  - split.
    + intros Hn. destruct ts as [|t0 ts0]; [left; split; [done|by rewrite <- Hn, Hnil]|].
      right. destruct Hmax as (x & Hx & Hxid); [done|]. split.
      * exists x. split; [done|lia].
      * intros y Hy. specialize (Hlt y Hy). lia.
    + intros [[-> ->]|[(x & Hx & Hxid) Hall]]; [by apply Hnil|].
      destruct Hmax as (y & Hy & Hyid); [by intros ->; apply elem_of_nil in Hx|].
      specialize (Hlt x Hx). specialize (Hall y Hy). lia.
Qed.

Lemma new_id_exceeds_stored_witness :
  ∃ w' n,
    add_task "alice"
      (put_file (tasks_path "alice")
         (json_of_tasks [Task 1 "a" "Pending"; Task 3 "c" "Pending"]) (fresh ["d"]))
    = (Ok tt, w')
    ∧ 2 < n.
Proof.
  destruct (new_id_exceeds_stored "alice"
              (put_file (tasks_path "alice")
                 (json_of_tasks [Task 1 "a" "Pending"; Task 3 "c" "Pending"]) (fresh ["d"]))
              [Task 1 "a" "Pending"; Task 3 "c" "Pending"] "d" [] 2)
    as (w' & n & H1 & _ & _ & H2 & _).
  - apply task_list_put.
  - reflexivity.
  - vm_compute. discriminate.
  - exists w', n. split; [exact H1|]. apply H2.
    exists (Task 3 "c" "Pending"). split; [|simpl; lia].
    apply elem_of_cons. right. apply elem_of_cons. by left.
Defined.

(** ** Completing and deleting *)

(** C5: [delete_task] with an id that no stored task has saves nothing,
    leaves every file as it was and ends with a failure message ("No
    tasks to delete." on an empty list, without reading the id, and "Task
    with ID t not found." otherwise).  With an id that some task has it
    stores the list without the records of that id, the others in their
    former order, saves once, the list being shorter, and reports the
    deletion. *)
Theorem delete_task_removes (u : string) (w : world) (ts : list task)
    (line : string) (rest : list string) (t : Z) :
  task_list u w ts → stdin w = line :: rest → py_int line = Some t →
  ∃ w',
    delete_task u w = (Ok tt, w')
    ∧ (Forall (λ x, id x ≠ t) ts →
       files w' = files w ∧ saved w' = saved w ∧ task_list u w' ts
       ∧ last (stdout w')
         = Some (match ts with
                 | [] => "No tasks to delete."
                 | _ => "Task with ID " +:+ py_str t +:+ " not found."
                 end))
    ∧ (Exists (λ x, id x = t) ts →
       let ts' := filter (λ x, id x ≠ t) ts in
       task_list u w' ts'
       ∧ saved w' = saved w ++ [tasks_path u]
       ∧ (length ts' < length ts)%nat
       ∧ sublist ts' ts
       ∧ (∀ x, x ∈ ts' ↔ x ∈ ts ∧ id x ≠ t)
       ∧ last (stdout w')
         = Some ("Task ID " +:+ py_str t +:+ " deleted successfully.")).
Proof.
  intros Hts Hin Hint. destruct ts as [|t0 ts0].
  { eexists. split; [by apply delete_task_nil|]. split.
    - intros _. simpl. rewrite with_tasks_dir_files, with_tasks_dir_saved.
      split_and!; [done..| |apply last_snoc].
      apply (task_list_ext _ (with_tasks_dir w)); [done..|].
      by apply task_list_with_tasks_dir.
    - by intros ?%Exists_nil. }
  remember (t0 :: ts0) as ts eqn:Ets.
  assert (ts ≠ []) as Hne by by subst.
  eexists. split; [by apply (delete_task_spec _ _ ts line rest t)|]. cbv zeta. split.
  - intros Habs. rewrite (filter_absent _ _ Habs).
    rewrite bool_decide_false by lia. simpl.
    rewrite with_tasks_dir_files, with_tasks_dir_saved.
    split_and!; [done..| |].
    + apply (task_list_ext _ (with_tasks_dir w)); [done..|].
      by apply task_list_with_tasks_dir.
    + rewrite last_snoc. by subst.
  - intros Hpres. pose proof (filter_present _ _ Hpres) as Hlt.
    rewrite bool_decide_true by done. simpl.
    rewrite with_tasks_dir_saved. split_and!; [|done..| | |apply last_snoc].
    + apply (task_list_put u _ (after_prompt _ _ rest w)).
    + apply sublist_filter.
    + intros x. rewrite list_elem_of_filter. tauto.
Qed.

Lemma delete_task_removes_witness :
  ∃ w',
    delete_task "alice"
      (put_file (tasks_path "alice")
         (json_of_tasks [Task 1 "a" "Pending"; Task 2 "b" "Completed"]) (fresh [" 2 "]))
    = (Ok tt, w')
    ∧ task_list "alice" w' [Task 1 "a" "Pending"].
Proof.
  destruct (delete_task_removes "alice"
              (put_file (tasks_path "alice")
                 (json_of_tasks [Task 1 "a" "Pending"; Task 2 "b" "Completed"])
                 (fresh [" 2 "]))
              [Task 1 "a" "Pending"; Task 2 "b" "Completed"] " 2 " [] 2)
    as (w' & H1 & _ & H2).
  - apply task_list_put.
  - reflexivity.
  - reflexivity.
  - exists w'. split; [exact H1|]. apply H2.
    apply Exists_cons_tl, Exists_cons_hd. reflexivity.
Defined.

(** C6, as stated, fails on the empty list: no task has the id 7, yet the
    report does not mention 7; the id is not even read. *)
Lemma complete_on_empty_list_names_no_id :
  task_list "alice" (fresh ["7"]) []
  ∧ py_int "7" = Some 7
  ∧ ∃ w',
      mark_task_completed "alice" (fresh ["7"]) = (Ok tt, w')
      ∧ stdout w' = ["No tasks to mark as completed."]
      ∧ stdin w' = ["7"]
      ∧ forallb (λ s, negb (occurs_in (py_str 7) s)) (stdout w') = true.
Proof.
  split; [by left|]. split; [reflexivity|].
  eexists. split; [vm_compute; reflexivity|]. by split_and!.
Qed.

(** C6, amended: [mark_task_completed] with an id that no stored task has
    saves nothing and leaves every file as it was; on a non-empty list
    its report is "Task with ID t not found.", on an empty list it is "No
    tasks to mark as completed." and no id is read.  When some task has
    the id, the first such task, and no other, gets the status
    "Completed", and the list is saved. *)
Theorem complete_absent_or_first (u : string) (w : world) (ts : list task)
    (line : string) (rest : list string) (t : Z) :
  task_list u w ts → stdin w = line :: rest → py_int line = Some t →
  ∃ w',
    mark_task_completed u w = (Ok tt, w')
    ∧ (Forall (λ x, id x ≠ t) ts →
       files w' = files w ∧ saved w' = saved w ∧ task_list u w' ts
       ∧ match ts with
         | [] => stdout w' = stdout w ++ ["No tasks to mark as completed."]
                 ∧ stdin w' = stdin w
         | _ => last (stdout w')
                = Some ("Task with ID " +:+ py_str t +:+ " not found.")
         end)
    ∧ (∀ pre x post,
         ts = pre ++ x :: post → Forall (λ y, id y ≠ t) pre → id x = t →
         task_list u w' (pre ++ Task (id x) (description x) "Completed" :: post)
         ∧ saved w' = saved w ++ [tasks_path u]
         ∧ last (stdout w')
           = Some ("Task ID " +:+ py_str t +:+ " marked as Completed.")).
Proof.
  intros Hts Hin Hint. destruct ts as [|t0 ts0].
  { eexists. split; [by apply mark_task_completed_nil|]. split.
    - intros _. simpl.
      rewrite with_tasks_dir_files, with_tasks_dir_saved, with_tasks_dir_stdin,
        with_tasks_dir_stdout.
      split_and!; try done.
      apply (task_list_ext _ (with_tasks_dir w)); [done..|].
      by apply task_list_with_tasks_dir.
    - intros pre x post E. by destruct pre. }
  remember (t0 :: ts0) as ts eqn:Ets.
  assert (ts ≠ []) as Hne by by subst.
  eexists. split; [by apply (mark_task_completed_spec _ _ ts line rest t)|]. cbv zeta. split.
  - intros Habs. rewrite (mark_first_absent _ _ Habs). simpl.
    rewrite with_tasks_dir_files, with_tasks_dir_saved.
    split_and!; [done..| |].
    + apply (task_list_ext _ (with_tasks_dir w)); [done..|].
      by apply task_list_with_tasks_dir.
    + subst ts. apply last_snoc.
  - intros pre x post E Hpre Hx. rewrite E, (mark_first_split _ _ _ _ Hpre Hx). simpl.
    rewrite with_tasks_dir_saved. split_and!; [|done|apply last_snoc].
    apply (task_list_put u _ (after_prompt _ _ rest w)).
Qed.

Lemma complete_absent_or_first_witness :
  ∃ w',
    mark_task_completed "alice"
      (put_file (tasks_path "alice")
         (json_of_tasks [Task 1 "a" "Pending"; Task 2 "b" "Pending"]) (fresh ["5"]))
    = (Ok tt, w')
    ∧ saved w' = [tasks_path "alice"]
    ∧ last (stdout w') = Some "Task with ID 5 not found.".
Proof.
  destruct (complete_absent_or_first "alice"
              (put_file (tasks_path "alice")
                 (json_of_tasks [Task 1 "a" "Pending"; Task 2 "b" "Pending"])
                 (fresh ["5"]))
              [Task 1 "a" "Pending"; Task 2 "b" "Pending"] "5" [] 5)
    as (w' & H1 & H2 & _).
  - apply task_list_put.
  - reflexivity.
  - reflexivity.
  - exists w'. split; [exact H1|].
    destruct H2 as (_ & Hs & _ & Hl); [repeat constructor; simpl; lia|].
    split; [exact Hs|exact Hl].
Defined.

(** C10: completing is idempotent and does not ask for a pending task.
    When some task has the id, running [mark_task_completed] with it
    twice leaves the same stored list, and the same files, as running it
    once, and both runs report "Task ID t marked as Completed.". *)
Theorem complete_twice (u : string) (w : world) (ts : list task)
    (line1 line2 : string) (rest : list string) (t : Z) :
  task_list u w ts → Exists (λ x, id x = t) ts →
  stdin w = line1 :: line2 :: rest →
  py_int line1 = Some t → py_int line2 = Some t →
  ∃ w1 w2 ts1,
    mark_task_completed u w = (Ok tt, w1) ∧ task_list u w1 ts1
    ∧ mark_task_completed u w1 = (Ok tt, w2) ∧ task_list u w2 ts1
    ∧ files w2 = files w1
    ∧ last (stdout w1) = Some ("Task ID " +:+ py_str t +:+ " marked as Completed.")
    ∧ last (stdout w2) = Some ("Task ID " +:+ py_str t +:+ " marked as Completed.").
Proof.
  intros Hts Hex Hin Hint1 Hint2.
  destruct (first_occurrence _ _ Hex) as (pre & x & post & -> & Hpre & Hx).
  set (x' := Task (id x) (description x) "Completed").
  assert (id x' = t) as Hx' by done.
  pose proof (mark_first_split t pre x post Hpre Hx) as Hm1.
  pose proof (mark_first_split t pre x' post Hpre Hx') as Hm2.
  change (Task (id x') (description x') "Completed") with x' in Hm2.
  fold x' in Hm1.
  set (msg := "Task ID " +:+ py_str t +:+ " marked as Completed.").
  set (prompt := "Enter the ID of the task to mark as completed: ").
  set (w1 := emit msg
               (put_file (tasks_path u) (json_of_tasks (pre ++ x' :: post))
                  (after_prompt prompt (listing (pre ++ x :: post)) (line2 :: rest) w))).
  set (w2 := emit msg
               (put_file (tasks_path u) (json_of_tasks (pre ++ x' :: post))
                  (after_prompt prompt (listing (pre ++ x' :: post)) rest w1))).
  assert (task_list u w1 (pre ++ x' :: post)) as Hts1
    by apply (task_list_put u _ (after_prompt _ _ _ w)).
  exists w1, w2, (pre ++ x' :: post). split_and!.
  - rewrite (mark_task_completed_spec _ _ (pre ++ x :: post) line1 (line2 :: rest) t);
      [|by destruct pre|done..].
    cbv zeta. by rewrite Hm1.
  - exact Hts1.
  - rewrite (mark_task_completed_spec _ _ (pre ++ x' :: post) line2 rest t);
      [|by destruct pre|done..].
    cbv zeta. by rewrite Hm2.
  - apply (task_list_put u _ (after_prompt _ _ _ w1)).
  - simpl. rewrite with_tasks_dir_files. simpl. apply insert_insert_eq.
  - apply last_snoc.
  - apply last_snoc.
Qed.

Lemma complete_twice_witness :
  ∃ w1 w2,
    mark_task_completed "alice"
      (put_file (tasks_path "alice")
         (json_of_tasks [Task 1 "a" "Pending"; Task 2 "b" "Pending"]) (fresh ["2"; "2"]))
    = (Ok tt, w1)
    ∧ mark_task_completed "alice" w1 = (Ok tt, w2)
    ∧ files w2 = files w1.
Proof.
  destruct (complete_twice "alice"
              (put_file (tasks_path "alice")
                 (json_of_tasks [Task 1 "a" "Pending"; Task 2 "b" "Pending"])
                 (fresh ["2"; "2"]))
              [Task 1 "a" "Pending"; Task 2 "b" "Pending"] "2" "2" [] 2)
    as (w1 & w2 & ts1 & H1 & _ & H2 & _ & H3 & _).
  - apply task_list_put.
  - apply Exists_cons_tl, Exists_cons_hd. reflexivity.
  - reflexivity.
  - reflexivity.
  - reflexivity.
  - exists w1, w2. split; [exact H1|]. split; [exact H2|exact H3].
Defined.

(** * Further properties *)

(** ** What a run may change *)

Lemma changes_refl allowed w : changes allowed w w.
Proof.
  unfold changes. split_and!; try done.
  - set_solver.
  - exists []. by rewrite app_nil_r.
Qed.

Lemma changes_trans allowed w1 w2 w3 :
  changes allowed w1 w2 → changes allowed w2 w3 → changes allowed w1 w3.
Proof.
  intros (Hi1 & Ho1 & Hf1 & Hd1 & He1 & l1 & Hs1 & Hl1)
         (Hi2 & Ho2 & Hf2 & Hd2 & He2 & l2 & Hs2 & Hl2).
  unfold changes. split_and!.
  - by etrans.
  - by etrans.
  - intros p Hp. by rewrite Hf2, Hf1.
  - set_solver.
  - set_solver.
  - exists (l1 ++ l2). split; [by rewrite Hs2, Hs1, app_assoc|by apply Forall_app].
Qed.

Lemma changes_mono (allowed allowed' : string → Prop) w w' :
  (∀ p, allowed p → allowed' p) → changes allowed w w' → changes allowed' w w'.
Proof.
  intros Hsub (Hi & Ho & Hf & Hd & He & l & Hs & Hl).
  unfold changes. split_and!; try done.
  - intros p Hp. apply Hf. intros ?. apply Hp. auto.
  - exists l. split; [done|]. eapply Forall_impl; eauto.
Qed.

Lemma changes_emit allowed s w : changes allowed w (emit s w).
Proof.
  unfold changes; simpl. split_and!; try done.
  - by apply prefix_app_r.
  - set_solver.
  - exists []. by rewrite app_nil_r.
Qed.

Lemma changes_path allowed w w' p :
  changes allowed w w' → ¬ allowed p → p ≠ TASKS_DIR →
  files w' !! p = files w !! p ∧ path_exists p w' = path_exists p w.
Proof.
  intros (_ & _ & Hf & Hd & He & _) Hp Hne.
  split; [by apply Hf|]. unfold path_exists. rewrite (Hf p Hp). f_equal.
  apply bool_decide_ext. split; intros H; [|by apply Hd].
  apply He in H. apply elem_of_union in H as [H%elem_of_singleton|H]; done.
Qed.

Lemma changes_credentials allowed w w' users :
  changes allowed w w' → ¬ allowed USERS_FILE →
  credentials w users → credentials w' users.
Proof.
  intros Hc Hp. destruct (changes_path _ _ _ USERS_FILE Hc Hp) as [Hf He]; [done|].
  unfold credentials. by rewrite Hf, He.
Qed.

Lemma changes_task_list allowed w w' u ts :
  changes allowed w w' → ¬ allowed (tasks_path u) →
  task_list u w ts → task_list u w' ts.
Proof.
  intros Hc Hp.
  destruct (changes_path _ _ _ (tasks_path u) Hc Hp) as [Hf He];
    [apply tasks_path_not_dir|].
  unfold task_list. by rewrite Hf, He.
Qed.

Lemma keeps_mono {A} (allowed allowed' : string → Prop) (m : M A) :
  (∀ p, allowed p → allowed' p) → keeps allowed m → keeps allowed' m.
Proof. intros Hsub Hm w r w' E. eapply changes_mono; eauto. Qed.

Lemma keeps_ret {A} allowed (a : A) : keeps allowed (mret a).
Proof. intros w r w' [= <- <-]. apply changes_refl. Qed.

Lemma keeps_raise {A} allowed e : keeps allowed (@raise A e).
Proof. intros w r w' [= <- <-]. apply changes_refl. Qed.

Lemma keeps_bind {A B} allowed (m : M A) (f : A → M B) :
  keeps allowed m → (∀ a, keeps allowed (f a)) → keeps allowed (m ≫= f).
Proof.
  intros Hm Hf w r w'' E. unfold mbind, M_bind in E.
  destruct (m w) as [[a|e] w'] eqn:Em.
  - eapply changes_trans; [by eapply Hm|by eapply Hf].
  - injection E as <- <-. by eapply Hm.
Qed.

Lemma keeps_print allowed s : keeps allowed (print s).
Proof. intros w r w' [= <- <-]. apply changes_emit. Qed.

Lemma keeps_input allowed prompt : keeps allowed (input prompt).
Proof.
  intros w r w' E. unfold input in E.
  destruct (stdin w) as [|line rest] eqn:Hin; injection E as <- <-.
  - apply changes_emit.
  - eapply changes_trans; [apply (changes_emit _ prompt)|].
    unfold changes; simpl. split_and!; try done.
    + rewrite Hin. by apply suffix_cons_r.
    + set_solver.
    + exists []. by rewrite app_nil_r.
Qed.

Lemma keeps_exists allowed p : keeps allowed (os_path_exists p).
Proof. intros w r w' [= <- <-]. apply changes_refl. Qed.

Lemma keeps_makedirs allowed : keeps allowed (os_makedirs TASKS_DIR).
Proof.
  intros w r w' E. unfold os_makedirs in E.
  destruct (path_exists TASKS_DIR w); injection E as <- <-; [apply changes_refl|].
  unfold changes; simpl. split_and!; try done.
  - set_solver.
  - exists []. by rewrite app_nil_r.
Qed.

Lemma keeps_read allowed p : keeps allowed (read_json p).
Proof.
  intros w r w' E. unfold read_json in E.
  destruct (files w !! p); injection E as <- <-; apply changes_refl.
Qed.

Lemma keeps_expect {A} allowed (o : option A) : keeps allowed (expect o).
Proof. destruct o; [apply keeps_ret|apply keeps_raise]. Qed.

Lemma keeps_write (allowed : string → Prop) p doc :
  allowed p → keeps allowed (write_json p doc).
Proof.
  intros Hp w r w' [= <- <-]. unfold changes; simpl. split_and!; try done.
  - intros q Hq. apply lookup_insert_ne. by intros ->.
  - set_solver.
  - exists [p]. split; [done|by constructor].
Qed.

Lemma keeps_mapM_print {A} allowed (f : A → string) (l : list A) :
  keeps allowed (mapM (λ x, print (f x)) l).
Proof.
  induction l as [|x l IH]; simpl; [apply keeps_ret|].
  apply keeps_bind; [apply keeps_print|]. intros ?.
  apply keeps_bind; [done|]. intros ?. apply keeps_ret.
Qed.

Ltac keeps_go :=
  repeat first
    [ apply keeps_ret | apply keeps_raise | apply keeps_print | apply keeps_input
    | apply keeps_exists | apply keeps_makedirs | apply keeps_read
    | apply keeps_expect | apply keeps_mapM_print
    | apply keeps_write; done
    | apply keeps_bind; [|intros ?]
    | match goal with
      | |- keeps _ (if ?b then _ else _) => destruct b
      | |- keeps _ (match ?x with _ => _ end) => destruct x
      end ].

Lemma keeps_load_users allowed : keeps allowed load_users.
Proof. unfold load_users. keeps_go. Qed.

Lemma keeps_save_users (allowed : string → Prop) users :
  allowed USERS_FILE → keeps allowed (save_users users).
Proof. intros. unfold save_users. keeps_go. Qed.

Lemma keeps_get_user_tasks_file allowed u : keeps allowed (get_user_tasks_file u).
Proof. unfold get_user_tasks_file. keeps_go. Qed.

Lemma keeps_load_tasks allowed u : keeps allowed (load_tasks u).
Proof.
  unfold load_tasks. apply keeps_bind; [apply keeps_get_user_tasks_file|].
  intros ?. keeps_go.
Qed.

Lemma keeps_save_tasks (allowed : string → Prop) u ts :
  allowed (tasks_path u) → keeps allowed (save_tasks u ts).
Proof.
  intros H w r w' E. rewrite save_tasks_spec in E. injection E as <- <-.
  eapply changes_trans.
  - by eapply (keeps_get_user_tasks_file allowed u), get_user_tasks_file_spec.
  - by eapply (keeps_write allowed (tasks_path u)).
Qed.

Lemma keeps_view_tasks allowed u : keeps allowed (view_tasks u).
Proof.
  unfold view_tasks. apply keeps_bind; [apply keeps_load_tasks|].
  intros ?. keeps_go.
Qed.

Lemma keeps_add_task u : keeps (λ p, p = tasks_path u) (add_task u).
Proof.
  unfold add_task. apply keeps_bind; [apply keeps_load_tasks|]. intros ts.
  apply keeps_bind; [apply keeps_input|]. intros line.
  destruct (is_empty (strip line)); [apply keeps_print|].
  apply keeps_bind; [by apply keeps_save_tasks|]. intros ?. apply keeps_print.
Qed.

Lemma keeps_mark_task_completed u :
  keeps (λ p, p = tasks_path u) (mark_task_completed u).
Proof.
  unfold mark_task_completed. apply keeps_bind; [apply keeps_load_tasks|].
  intros [|t ts]; [apply keeps_print|].
  apply keeps_bind; [apply keeps_view_tasks|]. intros ?.
  apply keeps_bind; [apply keeps_input|]. intros line.
  destruct (py_int line) as [task_id|]; [|apply keeps_print].
  destruct (mark_first task_id (t :: ts)) as [ts' [|]]; [|apply keeps_print].
  apply keeps_bind; [by apply keeps_save_tasks|]. intros ?. apply keeps_print.
Qed.

Lemma keeps_delete_task u : keeps (λ p, p = tasks_path u) (delete_task u).
Proof.
  unfold delete_task. apply keeps_bind; [apply keeps_load_tasks|].
  intros [|t ts]; [apply keeps_print|].
  apply keeps_bind; [apply keeps_view_tasks|]. intros ?.
  apply keeps_bind; [apply keeps_input|]. intros line.
  destruct (py_int line) as [task_id|]; [|apply keeps_print].
  cbv zeta. case_bool_decide; [|apply keeps_print].
  apply keeps_bind; [by apply keeps_save_tasks|]. intros ?. apply keeps_print.
Qed.

Lemma keeps_run_command c u : keeps (λ p, p = tasks_path u) (run_command c u).
Proof.
  destruct c; simpl;
    auto using keeps_add_task, keeps_view_tasks, keeps_mark_task_completed,
      keeps_delete_task.
Qed.

Lemma changes_register_user_loop allowed users lines : ∀ w r w',
  stdin w = lines → register_user_loop users lines w = (r, w') →
  changes allowed w w'.
Proof.
  induction lines as [|line rest IH]; intros w r w' Hin; simpl.
  - intros [= <- <-]. apply changes_emit.
  - set (w1 := set_stdin rest (emit "Enter new username: " w)).
    assert (changes allowed w w1) as H1.
    { by apply (keeps_input allowed "Enter new username: " w (Ok line)), input_line. }
    destruct (is_empty (strip line)).
    { intros E. apply IH in E; [|done].
      eapply changes_trans; [exact H1|].
      eapply changes_trans; [apply changes_emit|exact E]. }
    case_bool_decide.
    { intros E. apply IH in E; [|done].
      eapply changes_trans; [exact H1|].
      eapply changes_trans; [apply changes_emit|exact E]. }
    by intros [= <- <-].
Qed.

Lemma keeps_register_user : keeps (λ p, p = USERS_FILE) register_user.
Proof.
  unfold register_user. apply keeps_bind; [apply keeps_load_users|]. intros users.
  apply keeps_bind.
  { intros w r w' E. by eapply changes_register_user_loop. }
  intros username. apply keeps_bind; [apply keeps_input|]. intros line.
  destruct (is_empty (strip line)).
  - apply keeps_bind; [apply keeps_print|]. intros ?. apply keeps_ret.
  - apply keeps_bind; [by apply keeps_save_users|]. intros ?.
    apply keeps_bind; [apply keeps_print|]. intros ?. apply keeps_ret.
Qed.

Lemma keeps_login_user allowed : keeps allowed login_user.
Proof.
  unfold login_user. apply keeps_bind; [apply keeps_load_users|]. intros users.
  apply keeps_bind; [apply keeps_input|]. intros line1.
  apply keeps_bind; [apply keeps_input|]. intros line2.
  destruct (_ && _);
    (apply keeps_bind; [apply keeps_print|]; intros ?; apply keeps_ret).
Qed.

(** ** The task operations on every input *)

Lemma input_eof prompt w :
  stdin w = [] → input prompt w = (Raise EOFError, emit prompt w).
Proof. unfold input. by intros ->. Qed.

Lemma add_task_total u w ts :
  task_list u w ts →
  add_task u w
  = match stdin w with
    | [] => (Raise EOFError, emit "Enter task description: " (with_tasks_dir w))
    | line :: rest =>
        let w1 := after_prompt "Enter task description: " [] rest w in
        if is_empty (strip line)
        then (Ok tt, emit "Task description cannot be empty." w1)
        else (Ok tt,
              emit ("Task '" +:+ strip line +:+ "' (ID: "
                    +:+ py_str (id (new_task ts line)) +:+ ") added successfully.")
                (put_file (tasks_path u) (json_of_tasks (ts ++ [new_task ts line])) w1))
    end.
Proof.
  intros Hts. destruct (stdin w) as [|line rest] eqn:Hin.
  - unfold add_task. rewrite (bind_Ok _ _ _ _ _ (load_tasks_spec _ _ _ Hts)).
    erewrite bind_Raise; [done|]. apply input_eof. by rewrite with_tasks_dir_stdin.
  - cbv zeta. destruct (is_empty (strip line)) eqn:E.
    + by apply (add_task_empty _ _ ts line rest).
    + by apply (add_task_spec _ _ ts line rest).
Qed.

Lemma mark_task_completed_total u w ts :
  task_list u w ts →
  mark_task_completed u w
  = match ts with
    | [] => (Ok tt, emit "No tasks to mark as completed." (with_tasks_dir w))
    | _ =>
        match stdin w with
        | [] =>
            (Raise EOFError,
             emit "Enter the ID of the task to mark as completed: "
               (emits (listing ts) (with_tasks_dir w)))
        | line :: rest =>
            let w1 := after_prompt "Enter the ID of the task to mark as completed: "
                        (listing ts) rest w in
            match py_int line with
            | None => (Ok tt, emit "Invalid input. Please enter a number." w1)
            | Some task_id =>
                if (mark_first task_id ts).2
                then (Ok tt,
                      emit ("Task ID " +:+ py_str task_id +:+ " marked as Completed.")
                        (put_file (tasks_path u)
                           (json_of_tasks (mark_first task_id ts).1) w1))
                else (Ok tt,
                      emit ("Task with ID " +:+ py_str task_id +:+ " not found.") w1)
            end
        end
    end.
Proof.
  intros Hts. destruct ts as [|t0 ts0]; [by apply mark_task_completed_nil|].
  destruct (stdin w) as [|line rest] eqn:Hin.
  - unfold mark_task_completed.
    rewrite (bind_Ok _ _ _ _ _ (load_tasks_spec _ _ _ Hts)). cbv beta iota.
    erewrite bind_Ok; [|apply view_tasks_spec, task_list_with_tasks_dir, Hts].
    rewrite with_tasks_dir_idem.
    erewrite bind_Raise; [done|]. apply input_eof.
    change (stdin (emits ?l ?x)) with (stdin x). by rewrite with_tasks_dir_stdin.
  - cbv zeta. destruct (py_int line) as [task_id|] eqn:Hint.
    + rewrite (mark_task_completed_spec _ _ (t0 :: ts0) line rest task_id) by done.
      cbv zeta. by destruct ((mark_first task_id (t0 :: ts0)).2).
    + unfold mark_task_completed.
      rewrite (bind_Ok _ _ _ _ _ (load_tasks_spec _ _ _ Hts)). cbv beta iota.
      erewrite bind_Ok; [|apply view_tasks_spec, task_list_with_tasks_dir, Hts].
      rewrite with_tasks_dir_idem.
      erewrite bind_Ok;
        [|apply input_line; change (stdin (emits ?l ?x)) with (stdin x);
          by rewrite with_tasks_dir_stdin].
      by rewrite Hint.
Qed.

Lemma delete_task_total u w ts :
  task_list u w ts →
  delete_task u w
  = match ts with
    | [] => (Ok tt, emit "No tasks to delete." (with_tasks_dir w))
    | _ =>
        match stdin w with
        | [] =>
            (Raise EOFError,
             emit "Enter the ID of the task to delete: "
               (emits (listing ts) (with_tasks_dir w)))
        | line :: rest =>
            let w1 := after_prompt "Enter the ID of the task to delete: "
                        (listing ts) rest w in
            match py_int line with
            | None => (Ok tt, emit "Invalid input. Please enter a number." w1)
            | Some task_id =>
                let ts' := filter (λ t, id t ≠ task_id) ts in
                if bool_decide (length ts' < length ts)%nat
                then (Ok tt,
                      emit ("Task ID " +:+ py_str task_id +:+ " deleted successfully.")
                        (put_file (tasks_path u) (json_of_tasks ts') w1))
                else (Ok tt,
                      emit ("Task with ID " +:+ py_str task_id +:+ " not found.") w1)
            end
        end
    end.
Proof.
  intros Hts. destruct ts as [|t0 ts0]; [by apply delete_task_nil|].
  destruct (stdin w) as [|line rest] eqn:Hin.
  - unfold delete_task.
    rewrite (bind_Ok _ _ _ _ _ (load_tasks_spec _ _ _ Hts)). cbv beta iota.
    erewrite bind_Ok; [|apply view_tasks_spec, task_list_with_tasks_dir, Hts].
    rewrite with_tasks_dir_idem.
    erewrite bind_Raise; [done|]. apply input_eof.
    change (stdin (emits ?l ?x)) with (stdin x). by rewrite with_tasks_dir_stdin.
  - cbv zeta. destruct (py_int line) as [task_id|] eqn:Hint.
    + rewrite (delete_task_spec _ _ (t0 :: ts0) line rest task_id) by done.
      cbv zeta. by destruct (bool_decide _).
    + unfold delete_task.
      rewrite (bind_Ok _ _ _ _ _ (load_tasks_spec _ _ _ Hts)). cbv beta iota.
      erewrite bind_Ok; [|apply view_tasks_spec, task_list_with_tasks_dir, Hts].
      rewrite with_tasks_dir_idem.
      erewrite bind_Ok;
        [|apply input_line; change (stdin (emits ?l ?x)) with (stdin x);
          by rewrite with_tasks_dir_stdin].
      by rewrite Hint.
Qed.

(** ** Paths *)

Lemma string_length_app s t :
  String.length (s +:+ t) = (String.length s + String.length t)%nat.
Proof. induction s as [|c s IH]; simpl; [done|]. by rewrite IH. Qed.

Lemma string_app_inv_r s1 s2 t : s1 +:+ t = s2 +:+ t → s1 = s2.
Proof.
  revert s2. induction s1 as [|c s1 IH]; intros [|c' s2] E; simpl in E.
  - done.
  - apply (f_equal String.length) in E.
    rewrite ?string_length_app in E. simpl in E.
    rewrite ?string_length_app in E. lia.
  - apply (f_equal String.length) in E.
    rewrite ?string_length_app in E. simpl in E.
    rewrite ?string_length_app in E. lia.
  - injection E as -> E. f_equal. by apply IH.
Qed.

Lemma starts_with_slash_inv s : starts_with_slash s = true → ∃ r, s = String "/" r.
Proof.
  destruct s as [|c r]; simpl; [done|].
  destruct c as [[] [] [] [] [] [] [] []]; try done. eauto.
Qed.

Lemma tasks_path_cases u :
  (starts_with_slash (u +:+ "_tasks.json") = true
   ∧ tasks_path u = u +:+ "_tasks.json")
  ∨ (starts_with_slash (u +:+ "_tasks.json") = false
     ∧ tasks_path u = "tasks/" +:+ u +:+ "_tasks.json").
Proof.
  unfold tasks_path, os_path_join.
  destruct (starts_with_slash _); [left|right]; done.
Qed.

Lemma tasks_path_inj u u' : tasks_path u = tasks_path u' → u = u'.
Proof.
  intros E.
  destruct (tasks_path_cases u) as [[S1 E1]|[S1 E1]],
           (tasks_path_cases u') as [[S2 E2]|[S2 E2]];
    rewrite E1, E2 in E.
  - by apply string_app_inv_r in E.
  - apply starts_with_slash_inv in S1 as [r Hr]. rewrite Hr in E. done.
  - apply starts_with_slash_inv in S2 as [r Hr]. rewrite Hr in E. done.
  - simpl in E. injection E as E.
    change ("" +:+ ?x) with x in E. by apply string_app_inv_r in E.
Qed.

Lemma tasks_path_not_users u : tasks_path u ≠ USERS_FILE.
Proof.
  destruct (tasks_path_cases u) as [[S1 E1]|[S1 E1]]; rewrite E1.
  - apply starts_with_slash_inv in S1 as [r ->]. done.
  - done.
Qed.

(** X1: the task files of two different users are different files, and
    no user's task file is the credential file or the task directory. *)
Theorem task_files_are_separate (u u' : string) :
  (u ≠ u' → tasks_path u ≠ tasks_path u')
  ∧ tasks_path u ≠ USERS_FILE
  ∧ tasks_path u ≠ TASKS_DIR.
Proof.
  split_and!.
  - intros Hne E. by apply Hne, tasks_path_inj.
  - apply tasks_path_not_users.
  - apply tasks_path_not_dir.
Qed.

Lemma task_files_are_separate_witness :
  tasks_path "alice" ≠ tasks_path "bob" ∧ tasks_path "/alice" ≠ tasks_path "alice".
Proof.
  split.
  - apply (task_files_are_separate "alice" "bob"). discriminate.
  - apply (task_files_are_separate "/alice" "alice"). discriminate.
Defined.

(** X2: [get_user_tasks_file] never fails: it returns the user's path,
    leaves the task directory in place, creating it when it was missing,
    touches no file, and a second call changes nothing. *)
Theorem get_user_tasks_file_ensures_dir (u : string) (w : world) :
  ∃ w',
    get_user_tasks_file u w = (Ok (tasks_path u), w')
    ∧ path_exists TASKS_DIR w' = true
    ∧ files w' = files w ∧ saved w' = saved w
    ∧ stdin w' = stdin w ∧ stdout w' = stdout w
    ∧ (path_exists TASKS_DIR w = true → w' = w)
    ∧ (path_exists TASKS_DIR w = false → dirs w' = {[TASKS_DIR]} ∪ dirs w)
    ∧ ∀ u', get_user_tasks_file u' w' = (Ok (tasks_path u'), w').
Proof.
  exists (with_tasks_dir w). split_and!.
  - apply get_user_tasks_file_spec.
  - apply with_tasks_dir_exists.
  - apply with_tasks_dir_files.
  - apply with_tasks_dir_saved.
  - apply with_tasks_dir_stdin.
  - apply with_tasks_dir_stdout.
  - apply with_tasks_dir_id.
  - intros E. unfold with_tasks_dir. by rewrite E.
  - intros u'. by rewrite get_user_tasks_file_spec, with_tasks_dir_idem.
Qed.

Lemma get_user_tasks_file_ensures_dir_witness :
  ∃ w', get_user_tasks_file "alice" (fresh []) = (Ok "tasks/alice_tasks.json", w')
        ∧ dirs w' = {[TASKS_DIR]} ∪ ∅.
Proof.
  destruct (get_user_tasks_file_ensures_dir "alice" (fresh []))
    as (w' & H1 & _ & _ & _ & _ & _ & _ & H2 & _).
  exists w'. split; [exact H1|]. apply H2. reflexivity.
Defined.

(** ** Authentication on every input *)

Lemma changes_nothing_written w w' :
  changes (λ _, False) w w' → files w' = files w ∧ saved w' = saved w.
Proof.
  intros (_ & _ & Hf & _ & _ & l & Hs & Hl). split.
  - apply map_eq. intros p. apply Hf. tauto.
  - destruct l as [|p l]; [by rewrite app_nil_r in Hs|].
    apply Forall_cons in Hl as [[] _].
Qed.



Lemma register_user_loop_rejected users rejected : ∀ lu rest w,
  Forall (λ line, strip line = "" ∨ is_Some (users !! strip line)) rejected →
  strip lu ≠ "" → users !! strip lu = None →
  register_user_loop users (rejected ++ lu :: rest) w
  = (Ok (strip lu),
     set_stdin rest (emits (rejections rejected ++ ["Enter new username: "]) w)).
Proof.
  induction rejected as [|line rejected IH]; intros lu rest w Hrej Hu Hfree.
  - change ([] ++ lu :: rest) with (lu :: rest).
    by rewrite register_user_loop_accept.
  - apply Forall_cons in Hrej as [Hline Hrej].
    change ((line :: rejected) ++ lu :: rest) with (line :: (rejected ++ lu :: rest)).
    assert (register_user_loop users (line :: (rejected ++ lu :: rest)) w
            = register_user_loop users (rejected ++ lu :: rest)
                (emit (if is_empty (strip line) then "Username cannot be empty."
                       else "Username already exists. Please choose a different one.")
                   (set_stdin (rejected ++ lu :: rest) (emit "Enter new username: " w))))
      as ->.
    { destruct Hline as [He|Hs]; [|by apply register_user_loop_taken].
      simpl. by rewrite He. }
    rewrite IH by done. f_equal.
    apply world_eq; simpl; try done.
    unfold rejections. simpl. by rewrite <- !app_assoc.
Qed.

(** X4: [register_user] asks for a username again after every line that
    is blank or names an existing account, printing one message per such
    line, and registers with the first acceptable line; the lines turned
    down cause no write. *)
Theorem register_user_retries (w : world) (users : gmap string string)
    (rejected : list string) (lu lp : string) (rest : list string) :
  credentials w users →
  Forall (λ line, strip line = "" ∨ is_Some (users !! strip line)) rejected →
  strip lu ≠ "" → users !! strip lu = None → strip lp ≠ "" →
  ∃ w',
    register_user (set_stdin (rejected ++ lu :: lp :: rest) w) = (Ok true, w')
    ∧ credentials w' (<[strip lu := hash_password (strip lp)]> users)
    ∧ saved w' = saved w ++ [USERS_FILE]
    ∧ stdin w' = rest
    ∧ stdout w'
      = stdout w ++ rejections rejected
        ++ ["Enter new username: "; "Enter password: "; "Registration successful!"]
    ∧ length (rejections rejected) = (2 * length rejected)%nat.
Proof.
  intros Hc Hrej Hu Hfree Hp. eexists. split_and!.
  - unfold register_user.
    erewrite bind_Ok; [|apply load_users_spec; exact Hc].
    erewrite bind_Ok; [|by apply register_user_loop_rejected].
    erewrite bind_Ok; [|by apply input_line].
    apply is_empty_false in Hp. rewrite Hp.
    erewrite bind_Ok; [|apply save_users_spec]. reflexivity.
  - eapply credentials_ext; [| |apply credentials_put]; reflexivity.
  - reflexivity.
  - reflexivity.
  - simpl. by rewrite <- !app_assoc.
  - clear. unfold rejections. induction rejected as [|l rejected IH]; [done|].
    rewrite bind_cons, length_app, IH. simpl. lia.
Qed.

Lemma register_user_retries_witness :
  ∃ w',
    register_user
      (set_stdin ["  "; "alice"; "bob"; "hunter2"]
         (put_file USERS_FILE (json_of_users {[ "alice" := "x" ]}) (fresh [])))
    = (Ok true, w')
    ∧ stdin w' = [].
Proof.
  destruct (register_user_retries
              (put_file USERS_FILE (json_of_users {[ "alice" := "x" ]}) (fresh []))
              {[ "alice" := "x" ]} ["  "; "alice"] "bob" "hunter2" [])
    as (w' & H1 & _ & _ & H2 & _).
  - apply credentials_put.
  - apply Forall_cons_2; [left; reflexivity|].
    apply Forall_cons_2; [right; exists "x"; reflexivity|]. apply Forall_nil_2.
  - vm_compute. discriminate.
  - reflexivity.
  - vm_compute. discriminate.
  - exists w'. split; [exact H1|exact H2].
Defined.

(** X5: whatever it is given, [register_user] keeps every account that
    was there with its hash, leaves every task list as it was, and
    writes the credential file only.  It returns [True] exactly after
    adding one account, with a non-empty username that was free, in a
    single write; in every other case it writes nothing. *)
Theorem register_user_safe (w : world) (users : gmap string string)
    (r : res bool) (w' : world) :
  credentials w users → register_user w = (r, w') →
  ∃ users',
    credentials w' users' ∧ users ⊆ users'
    ∧ (∀ u ts, task_list u w ts → task_list u w' ts)
    ∧ (r = Ok true →
       ∃ u h, u ≠ "" ∧ users !! u = None ∧ users' = <[u := h]> users
              ∧ saved w' = saved w ++ [USERS_FILE])
    ∧ (r ≠ Ok true → users' = users ∧ saved w' = saved w ∧ files w' = files w).
Proof.
  intros Hc E.
  assert (∀ u ts, task_list u w ts → task_list u w' ts) as Htasks.
  { intros u ts. eapply changes_task_list; [by eapply keeps_register_user|].
    apply tasks_path_not_users. }
  unfold register_user in E.
  rewrite (bind_Ok _ _ _ _ _ (load_users_spec _ _ Hc)) in E.
  destruct (register_user_loop users (stdin w) w) as [[u|e] w1] eqn:Hloop.
  2:{ erewrite bind_Raise in E by exact Hloop. injection E as <- <-.
      apply register_user_loop_inv in Hloop as (Hf & Hd & Hs & _).
      exists users. split_and!; [by apply (credentials_ext w)|done..|].
      by intros _. }
  erewrite bind_Ok in E by exact Hloop.
  apply register_user_loop_inv in Hloop as (Hf & Hd & Hs & Hu).
  destruct (Hu u eq_refl) as [Hne Hfree].
  assert (credentials w1 users) as Hc1 by by apply (credentials_ext w).
  destruct (stdin w1) as [|line rest] eqn:Hin.
  { erewrite bind_Raise in E; [|unfold input; by rewrite Hin].
    injection E as <- <-.
    exists users. split_and!; [by apply (credentials_ext w1)|done..|].
    by intros _. }
  erewrite bind_Ok in E by by apply input_line.
  destruct (is_empty (strip line)).
  - injection E as <- <-.
    exists users. split_and!; [by apply (credentials_ext w1)|done..|].
    by intros _.
  - erewrite bind_Ok in E by apply save_users_spec.
    injection E as <- <-. eexists. split_and!.
    + eapply credentials_ext; [| |apply credentials_put]; reflexivity.
    + by apply insert_subseteq.
    + done.
    + intros _. eexists _, _. split_and!; [done..|]. simpl. by rewrite Hs.
    + done.
Qed.

Lemma register_user_safe_witness :
  ∃ r w' users',
    register_user (fresh ["alice"]) = (r, w') ∧ credentials w' users' ∧ ∅ ⊆ users'.
Proof.
  destruct (register_user (fresh ["alice"])) as [r w'] eqn:E.
  destruct (register_user_safe (fresh ["alice"]) ∅ r w') as (users' & H1 & H2 & _).
  - by left.
  - exact E.
  - by exists r, w', users'.
Defined.

(** ** The task commands on every input *)

Lemma task_list_after u w w' ts :
  files w' = files (with_tasks_dir w) → dirs w' = dirs (with_tasks_dir w) →
  task_list u w ts → task_list u w' ts.
Proof.
  intros Hf Hd Hts. apply (task_list_ext _ (with_tasks_dir w)); [done..|].
  by apply task_list_with_tasks_dir.
Qed.

Lemma mark_first_found t ts :
  (mark_first t ts).2 = false → (mark_first t ts).1 = ts.
Proof.
  induction ts as [|x ts IH]; simpl; [done|].
  case_bool_decide; [done|].
  destruct (mark_first t ts) as [ts' found]; simpl in *.
  intros ->. by rewrite IH.
Qed.

Lemma command_step c u w ts r w' :
  task_list u w ts → run_command c u w = (r, w') →
  ∃ ts',
    task_list u w' ts'
    ∧ ((ts' = ts ∧ saved w' = saved w ∧ files w' = files w)
       ∨ (task_step c ts ts' ∧ saved w' = saved w ++ [tasks_path u] ∧ r = Ok tt))
    ∧ (r = Ok tt ∨ (r = Raise EOFError ∧ stdin w = [])).
Proof.
  intros Hts E. destruct c; simpl in E.
  - rewrite (add_task_total _ _ ts Hts) in E.
    destruct (stdin w) as [|line rest] eqn:Hin.
    { injection E as <- <-. exists ts. split_and!.
      - by apply (task_list_after _ w).
      - left. simpl. by rewrite with_tasks_dir_saved, with_tasks_dir_files.
      - by right. }
    cbv zeta in E. destruct (is_empty (strip line)) eqn:He; injection E as <- <-.
    + exists ts. split_and!.
      * by apply (task_list_after _ w).
      * left. simpl. by rewrite with_tasks_dir_saved, with_tasks_dir_files.
      * by left.
    + exists (ts ++ [new_task ts line]). split_and!.
      * apply (task_list_put u _ (after_prompt _ _ rest w)).
      * right. split_and!; [|simpl; by rewrite with_tasks_dir_saved|done].
        constructor. by apply is_empty_false.
      * by left.
  - rewrite (view_tasks_spec _ _ ts Hts) in E. injection E as <- <-.
    exists ts. split_and!.
    + by apply (task_list_after _ w).
    + left. simpl. by rewrite with_tasks_dir_saved, with_tasks_dir_files.
    + by left.
  - rewrite (mark_task_completed_total _ _ ts Hts) in E.
    destruct ts as [|t0 ts0].
    { injection E as <- <-. exists []. split_and!.
      - by apply (task_list_after _ w).
      - left. simpl. by rewrite with_tasks_dir_saved, with_tasks_dir_files.
      - by left. }
    cbv iota in E. remember (t0 :: ts0) as ts eqn:Ets.
    destruct (stdin w) as [|line rest] eqn:Hin.
    { injection E as <- <-. exists ts. split_and!.
      - by apply (task_list_after _ w).
      - left. simpl. by rewrite with_tasks_dir_saved, with_tasks_dir_files.
      - by right. }
    cbv zeta in E. destruct (py_int line) as [task_id|].
    2:{ injection E as <- <-. exists ts. split_and!.
        - by apply (task_list_after _ w).
        - left. simpl. by rewrite with_tasks_dir_saved, with_tasks_dir_files.
        - by left. }
    destruct (mark_first task_id ts).2 eqn:Hfound; injection E as <- <-.
    + exists (mark_first task_id ts).1. split_and!.
      * apply (task_list_put u _ (after_prompt _ _ rest w)).
      * right. split_and!; [constructor|simpl; by rewrite with_tasks_dir_saved|done].
      * by left.
    + exists ts. split_and!.
      * by apply (task_list_after _ w).
      * left. simpl. by rewrite with_tasks_dir_saved, with_tasks_dir_files.
      * by left.
  - rewrite (delete_task_total _ _ ts Hts) in E.
    destruct ts as [|t0 ts0].
    { injection E as <- <-. exists []. split_and!.
      - by apply (task_list_after _ w).
      - left. simpl. by rewrite with_tasks_dir_saved, with_tasks_dir_files.
      - by left. }
    cbv iota in E. remember (t0 :: ts0) as ts eqn:Ets.
    destruct (stdin w) as [|line rest] eqn:Hin.
    { injection E as <- <-. exists ts. split_and!.
      - by apply (task_list_after _ w).
      - left. simpl. by rewrite with_tasks_dir_saved, with_tasks_dir_files.
      - by right. }
    cbv zeta in E. destruct (py_int line) as [task_id|].
    2:{ injection E as <- <-. exists ts. split_and!.
        - by apply (task_list_after _ w).
        - left. simpl. by rewrite with_tasks_dir_saved, with_tasks_dir_files.
        - by left. }
    case_bool_decide; injection E as <- <-.
    + exists (filter (λ t, id t ≠ task_id) ts). split_and!.
      * apply (task_list_put u _ (after_prompt _ _ rest w)).
      * right. split_and!; [constructor|simpl; by rewrite with_tasks_dir_saved|done].
      * by left.
    + exists ts. split_and!.
      * by apply (task_list_after _ w).
      * left. simpl. by rewrite with_tasks_dir_saved, with_tasks_dir_files.
      * by left.
Qed.

Lemma mark_first_fields t ts :
  id <$> (mark_first t ts).1 = id <$> ts
  ∧ description <$> (mark_first t ts).1 = description <$> ts
  ∧ Forall2 (λ x x', status x' = status x ∨ status x' = "Completed")
      ts (mark_first t ts).1.
Proof.
  induction ts as [|x ts (IH1 & IH2 & IH3)]; simpl; [by split_and!|].
  case_bool_decide; simpl.
  - split_and!; [done..|]. constructor; [by right|].
    apply Forall_Forall2_diag, Forall_forall. auto.
  - destruct (mark_first t ts) as [ts' found]; simpl in *.
    split_and!; [by f_equal..|]. constructor; [by left|done].
Qed.

Lemma sorted_lt_NoDup (l : list Z) : StronglySorted Z.lt l → NoDup l.
Proof.
  induction 1 as [|x l _ IH Hx]; constructor; [|done].
  intros Hin. rewrite Forall_forall in Hx. specialize (Hx x Hin). lia.
Qed.

Lemma task_step_ids_increase c ts ts' :
  task_step c ts ts' → ids_increase ts → ids_increase ts'.
Proof.
  unfold ids_increase. intros [ts0 line Hline|ts0 t|ts0 t] Hs.
  - rewrite fmap_app. apply StronglySorted_app_2; [|done|repeat constructor].
    intros x y (x0 & -> & Hx0)%list_elem_of_fmap Hy%list_elem_of_singleton.
    subst y. by apply new_task_id_spec.
  - by destruct (mark_first_fields t ts0) as [-> _].
  - induction ts0 as [|x ts0 IH]; [done|].
    rewrite fmap_cons in Hs. apply StronglySorted_cons in Hs as [Hx Hs].
    destruct (decide (id x ≠ t)).
    + rewrite filter_cons_True by done. rewrite fmap_cons.
      apply StronglySorted_cons. split; [|by apply IH].
      rewrite Forall_forall in Hx |- *.
      intros y (y0 & -> & Hy0)%list_elem_of_fmap.
      apply Hx, list_elem_of_fmap_2. by apply list_elem_of_filter in Hy0 as [_ ?].
    + rewrite filter_cons_False by done. by apply IH.
Qed.

(** X6: [add_task] turns down a description that is empty once stripped:
    the line is read, nothing is saved, and the stored list stays as it
    was. *)
Theorem add_task_rejects_blank (u : string) (w : world) (ts : list task)
    (line : string) (rest : list string) :
  task_list u w ts → stdin w = line :: rest → strip line = "" →
  ∃ w',
    add_task u w = (Ok tt, w')
    ∧ task_list u w' ts ∧ files w' = files w ∧ saved w' = saved w
    ∧ stdin w' = rest
    ∧ stdout w'
      = stdout w ++ ["Enter task description: "; "Task description cannot be empty."].
Proof.
  intros Hts Hin He. eexists. split_and!.
  - apply (add_task_empty _ _ ts line rest); auto. by apply is_empty_true.
  - by apply (task_list_after _ w).
  - simpl. apply with_tasks_dir_files.
  - simpl. apply with_tasks_dir_saved.
  - reflexivity.
  - simpl. by rewrite with_tasks_dir_stdout, app_nil_r, <- app_assoc.
Qed.

Lemma add_task_rejects_blank_witness :
  ∃ w', add_task "alice" (fresh ["   "; "x"]) = (Ok tt, w') ∧ stdin w' = ["x"]
        ∧ saved w' = [].
Proof.
  destruct (add_task_rejects_blank "alice" (fresh ["   "; "x"]) [] "   " ["x"])
    as (w' & H1 & _ & _ & H2 & H3 & _).
  - left. split; reflexivity.
  - reflexivity.
  - reflexivity.
  - exists w'. split; [exact H1|]. split; [exact H3|exact H2].
Defined.

(** X7: when the line entered for the id is not a number,
    [mark_task_completed] and [delete_task] print "Invalid input. Please
    enter a number.", save nothing and leave the stored list as it was;
    the line is used up. *)
Theorem non_numeric_id_changes_nothing (u : string) (w : world) (ts : list task)
    (line : string) (rest : list string) :
  task_list u w ts → ts ≠ [] → stdin w = line :: rest → py_int line = None →
  ∀ c, c = Complete ∨ c = Delete →
  ∃ w',
    run_command c u w = (Ok tt, w')
    ∧ task_list u w' ts ∧ files w' = files w ∧ saved w' = saved w
    ∧ stdin w' = rest
    ∧ last (stdout w') = Some "Invalid input. Please enter a number.".
Proof.
  intros Hts Hne Hin Hint c [-> | ->]; simpl.
  - rewrite (mark_task_completed_total _ _ ts Hts), Hin, Hint.
    destruct ts as [|t0 ts0]; [done|]. eexists. split; [reflexivity|].
    split_and!.
    + by apply (task_list_after _ w).
    + simpl. apply with_tasks_dir_files.
    + simpl. apply with_tasks_dir_saved.
    + reflexivity.
    + apply last_snoc.
  - rewrite (delete_task_total _ _ ts Hts), Hin, Hint.
    destruct ts as [|t0 ts0]; [done|]. eexists. split; [reflexivity|].
    split_and!.
    + by apply (task_list_after _ w).
    + simpl. apply with_tasks_dir_files.
    + simpl. apply with_tasks_dir_saved.
    + reflexivity.
    + apply last_snoc.
Qed.

Lemma non_numeric_id_changes_nothing_witness :
  ∃ w',
    delete_task "alice"
      (put_file (tasks_path "alice") (json_of_tasks [Task 1 "a" "Pending"])
         (fresh ["one"]))
    = (Ok tt, w')
    ∧ task_list "alice" w' [Task 1 "a" "Pending"].
Proof.
  destruct (non_numeric_id_changes_nothing "alice"
              (put_file (tasks_path "alice") (json_of_tasks [Task 1 "a" "Pending"])
                 (fresh ["one"]))
              [Task 1 "a" "Pending"] "one" [])
    with (c := Delete) as (w' & H1 & H2 & _).
  - apply task_list_put.
  - discriminate.
  - reflexivity.
  - reflexivity.
  - by right.
  - exists w'. split; [exact H1|exact H2].
Defined.



(** X9: [view_tasks] changes nothing in the store and reads no input.
    It prints "No tasks found." for an empty list, and otherwise a
    header, one line per stored task in stored order, showing its id,
    description and status, and a footer. *)
Theorem view_tasks_lists_every_task (u : string) (w : world) (ts : list task) :
  task_list u w ts →
  ∃ w',
    view_tasks u w = (Ok tt, w')
    ∧ files w' = files w ∧ saved w' = saved w ∧ stdin w' = stdin w
    ∧ stdout w' = stdout w ++ listing ts
    ∧ (ts = [] → listing ts = ["No tasks found."])
    ∧ (ts ≠ [] →
       length (listing ts) = (length ts + 2)%nat
       ∧ ∀ k t, ts !! k = Some t →
           listing ts !! S k
           = Some ("ID: " +:+ py_str (id t) +:+ ", Description: " +:+ description t
                   +:+ ", Status: " +:+ status t)).
Proof.
  intros Hts. eexists. split_and!.
  - by apply view_tasks_spec.
  - simpl. apply with_tasks_dir_files.
  - simpl. apply with_tasks_dir_saved.
  - simpl. apply with_tasks_dir_stdin.
  - simpl. by rewrite with_tasks_dir_stdout.
  - by intros ->.
  - intros Hne. destruct ts as [|t0 ts0]; [done|].
    change (listing (t0 :: ts0)) with
      (String "010" "--- Your Tasks ---" :: (task_line <$> t0 :: ts0)
         ++ ["------------------" +:+ String "010" ""]).
    remember (t0 :: ts0) as l. split.
    + rewrite length_cons, length_app, length_fmap. simpl. lia.
    + intros k t Hk. change ((?x :: ?l') !! S k) with (l' !! k).
      rewrite lookup_app_l.
      * by rewrite list_lookup_fmap, Hk.
      * rewrite length_fmap. by eapply lookup_lt_Some.
Qed.

Lemma view_tasks_lists_every_task_witness :
  ∃ w', view_tasks "alice" (fresh []) = (Ok tt, w') ∧ stdout w' = ["No tasks found."].
Proof.
  destruct (view_tasks_lists_every_task "alice" (fresh []) [])
    as (w' & H1 & _ & _ & _ & H2 & _).
  - left. split; reflexivity.
  - exists w'. split; [exact H1|exact H2].
Defined.



(** X11: a task command keeps the ids of the stored list increasing, and
    so pairwise distinct, whatever is typed: when the ids increase along
    the list before the command, they do so after it. *)
Theorem command_keeps_ids_increasing (c : command) (u : string) (w : world)
    (ts : list task) (r : res unit) (w' : world) :
  task_list u w ts → ids_increase ts → run_command c u w = (r, w') →
  ∃ ts',
    task_list u w' ts' ∧ ids_increase ts' ∧ NoDup (id <$> ts')
    ∧ (ts' = ts ∨ task_step c ts ts').
Proof.
  intros Hts Hinc E.
  destruct (command_step _ _ _ _ _ _ Hts E) as (ts' & Hts' & Hsave & _).
  exists ts'.
  assert (ids_increase ts') as Hinc'.
  { destruct Hsave as [(-> & _)|(Hstep & _)]; [done|].
    by eapply task_step_ids_increase. }
  split_and!; [done..|by apply sorted_lt_NoDup|].
  destruct Hsave as [(-> & _)|(Hstep & _)]; auto.
Qed.

Lemma command_keeps_ids_increasing_witness :
  ∃ r w' ts',
    delete_task "alice"
      (put_file (tasks_path "alice")
         (json_of_tasks [Task 1 "a" "Pending"; Task 4 "b" "Pending"]) (fresh ["1"]))
    = (r, w')
    ∧ task_list "alice" w' ts' ∧ NoDup (id <$> ts').
Proof.
  destruct (delete_task "alice"
              (put_file (tasks_path "alice")
                 (json_of_tasks [Task 1 "a" "Pending"; Task 4 "b" "Pending"])
                 (fresh ["1"]))) as [r w'] eqn:E.
  destruct (command_keeps_ids_increasing Delete "alice"
              (put_file (tasks_path "alice")
                 (json_of_tasks [Task 1 "a" "Pending"; Task 4 "b" "Pending"])
                 (fresh ["1"]))
              [Task 1 "a" "Pending"; Task 4 "b" "Pending"] r w')
    as (ts' & H1 & _ & H2 & _).
  - apply task_list_put.
  - repeat constructor.
  - exact E.
  - exists r, w', ts'. split; [reflexivity|]. split; [exact H1|exact H2].
Defined.

(** X12: [mark_task_completed] changes statuses only, and only to
    "Completed": whatever is typed, the stored list afterwards has the
    same ids and descriptions in the same places, and each status is
    what it was or "Completed". *)
Theorem completing_only_sets_status (u : string) (w : world) (ts : list task)
    (r : res unit) (w' : world) :
  task_list u w ts → mark_task_completed u w = (r, w') →
  ∃ ts',
    task_list u w' ts'
    ∧ id <$> ts' = id <$> ts
    ∧ description <$> ts' = description <$> ts
    ∧ Forall2 (λ x x', status x' = status x ∨ status x' = "Completed") ts ts'.
Proof.
  intros Hts E.
  destruct (command_step Complete _ _ _ _ _ Hts E) as (ts' & Hts' & Hsave & _).
  exists ts'. split; [done|].
  destruct Hsave as [(-> & _)|(Hstep & _)].
  - split_and!; [done..|]. apply Forall_Forall2_diag, Forall_forall. auto.
  - inversion Hstep; subst. apply mark_first_fields.
Qed.

Lemma completing_only_sets_status_witness :
  ∃ r w' ts',
    mark_task_completed "alice"
      (put_file (tasks_path "alice")
         (json_of_tasks [Task 1 "a" "Completed"; Task 2 "b" "Pending"]) (fresh ["1"]))
    = (r, w')
    ∧ task_list "alice" w' ts' ∧ description <$> ts' = ["a"; "b"].
Proof.
  destruct (mark_task_completed "alice"
              (put_file (tasks_path "alice")
                 (json_of_tasks [Task 1 "a" "Completed"; Task 2 "b" "Pending"])
                 (fresh ["1"]))) as [r w'] eqn:E.
  destruct (completing_only_sets_status "alice"
              (put_file (tasks_path "alice")
                 (json_of_tasks [Task 1 "a" "Completed"; Task 2 "b" "Pending"])
                 (fresh ["1"]))
              [Task 1 "a" "Completed"; Task 2 "b" "Pending"] r w')
    as (ts' & H1 & _ & H2 & _).
  - apply task_list_put.
  - exact E.
  - exists r, w', ts'. split; [reflexivity|]. split; [exact H1|exact H2].
Defined.

(** X13: the id as it is printed by [add_task] and [view_tasks], typed
    back, selects the task: [delete_task] then removes it and
    [mark_task_completed] leaves a task with that id completed. *)
Theorem shown_id_selects_task (u : string) (w : world) (ts : list task)
    (x : task) (rest : list string) :
  task_list u w ts → x ∈ ts → stdin w = py_str (id x) :: rest →
  (∃ w',
     delete_task u w = (Ok tt, w')
     ∧ task_list u w' (filter (λ t, id t ≠ id x) ts)
     ∧ ¬ x ∈ filter (λ t, id t ≠ id x) ts
     ∧ last (stdout w')
       = Some ("Task ID " +:+ py_str (id x) +:+ " deleted successfully."))
  ∧ (∃ w' ts',
       mark_task_completed u w = (Ok tt, w')
       ∧ task_list u w' ts'
       ∧ (∃ x', x' ∈ ts' ∧ id x' = id x ∧ status x' = "Completed")
       ∧ last (stdout w')
         = Some ("Task ID " +:+ py_str (id x) +:+ " marked as Completed.")).
Proof.
  intros Hts Hx Hin.
  assert (ts ≠ []) as Hne by (intros ->; by apply elem_of_nil in Hx).
  assert (Exists (λ t, id t = id x) ts) as Hex by (apply Exists_exists; eauto).
  split.
  - eexists. split_and!.
    + apply (delete_task_spec _ _ ts (py_str (id x)) rest (id x));
        auto using py_int_py_str.
    + cbv zeta. rewrite bool_decide_true by by apply filter_present.
      apply (task_list_put u _ (after_prompt _ _ rest w)).
    + rewrite list_elem_of_filter. tauto.
    + cbv zeta. rewrite bool_decide_true by by apply filter_present.
      apply last_snoc.
  - destruct (first_occurrence _ _ Hex) as (pre & y & post & E & Hpre & Hy).
    pose proof (mark_first_split (id x) pre y post Hpre Hy) as Hm.
    rewrite <- E in Hm.
    eexists _, (pre ++ Task (id y) (description y) "Completed" :: post). split_and!.
    + apply (mark_task_completed_spec _ _ ts (py_str (id x)) rest (id x));
        auto using py_int_py_str.
    + cbv zeta. rewrite Hm. apply (task_list_put u _ (after_prompt _ _ rest w)).
    + eexists. split; [apply elem_of_app; right; apply elem_of_cons; by left|].
      done.
    + cbv zeta. rewrite Hm. apply last_snoc.
Qed.

Lemma shown_id_selects_task_witness :
  ∃ w',
    delete_task "alice"
      (put_file (tasks_path "alice")
         (json_of_tasks [Task 1 "a" "Pending"; Task (-7) "b" "Pending"])
         (fresh ["-7"]))
    = (Ok tt, w')
    ∧ task_list "alice" w' [Task 1 "a" "Pending"].
Proof.
  destruct (shown_id_selects_task "alice"
              (put_file (tasks_path "alice")
                 (json_of_tasks [Task 1 "a" "Pending"; Task (-7) "b" "Pending"])
                 (fresh ["-7"]))
              [Task 1 "a" "Pending"; Task (-7) "b" "Pending"]
              (Task (-7) "b" "Pending") [])
    as [(w' & H1 & H2 & _) _].
  - apply task_list_put.
  - apply elem_of_cons. right. apply elem_of_cons. by left.
  - reflexivity.
  - exists w'. split; [exact H1|exact H2].
Defined.

(** X14: adding a task and then deleting the id just given brings the
    stored list back to what it was, whatever it held. *)
Theorem add_then_delete_restores (u : string) (w : world) (ts : list task)
    (line line' : string) (rest : list string) :
  task_list u w ts → stdin w = line :: line' :: rest → strip line ≠ "" →
  py_int line' = Some (id (new_task ts line)) →
  ∃ w1 w2,
    add_task u w = (Ok tt, w1)
    ∧ task_list u w1 (ts ++ [new_task ts line])
    ∧ delete_task u w1 = (Ok tt, w2)
    ∧ task_list u w2 ts
    ∧ stdin w2 = rest.
Proof.
  intros Hts Hin Hline Hint.
  set (n := id (new_task ts line)) in *.
  assert (filter (λ t, id t ≠ n) (ts ++ [new_task ts line]) = ts) as Hfil.
  { rewrite filter_app, filter_cons_False, filter_nil, app_nil_r by (intros H; by apply H).
    apply filter_absent, Forall_forall. intros y Hy.
    pose proof (proj1 (new_task_id_spec ts line) y Hy). fold n in H. lia. }
  set (w0 := after_prompt "Enter task description: " [] (line' :: rest) w).
  set (w1 := emit ("Task '" +:+ strip line +:+ "' (ID: " +:+ py_str n
                   +:+ ") added successfully.")
               (put_file (tasks_path u) (json_of_tasks (ts ++ [new_task ts line])) w0)).
  assert (add_task u w = (Ok tt, w1)) as H1.
  { apply (add_task_spec _ _ ts line (line' :: rest)); auto. by apply is_empty_false. }
  assert (task_list u w1 (ts ++ [new_task ts line])) as Ht1
    by apply (task_list_put u _ w0).
  assert (ts ++ [new_task ts line] ≠ []) as Hne by by destruct ts.
  pose proof (delete_task_spec u w1 _ line' rest n Hne Ht1 eq_refl Hint) as H2.
  cbv zeta in H2. rewrite Hfil in H2.
  rewrite bool_decide_true in H2 by (rewrite length_app; simpl; lia).
  exists w1. eexists. split; [exact H1|]. split; [exact Ht1|].
  split; [exact H2|]. split; [|reflexivity].
  apply (task_list_put u _ (after_prompt _ _ rest w1)).
Qed.

Lemma add_then_delete_restores_witness :
  ∃ w1 w2,
    add_task "alice" (fresh ["Buy milk"; "1"]) = (Ok tt, w1)
    ∧ delete_task "alice" w1 = (Ok tt, w2)
    ∧ task_list "alice" w2 [].
Proof.
  destruct (add_then_delete_restores "alice" (fresh ["Buy milk"; "1"]) []
              "Buy milk" "1" [])
    as (w1 & w2 & H1 & _ & H2 & H3 & _).
  - left. split; reflexivity.
  - reflexivity.
  - vm_compute. discriminate.
  - reflexivity.
  - exists w1, w2. split; [exact H1|]. split; [exact H2|exact H3].
Defined.

(** X15: deleting the same id a second time finds nothing: after a
    successful [delete_task] no stored task has that id, and a second
    [delete_task] with it saves nothing and reports that the task was
    not found, or, when the list has become empty, that there are no
    tasks. *)
Theorem delete_twice (u : string) (w : world) (ts : list task)
    (line1 line2 : string) (rest : list string) (t : Z) :
  task_list u w ts → Exists (λ x, id x = t) ts →
  stdin w = line1 :: line2 :: rest →
  py_int line1 = Some t → py_int line2 = Some t →
  ∃ w1 w2,
    delete_task u w = (Ok tt, w1)
    ∧ task_list u w1 (filter (λ x, id x ≠ t) ts)
    ∧ Forall (λ x, id x ≠ t) (filter (λ x, id x ≠ t) ts)
    ∧ delete_task u w1 = (Ok tt, w2)
    ∧ files w2 = files w1 ∧ saved w2 = saved w1
    ∧ last (stdout w2)
      = Some (match filter (λ x, id x ≠ t) ts with
              | [] => "No tasks to delete."
              | _ => "Task with ID " +:+ py_str t +:+ " not found."
              end).
Proof.
  intros Hts Hex Hin Hint1 Hint2.
  remember (filter (λ x, id x ≠ t) ts) as ts1 eqn:Ets1.
  assert (Forall (λ x, id x ≠ t) ts1) as Habs.
  { subst ts1. apply Forall_forall. by intros x [? _]%list_elem_of_filter. }
  set (w0 := after_prompt "Enter the ID of the task to delete: "
               (listing ts) (line2 :: rest) w).
  set (w1 := emit ("Task ID " +:+ py_str t +:+ " deleted successfully.")
               (put_file (tasks_path u) (json_of_tasks ts1) w0)).
  assert (delete_task u w = (Ok tt, w1)) as H1.
  { rewrite (delete_task_spec _ _ ts line1 (line2 :: rest) t); auto.
    - cbv zeta. rewrite <- Ets1.
      rewrite bool_decide_true; [done|]. subst ts1. by apply filter_present.
    - intros ->. by apply Exists_nil in Hex. }
  assert (task_list u w1 ts1) as Hts1 by apply (task_list_put u _ w0).
  assert (stdin w1 = line2 :: rest) as Hin1 by done.
  assert (∃ w2,
            delete_task u w1
            = (Ok tt,
               emit (match ts1 with
                     | [] => "No tasks to delete."
                     | _ => "Task with ID " +:+ py_str t +:+ " not found."
                     end) w2)
            ∧ files w2 = files w1 ∧ saved w2 = saved w1) as (w2 & H2 & Hf & Hs).
  { rewrite (delete_task_total _ _ ts1 Hts1), Hin1, Hint2.
    destruct ts1 as [|y ts1'].
    - eexists. split; [reflexivity|].
      by rewrite with_tasks_dir_files, with_tasks_dir_saved.
    - cbv zeta. rewrite (filter_absent _ _ Habs).
      rewrite bool_decide_false by lia.
      eexists. split; [reflexivity|]. simpl.
      by rewrite with_tasks_dir_files, with_tasks_dir_saved. }
  eexists w1, _. split_and!; [exact H1|exact Hts1|exact Habs|exact H2|..].
  - exact Hf.
  - exact Hs.
  - apply last_snoc.
Qed.

Lemma delete_twice_witness :
  ∃ w1 w2,
    delete_task "alice"
      (put_file (tasks_path "alice") (json_of_tasks [Task 1 "a" "Pending"])
         (fresh ["1"; "1"]))
    = (Ok tt, w1)
    ∧ delete_task "alice" w1 = (Ok tt, w2)
    ∧ last (stdout w2) = Some "No tasks to delete.".
Proof.
  destruct (delete_twice "alice"
              (put_file (tasks_path "alice") (json_of_tasks [Task 1 "a" "Pending"])
                 (fresh ["1"; "1"]))
              [Task 1 "a" "Pending"] "1" "1" [] 1)
    as (w1 & w2 & H1 & _ & _ & H2 & _ & _ & H3).
  - apply task_list_put.
  - apply Exists_cons_hd. reflexivity.
  - reflexivity.
  - reflexivity.
  - reflexivity.
  - exists w1, w2. split; [exact H1|]. split; [exact H2|exact H3].
Defined.

(** ** The task menu *)

Lemma main_menu_prompt_spec w :
  main_menu_prompt w
  = match stdin w with
    | [] => (Raise EOFError, emits menu_text w)
    | line :: rest => (Ok line, set_stdin rest (emits menu_text w))
    end.
Proof.
  unfold main_menu_prompt.
  do 6 (erewrite bind_Ok; [|reflexivity]).
  unfold input. simpl.
  destruct (stdin w); f_equal; apply world_eq; simpl; try done;
    by rewrite <- !app_assoc.
Qed.

Lemma main_menu_loop_S fuel u w :
  main_menu_loop (S fuel) u w
  = match stdin w with
    | [] => Some (Raise EOFError, emits menu_text w)
    | line :: rest =>
        let w1 := set_stdin rest (emits menu_text w) in
        match read_choice (strip line) with
        | Run c =>
            match run_command c u w1 with
            | (Ok _, w2) => main_menu_loop fuel u w2
            | (Raise e, w2) => Some (Raise e, w2)
            end
        | Logout => Some (Ok tt, emit "Logging out..." w1)
        | Unknown =>
            main_menu_loop fuel u (emit "Invalid choice. Please try again." w1)
        end
    end.
Proof.
  cbn [main_menu_loop]. rewrite main_menu_prompt_spec.
  destruct (stdin w) as [|line rest]; [done|].
  cbv zeta. unfold read_choice.
  repeat (case_bool_decide; [done|]). done.
Qed.

Lemma changes_menu_turn allowed w line rest :
  stdin w = line :: rest → changes allowed w (set_stdin rest (emits menu_text w)).
Proof.
  intros Hin. unfold changes; simpl. split_and!; try done.
  - rewrite Hin. by apply suffix_cons_r.
  - by apply prefix_app_r.
  - set_solver.
  - exists []. by rewrite app_nil_r.
Qed.

Lemma changes_emits allowed l w : changes allowed w (emits l w).
Proof.
  unfold changes; simpl. split_and!; try done.
  - by apply prefix_app_r.
  - set_solver.
  - exists []. by rewrite app_nil_r.
Qed.

Lemma main_menu_loop_changes u fuel : ∀ w r w',
  main_menu_loop fuel u w = Some (r, w') →
  changes (λ p, p = tasks_path u) w w'.
Proof.
  induction fuel as [|fuel IH]; intros w r w'; [done|].
  rewrite main_menu_loop_S. destruct (stdin w) as [|line rest] eqn:Hin.
  { intros [= <- <-]. apply changes_emits. }
  cbv zeta. pose proof (changes_menu_turn (λ p, p = tasks_path u) w line rest Hin) as H1.
  destruct (read_choice (strip line)) as [c| |].
  - destruct (run_command c u _) as [[[]|e] w2] eqn:Ec.
    + intros E. apply IH in E.
      eapply changes_trans; [exact H1|].
      eapply changes_trans; [|exact E]. by eapply keeps_run_command.
    + intros [= <- <-]. eapply changes_trans; [exact H1|].
      by eapply keeps_run_command.
  - intros [= <- <-]. eapply changes_trans; [exact H1|apply changes_emit].
  - intros E. apply IH in E. eapply changes_trans; [exact H1|].
    eapply changes_trans; [apply changes_emit|exact E].
Qed.

Lemma changes_stdin_length allowed w w' :
  changes allowed w w' → (length (stdin w') ≤ length (stdin w))%nat.
Proof. intros (H & _). by apply suffix_length. Qed.

Lemma main_menu_loop_enough u fuel : ∀ w,
  (length (stdin w) < fuel)%nat → is_Some (main_menu_loop fuel u w).
Proof.
  induction fuel as [|fuel IH]; intros w Hlen; [lia|].
  rewrite main_menu_loop_S. destruct (stdin w) as [|line rest] eqn:Hin; [by eexists|].
  cbv zeta. simpl in Hlen.
  destruct (read_choice (strip line)) as [c| |].
  - destruct (run_command c u _) as [[[]|e] w2] eqn:Ec; [|by eexists].
    apply IH.
    apply (keeps_run_command c u) in Ec. apply changes_stdin_length in Ec.
    simpl in Ec. lia.
  - by eexists.
  - apply IH. simpl. lia.
Qed.

Lemma main_menu_loop_mono u fuel : ∀ fuel' w x,
  main_menu_loop fuel u w = Some x → (fuel ≤ fuel')%nat →
  main_menu_loop fuel' u w = Some x.
Proof.
  induction fuel as [|fuel IH]; intros fuel' w x; [done|].
  intros E Hle. destruct fuel' as [|fuel']; [lia|].
  rewrite main_menu_loop_S in E |- *.
  destruct (stdin w) as [|line rest]; [done|]. cbv zeta in *.
  destruct (read_choice (strip line)) as [c| |]; [|done|].
  - destruct (run_command c u _) as [[[]|e] w2]; [|done].
    apply IH; [done|lia].
  - apply IH; [done|lia].
Qed.

Lemma main_menu_fuel u w fuel :
  (length (stdin w) < fuel)%nat → main_menu_loop fuel u w = main_menu u w.
Proof.
  intros Hlen. unfold main_menu.
  destruct (main_menu_loop_enough u (S (length (stdin w))) w) as [x Hx]; [lia|].
  rewrite Hx. eapply main_menu_loop_mono; [exact Hx|lia].
Qed.

Lemma main_menu_loop_ends u fuel : ∀ w w',
  main_menu_loop fuel u w = Some (Ok tt, w') →
  last (stdout w') = Some "Logging out...".
Proof.
  induction fuel as [|fuel IH]; intros w w'; [done|].
  rewrite main_menu_loop_S. destruct (stdin w) as [|line rest]; [done|].
  cbv zeta. destruct (read_choice (strip line)) as [c| |].
  - destruct (run_command c u _) as [[[]|e] w2]; [apply IH|done].
  - intros [= <-]. apply last_snoc.
  - apply IH.
Qed.

(** X16: [main_menu] ends on every input.  One unit of fuel per input
    line, and one more, is enough, and more fuel gives the same result;
    when it returns normally, the last thing printed is "Logging out...". *)
Theorem main_menu_terminates (u : string) (w : world) :
  ∃ r w',
    main_menu u w = Some (r, w')
    ∧ (∀ fuel, (length (stdin w) < fuel)%nat →
         main_menu_loop fuel u w = Some (r, w'))
    ∧ (r = Ok tt → last (stdout w') = Some "Logging out...")
    ∧ stdin w' `suffix_of` stdin w.
Proof.
  destruct (main_menu_loop_enough u (S (length (stdin w))) w) as [[r w'] Hx]; [lia|].
  exists r, w'. split_and!.
  - exact Hx.
  - intros fuel Hlen. by rewrite main_menu_fuel.
  - intros ->. by eapply main_menu_loop_ends.
  - by eapply main_menu_loop_changes.
Qed.



Lemma main_menu_loop_steps u fuel : ∀ w ts r w',
  task_list u w ts → main_menu_loop fuel u w = Some (r, w') →
  ∃ ts',
    task_list u w' ts' ∧ rtc some_step ts ts'
    ∧ (r = Ok tt ∨ (r = Raise EOFError ∧ stdin w' = [])).
Proof.
  induction fuel as [|fuel IH]; intros w ts r w' Hts; [done|].
  rewrite main_menu_loop_S. destruct (stdin w) as [|line rest] eqn:Hin.
  { intros [= <- <-]. exists ts. split_and!; [by apply (task_list_ext _ w)|done|].
    right. by simpl. }
  cbv zeta.
  assert (task_list u (set_stdin rest (emits menu_text w)) ts) as H1
    by by apply (task_list_ext _ w).
  destruct (read_choice (strip line)) as [c| |].
  - destruct (run_command c u _) as [[[]|e] w2] eqn:Ec.
    + destruct (command_step _ _ _ _ _ _ H1 Ec) as (ts1 & Hts1 & Hsave & _).
      intros E. destruct (IH _ _ _ _ Hts1 E) as (ts' & Hts' & Hrtc & Hr).
      exists ts'. split_and!; [done| |done].
      destruct Hsave as [(-> & _)|(Hstep & _)]; [done|].
      eapply rtc_l; [by exists c|done].
    + intros [= <- <-].
      destruct (command_step _ _ _ _ _ _ H1 Ec) as (ts1 & Hts1 & Hsave & Hr).
      exists ts1. split_and!; [done| |].
      * destruct Hsave as [(-> & _)|(_ & _ & [=])]. done.
      * destruct Hr as [[=]|[[= ->] Hnil]]. right. split; [done|].
        apply (keeps_run_command c u) in Ec as (Hsuf & _).
        rewrite Hnil in Hsuf. by apply suffix_nil_inv in Hsuf.
  - intros [= <- <-]. exists ts. split_and!; [by apply (task_list_ext _ w)|done|by left].
  - intros E. eapply IH; [|exact E]. by apply (task_list_ext _ w).
Qed.

Lemma rtc_some_step_ids_increase ts ts' :
  rtc some_step ts ts' → ids_increase ts → ids_increase ts'.
Proof.
  induction 1 as [|ts1 ts2 ts3 [c Hc] _ IH]; [done|].
  intros H. apply IH. by eapply task_step_ids_increase.
Qed.



Lemma emits_emits l1 l2 w : emits l2 (emits l1 w) = emits (l1 ++ l2) w.
Proof. apply world_eq; simpl; try done. by rewrite app_assoc. Qed.

Lemma read_choice_unknown line :
  strip line ∉ ["1"; "2"; "3"; "4"; "5"] → read_choice (strip line) = Unknown.
Proof.
  intros H. unfold read_choice.
  repeat (case_bool_decide as E;
          [exfalso; apply H; rewrite E, !elem_of_cons; tauto|clear E]).
  done.
Qed.

Lemma invalid_turns_cons line bad :
  invalid_turns (line :: bad)
  = menu_text ++ ["Invalid choice. Please try again."] ++ invalid_turns bad.
Proof. unfold invalid_turns. by rewrite bind_cons, <- app_assoc. Qed.

Lemma main_menu_loop_logout u rest c5 bad : ∀ w fuel,
  stdin w = bad ++ c5 :: rest →
  Forall (λ line, strip line ∉ ["1"; "2"; "3"; "4"; "5"]) bad →
  strip c5 = "5" → (length bad < fuel)%nat →
  main_menu_loop fuel u w
  = Some (Ok tt,
          set_stdin rest
            (emits (invalid_turns bad ++ menu_text ++ ["Logging out..."]) w)).
Proof.
  induction bad as [|line bad IH]; intros w fuel Hin Hbad H5 Hlen;
    (destruct fuel as [|fuel]; [simpl in Hlen; lia|]);
    simpl in Hin; rewrite main_menu_loop_S, Hin; cbv beta iota zeta.
  - rewrite H5. change (read_choice "5") with Logout. cbv iota.
    do 2 f_equal. apply world_eq; simpl; try done.
    by rewrite <- !app_assoc.
  - apply Forall_cons in Hbad as [Hline Hbad].
    rewrite (read_choice_unknown _ Hline).
    rewrite (IH _ fuel); [|done|done|done|simpl in Hlen; lia].
    rewrite invalid_turns_cons.
    do 2 f_equal. apply world_eq; simpl; try done.
    by rewrite <- !app_assoc.
Qed.

(** X19: [main_menu] answers every line that is none of its five choices
    with the menu and "Invalid choice. Please try again.", and the first
    line that strips to 5 ends the session: nothing was written, and the
    lines after it are left unread. *)
Theorem main_menu_logout (u : string) (w : world) (bad : list string)
    (c5 : string) (rest : list string) :
  stdin w = bad ++ c5 :: rest →
  Forall (λ line, strip line ∉ ["1"; "2"; "3"; "4"; "5"]) bad →
  strip c5 = "5" →
  ∃ w',
    main_menu u w = Some (Ok tt, w')
    ∧ stdin w' = rest ∧ files w' = files w ∧ dirs w' = dirs w
    ∧ saved w' = saved w
    ∧ stdout w' = stdout w ++ invalid_turns bad ++ menu_text ++ ["Logging out..."].
Proof.
  intros Hin Hbad H5. eexists. split.
  - unfold main_menu. apply (main_menu_loop_logout u rest c5 bad); [done..|].
    rewrite Hin, length_app. simpl. lia.
  - by simpl.
Qed.

Lemma main_menu_logout_witness :
  ∃ w',
    main_menu "bob" (fresh ["6"; ""; " 5 "; "1"]) = Some (Ok tt, w')
    ∧ stdin w' = ["1"] ∧ saved w' = [].
Proof.
  destruct (main_menu_logout "bob" (fresh ["6"; ""; " 5 "; "1"]) ["6"; ""] " 5 " ["1"])
    as (w' & E & Hin & _ & _ & Hs & _).
  - reflexivity.
  - apply Forall_cons_2; [|apply Forall_cons_2; [|apply Forall_nil_2]];
      (intros H; rewrite !elem_of_cons, elem_of_nil in H; vm_compute in H;
       repeat (destruct H as [H|H]; [discriminate H|]); exact H).
  - reflexivity.
  - by exists w'.
Defined.

(** ** The application *)

Lemma run_app_prompt_spec w :
  run_app_prompt w
  = match stdin w with
    | [] => (Raise EOFError, emits welcome_text w)
    | line :: rest => (Ok line, set_stdin rest (emits welcome_text w))
    end.
Proof.
  unfold run_app_prompt.
  do 4 (erewrite bind_Ok; [|reflexivity]).
  unfold input. simpl.
  destruct (stdin w); f_equal; apply world_eq; simpl; try done;
    by rewrite <- !app_assoc.
Qed.

Lemma run_app_loop_S fuel w :
  run_app_loop (S fuel) w
  = match stdin w with
    | [] => Some (Raise EOFError, emits welcome_text w)
    | line :: rest =>
        let w1 := set_stdin rest (emits welcome_text w) in
        if bool_decide (strip line = "1") then
          match login_user w1 with
          | (Ok (Some current_user), w2) => Some (Ok (Some current_user), w2)
          | (Ok None, w2) => run_app_loop fuel w2
          | (Raise e, w2) => Some (Raise e, w2)
          end
        else if bool_decide (strip line = "2") then
          match register_user w1 with
          | (Ok _, w2) => run_app_loop fuel w2
          | (Raise e, w2) => Some (Raise e, w2)
          end
        else if bool_decide (strip line = "3") then
          Some (Ok None, emit "Exiting application. Goodbye!" w1)
        else run_app_loop fuel (emit "Invalid choice. Please try again." w1)
    end.
Proof.
  cbn [run_app_loop]. rewrite run_app_prompt_spec.
  by destruct (stdin w) as [|line rest].
Qed.

Lemma changes_read_line allowed text w line rest :
  stdin w = line :: rest → changes allowed w (set_stdin rest (emits text w)).
Proof.
  intros Hin. unfold changes; simpl. split_and!; try done.
  - rewrite Hin. by apply suffix_cons_r.
  - by apply prefix_app_r.
  - set_solver.
  - exists []. by rewrite app_nil_r.
Qed.

Lemma run_app_loop_changes fuel : ∀ w r w',
  run_app_loop fuel w = Some (r, w') → changes (λ p, p = USERS_FILE) w w'.
Proof.
  induction fuel as [|fuel IH]; intros w r w'; [done|].
  rewrite run_app_loop_S. destruct (stdin w) as [|line rest] eqn:Hin.
  { intros [= <- <-]. apply changes_emits. }
  cbv zeta.
  pose proof (changes_read_line (λ p, p = USERS_FILE) welcome_text w line rest Hin) as H1.
  repeat case_bool_decide.
  - destruct (login_user _) as [[[v|]|e] w2] eqn:El;
      pose proof (keeps_login_user (λ p, p = USERS_FILE) _ _ _ El) as H2.
    + intros [= <- <-]. by eapply changes_trans.
    + intros E. apply IH in E. eapply changes_trans; [exact H1|]. by eapply changes_trans.
    + intros [= <- <-]. by eapply changes_trans.
  - destruct (register_user _) as [[b|e] w2] eqn:Er;
      pose proof (keeps_register_user _ _ _ Er) as H2.
    + intros E. apply IH in E. eapply changes_trans; [exact H1|]. by eapply changes_trans.
    + intros [= <- <-]. by eapply changes_trans.
  - intros [= <- <-]. eapply changes_trans; [exact H1|apply changes_emit].
  - intros E. apply IH in E. eapply changes_trans; [exact H1|].
    eapply changes_trans; [apply changes_emit|exact E].
Qed.

Lemma run_app_loop_enough fuel : ∀ w,
  (length (stdin w) < fuel)%nat → is_Some (run_app_loop fuel w).
Proof.
  induction fuel as [|fuel IH]; intros w Hlen; [lia|].
  rewrite run_app_loop_S. destruct (stdin w) as [|line rest] eqn:Hin; [by eexists|].
  cbv zeta. simpl in Hlen. repeat case_bool_decide.
  - destruct (login_user _) as [[[v|]|e] w2] eqn:El; [by eexists| |by eexists].
    apply IH. apply (keeps_login_user (λ _, False)) in El.
    apply changes_stdin_length in El. simpl in El. lia.
  - destruct (register_user _) as [[b|e] w2] eqn:Er; [|by eexists].
    apply IH. apply keeps_register_user in Er.
    apply changes_stdin_length in Er. simpl in Er. lia.
  - by eexists.
  - apply IH. simpl. lia.
Qed.

Lemma run_app_loop_mono fuel : ∀ fuel' w x,
  run_app_loop fuel w = Some x → (fuel ≤ fuel')%nat → run_app_loop fuel' w = Some x.
Proof.
  induction fuel as [|fuel IH]; intros fuel' w x; [done|].
  intros E Hle. destruct fuel' as [|fuel']; [lia|].
  rewrite run_app_loop_S in E |- *.
  destruct (stdin w) as [|line rest]; [done|]. cbv zeta in *.
  repeat case_bool_decide; try done.
  - destruct (login_user _) as [[[v|]|e] w2]; [done| |done]. apply IH; [done|lia].
  - destruct (register_user _) as [[b|e] w2]; [|done]. apply IH; [done|lia].
  - apply IH; [done|lia].
Qed.

Lemma run_app_loop_fuel w fuel fuel' :
  (length (stdin w) < fuel)%nat → (length (stdin w) < fuel')%nat →
  run_app_loop fuel w = run_app_loop fuel' w.
Proof.
  intros H1 H2.
  destruct (run_app_loop_enough (S (length (stdin w))) w) as [x Hx]; [lia|].
  rewrite (run_app_loop_mono _ fuel _ _ Hx), (run_app_loop_mono _ fuel' _ _ Hx); [done|lia..].
Qed.

Lemma login_user_result w users r w' :
  credentials w users → login_user w = (r, w') →
  match r with
  | Ok (Some u) => is_Some (users !! u)
  | Ok None => True
  | Raise e => e = EOFError ∧ stdin w' = []
  end.
Proof.
  intros Hc E. unfold login_user in E.
  rewrite (bind_Ok _ _ _ _ _ (load_users_spec _ _ Hc)) in E.
  destruct (stdin w) as [|l1 [|l2 rest]] eqn:Hin.
  - erewrite bind_Raise in E by by apply input_eof. by injection E as <- <-.
  - erewrite bind_Ok in E by by apply input_line.
    erewrite bind_Raise in E by by apply input_eof. by injection E as <- <-.
  - erewrite bind_Ok in E by by apply input_line.
    erewrite bind_Ok in E by by apply input_line.
    cbv zeta in E. case_bool_decide as Hs; simpl in E.
    + case_bool_decide; by injection E as <- <-.
    + by injection E as <- <-.
Qed.

Lemma register_user_loop_raise users lines : ∀ w e w',
  stdin w = lines → register_user_loop users lines w = (Raise e, w') →
  e = EOFError ∧ stdin w' = [].
Proof.
  induction lines as [|line rest IH]; intros w e w' Hin; simpl.
  - by intros [= <- <-].
  - destruct (is_empty (strip line)); [by apply IH|].
    case_bool_decide; [by apply IH|done].
Qed.

Lemma register_user_raise w users e w' :
  credentials w users → register_user w = (Raise e, w') →
  e = EOFError ∧ stdin w' = [].
Proof.
  intros Hc E. unfold register_user in E.
  rewrite (bind_Ok _ _ _ _ _ (load_users_spec _ _ Hc)) in E.
  destruct (register_user_loop users (stdin w) w) as [[u|e1] w1] eqn:Hloop.
  2:{ erewrite bind_Raise in E by exact Hloop. injection E as <- <-.
      by eapply register_user_loop_raise. }
  erewrite bind_Ok in E by exact Hloop.
  destruct (stdin w1) as [|line rest] eqn:Hin.
  { erewrite bind_Raise in E by by apply input_eof. by injection E as <- <-. }
  erewrite bind_Ok in E by by apply input_line.
  destruct (is_empty (strip line)); [done|].
  erewrite bind_Ok in E by apply save_users_spec. done.
Qed.

Lemma run_app_loop_accounts fuel : ∀ w users r w',
  credentials w users → run_app_loop fuel w = Some (r, w') →
  ∃ users',
    credentials w' users' ∧ users ⊆ users'
    ∧ match r with
      | Ok (Some u) => is_Some (users' !! u)
      | Ok None => True
      | Raise e => e = EOFError ∧ stdin w' = []
      end.
Proof.
  induction fuel as [|fuel IH]; intros w users r w' Hc; [done|].
  rewrite run_app_loop_S. destruct (stdin w) as [|line rest] eqn:Hin.
  { intros [= <- <-]. exists users. split_and!; [by apply (credentials_ext w)|done..]. }
  cbv zeta.
  assert (credentials (set_stdin rest (emits welcome_text w)) users) as Hc1
    by by apply (credentials_ext w).
  repeat case_bool_decide.
  - destruct (login_user _) as [[[v|]|e] w2] eqn:El;
      pose proof (login_user_result _ _ _ _ Hc1 El) as Hr;
      destruct (changes_nothing_written _ _ (keeps_login_user _ _ _ _ El)) as [Hf _];
      assert (credentials w2 users) as Hc2
        by (eapply (changes_credentials (λ _, False));
            [by eapply keeps_login_user|tauto|done]).
    + intros [= <- <-]. by exists users.
    + by apply IH.
    + intros [= <- <-]. by exists users.
  - destruct (register_user _) as [[b|e] w2] eqn:Er;
      destruct (register_user_preserves _ _ _ _ Hc1 Er) as (users2 & Hc2 & Hsub).
    + intros E. destruct (IH _ _ _ _ Hc2 E) as (users' & Hc' & Hsub' & Hr).
      exists users'. split_and!; [done| |done]. by etrans.
    + intros [= <- <-]. exists users2. do 2 (split; [done|]).
      exact (register_user_raise _ _ _ _ Hc1 Er).
  - intros [= <- <-]. exists users. split_and!; [by apply (credentials_ext w)|done..].
  - apply IH. by apply (credentials_ext w).
Qed.

Lemma run_app_fuel w fuel :
  (length (stdin w) < fuel)%nat →
  run_app w
  = match run_app_loop fuel w with
    | None => None
    | Some (Raise e, w') => Some (Raise e, w')
    | Some (Ok None, w') => Some (Ok tt, w')
    | Some (Ok (Some current_user), w') =>
        if is_empty current_user then Some (Ok tt, w')
        else main_menu current_user w'
    end.
Proof.
  intros Hlen. unfold run_app.
  by rewrite (run_app_loop_fuel w (S (length (stdin w))) fuel) by lia.
Qed.

Lemma run_app_cases w r w' :
  run_app w = Some (r, w') →
  ∃ r1 w1,
    run_app_loop (S (length (stdin w))) w = Some (r1, w1)
    ∧ match r1 with
      | Raise e => r = Raise e ∧ w' = w1
      | Ok None => r = Ok tt ∧ w' = w1
      | Ok (Some u) =>
          if is_empty u then r = Ok tt ∧ w' = w1
          else main_menu u w1 = Some (r, w')
      end.
Proof.
  unfold run_app.
  destruct (run_app_loop _ w) as [[[[u|]|e] w1]|]; [| | |done].
  - intros E. exists (Ok (Some u)), w1. split; [done|].
    destruct (is_empty u); [by injection E as <- <-|done].
  - intros [= <- <-]. by exists (Ok None), w1.
  - intros [= <- <-]. by exists (Raise e), w1.
Qed.

(** X20: [run_app] ends on every input: one unit of fuel per input line,
    and one more, is enough for the login loop and for the task menu
    after it.  It reads input from the front and only adds output. *)
Theorem run_app_terminates (w : world) :
  ∃ r w',
    run_app w = Some (r, w')
    ∧ stdin w' `suffix_of` stdin w ∧ stdout w `prefix_of` stdout w'.
Proof.
  destruct (run_app_loop_enough (S (length (stdin w))) w) as [[r1 w1] E1]; [lia|].
  destruct (run_app_loop_changes _ _ _ _ E1) as (Hi1 & Ho1 & _).
  unfold run_app. rewrite E1.
  destruct r1 as [[u|]|e]; [|by eexists _, _..].
  destruct (is_empty u); [by eexists _, _|].
  destruct (main_menu_loop_enough u (S (length (stdin w1))) w1) as [[r w'] E2]; [lia|].
  destruct (main_menu_loop_changes _ _ _ _ _ E2) as (Hi2 & Ho2 & _).
  exists r, w'. split_and!; [done|by etrans..].
Qed.

Lemma invalid_welcomes_cons line bad :
  invalid_welcomes (line :: bad)
  = welcome_text ++ ["Invalid choice. Please try again."] ++ invalid_welcomes bad.
Proof. unfold invalid_welcomes. by rewrite bind_cons, <- app_assoc. Qed.

Lemma not_auth_choice line :
  strip line ∉ ["1"; "2"; "3"] →
  strip line ≠ "1" ∧ strip line ≠ "2" ∧ strip line ≠ "3".
Proof. rewrite !elem_of_cons, elem_of_nil. tauto. Qed.

Lemma run_app_loop_exit rest c3 bad : ∀ w fuel,
  stdin w = bad ++ c3 :: rest →
  Forall (λ line, strip line ∉ ["1"; "2"; "3"]) bad →
  strip c3 = "3" → (length bad < fuel)%nat →
  run_app_loop fuel w
  = Some (Ok None,
          set_stdin rest
            (emits (invalid_welcomes bad ++ welcome_text
                    ++ ["Exiting application. Goodbye!"]) w)).
Proof.
  induction bad as [|line bad IH]; intros w fuel Hin Hbad H3 Hlen;
    (destruct fuel as [|fuel]; [simpl in Hlen; lia|]);
    simpl in Hin; rewrite run_app_loop_S, Hin; cbv beta iota zeta.
  - rewrite H3. simpl. do 2 f_equal. apply world_eq; simpl; try done.
    by rewrite <- !app_assoc.
  - apply Forall_cons in Hbad as [Hline Hbad].
    destruct (not_auth_choice _ Hline) as (N1 & N2 & N3).
    rewrite !bool_decide_false by done.
    rewrite (IH _ fuel); [|done|done|done|simpl in Hlen; lia].
    rewrite invalid_welcomes_cons.
    do 2 f_equal. apply world_eq; simpl; try done.
    by rewrite <- !app_assoc.
Qed.

(** X21: [run_app] answers every line that is none of its three choices
    with the menu and "Invalid choice. Please try again.", and the first
    line that strips to 3 ends the application with the goodbye line:
    nothing was written, and the lines after it are left unread. *)
Theorem run_app_exit (w : world) (bad : list string) (c3 : string)
    (rest : list string) :
  stdin w = bad ++ c3 :: rest →
  Forall (λ line, strip line ∉ ["1"; "2"; "3"]) bad →
  strip c3 = "3" →
  ∃ w',
    run_app w = Some (Ok tt, w')
    ∧ stdin w' = rest ∧ files w' = files w ∧ dirs w' = dirs w
    ∧ saved w' = saved w
    ∧ stdout w' = stdout w ++ invalid_welcomes bad ++ welcome_text
                  ++ ["Exiting application. Goodbye!"].
Proof.
  intros Hin Hbad H3. eexists. split.
  - unfold run_app. rewrite (run_app_loop_exit rest c3 bad); [done..|].
    rewrite Hin, length_app. simpl. lia.
  - by simpl.
Qed.

Lemma run_app_exit_witness :
  ∃ w',
    run_app (fresh ["x"; " 3"; "1"]) = Some (Ok tt, w')
    ∧ stdin w' = ["1"] ∧ saved w' = [].
Proof.
  destruct (run_app_exit (fresh ["x"; " 3"; "1"]) ["x"] " 3" ["1"])
    as (w' & E & Hin & _ & _ & Hs & _).
  - reflexivity.
  - apply Forall_cons_2; [|apply Forall_nil_2].
    intros H. rewrite !elem_of_cons, elem_of_nil in H. vm_compute in H.
    repeat (destruct H as [H|H]; [discriminate H|]). exact H.
  - reflexivity.
  - exists w'. split; [exact E|]. split; [exact Hin|exact Hs].
Defined.

Lemma run_app_loop_login w users c lu lp lines fuel :
  credentials w users → stdin w = c :: lu :: lp :: lines → strip c = "1" →
  run_app_loop (S fuel) w
  = if decide (users !! strip lu = Some (hash_password (strip lp)))
    then Some (Ok (Some (strip lu)),
               set_stdin lines
                 (emits (welcome_text
                         ++ ["Enter username: "; "Enter password: ";
                             "Welcome, " +:+ strip lu +:+ "!"]) w))
    else run_app_loop fuel
           (set_stdin lines
              (emits (welcome_text
                      ++ ["Enter username: "; "Enter password: ";
                          "Invalid username or password."]) w)).
Proof.
  intros Hc Hin H1. rewrite run_app_loop_S, Hin. cbv zeta.
  rewrite bool_decide_true by done.
  rewrite (login_user_spec _ users lu lp lines);
    [|by apply (credentials_ext w)|done].
  cbv zeta. destruct (decide _).
  - do 2 f_equal. apply world_eq; simpl; try done. by rewrite <- !app_assoc.
  - f_equal. apply world_eq; simpl; try done. by rewrite <- !app_assoc.
Qed.

(** X22: in [run_app], the choice 1 followed by a username and a password
    that match a stored account opens the task menu of the stripped
    username, and the result of the application is the result of that
    menu.  The one exception is an account whose name is empty: the
    login succeeds, but the application ends without the menu. *)
Theorem run_app_login (w : world) (users : gmap string string)
    (c lu lp : string) (lines : list string) :
  credentials w users → stdin w = c :: lu :: lp :: lines → strip c = "1" →
  users !! strip lu = Some (hash_password (strip lp)) →
  let w1 :=
    set_stdin lines
      (emits (welcome_text
              ++ ["Enter username: "; "Enter password: ";
                  "Welcome, " +:+ strip lu +:+ "!"]) w) in
  run_app w
  = if is_empty (strip lu) then Some (Ok tt, w1) else main_menu (strip lu) w1.
Proof.
  intros Hc Hin H1 Hm w1. unfold run_app.
  rewrite (run_app_loop_login w users c lu lp lines) by done.
  by rewrite decide_True by done.
Qed.

Lemma run_app_login_witness :
  ∃ w1,
    run_app
      (put_file USERS_FILE (json_of_users {[ "bob" := hash_password "pw" ]})
         (fresh [" 1"; "bob "; "pw"; "2"; "5"]))
    = main_menu "bob" w1
    ∧ stdin w1 = ["2"; "5"].
Proof.
  assert (strip "bob " = "bob") as Hb by reflexivity.
  assert (strip "pw" = "pw") as Hp by reflexivity.
  pose proof (run_app_login
                (put_file USERS_FILE (json_of_users {[ "bob" := hash_password "pw" ]})
                   (fresh [" 1"; "bob "; "pw"; "2"; "5"]))
                {[ "bob" := hash_password "pw" ]} " 1" "bob " "pw" ["2"; "5"]) as H.
  assert (is_empty "bob" = false) as He by reflexivity.
  cbv zeta in H. rewrite Hb, Hp, He in H.
  eexists. split.
  - apply H.
    + apply credentials_put.
    + reflexivity.
    + reflexivity.
    + apply lookup_singleton_eq.
  - reflexivity.
Defined.

(** X23: after a login, the logout ends the application: [run_app]
    returns with the lines after the logout unread and does not show the
    login menu again; nothing was written. *)
Theorem run_app_ends_at_logout (w : world) (users : gmap string string)
    (c lu lp c5 : string) (rest : list string) :
  credentials w users → stdin w = c :: lu :: lp :: c5 :: rest →
  strip c = "1" → users !! strip lu = Some (hash_password (strip lp)) →
  strip lu ≠ "" → strip c5 = "5" →
  ∃ w',
    run_app w = Some (Ok tt, w')
    ∧ stdin w' = rest ∧ files w' = files w ∧ saved w' = saved w
    ∧ stdout w' = stdout w ++ welcome_text
                  ++ ["Enter username: "; "Enter password: ";
                      "Welcome, " +:+ strip lu +:+ "!"]
                  ++ menu_text ++ ["Logging out..."].
Proof.
  intros Hc Hin H1 Hm Hu H5. eexists. split.
  - unfold run_app.
    rewrite (run_app_loop_login w users c lu lp (c5 :: rest)) by done.
    rewrite decide_True by done.
    rewrite (proj2 (is_empty_false _) Hu).
    apply (main_menu_loop_logout (strip lu) rest c5 []); [done|done|done|simpl; lia].
  - simpl. split_and!; try done. by rewrite <- !app_assoc.
Qed.

Lemma run_app_ends_at_logout_witness :
  ∃ w',
    run_app
      (put_file USERS_FILE (json_of_users {[ "bob" := hash_password "pw" ]})
         (fresh ["1"; "bob"; "pw"; "5"; "1"; "bob"; "pw"]))
    = Some (Ok tt, w')
    ∧ stdin w' = ["1"; "bob"; "pw"].
Proof.
  destruct (run_app_ends_at_logout
              (put_file USERS_FILE (json_of_users {[ "bob" := hash_password "pw" ]})
                 (fresh ["1"; "bob"; "pw"; "5"; "1"; "bob"; "pw"]))
              {[ "bob" := hash_password "pw" ]} "1" "bob" "pw" "5" ["1"; "bob"; "pw"])
    as (w' & E & Hin & _).
  - apply credentials_put.
  - reflexivity.
  - reflexivity.
  - change (strip "bob") with "bob". change (strip "pw") with "pw".
    apply lookup_singleton_eq.
  - change (strip "bob") with "bob". discriminate.
  - reflexivity.
  - exists w'. split; [exact E|exact Hin].
Defined.

Lemma run_app_next w fuel w1 :
  (length (stdin w) < fuel)%nat → (length (stdin w1) < fuel)%nat →
  (∀ fuel', run_app_loop (S fuel') w = run_app_loop fuel' w1) →
  run_app w = run_app w1.
Proof.
  intros H H1 Hturn.
  rewrite (run_app_fuel w (S fuel)) by lia. rewrite Hturn.
  by rewrite (run_app_fuel w1 fuel) by lia.
Qed.

(** X24: [run_app] shows its menu again, and goes on as from a fresh
    start on the input that is left, after a login that failed, after a
    registration, successful or not, and after a line that is none of its
    three choices. *)
Theorem run_app_again (w : world) (c : string) (rest : list string) :
  stdin w = c :: rest →
  let w0 := set_stdin rest (emits welcome_text w) in
  (strip c = "1" → ∀ w1, login_user w0 = (Ok None, w1) → run_app w = run_app w1)
  ∧ (strip c = "2" →
     ∀ b w1, register_user w0 = (Ok b, w1) → run_app w = run_app w1)
  ∧ (strip c ∉ ["1"; "2"; "3"] →
     run_app w = run_app (emit "Invalid choice. Please try again." w0)).
Proof.
  intros Hin w0. split_and!.
  - intros H1 w1 El. apply (run_app_next w (S (S (length rest)))).
    + rewrite Hin. simpl. lia.
    + apply (keeps_login_user (λ _, False)) in El.
      apply changes_stdin_length in El. simpl in El. lia.
    + intros fuel'. rewrite run_app_loop_S, Hin. cbv zeta.
      rewrite bool_decide_true by done. fold w0. by rewrite El.
  - intros H2 b w1 Er. apply (run_app_next w (S (S (length rest)))).
    + rewrite Hin. simpl. lia.
    + apply keeps_register_user in Er.
      apply changes_stdin_length in Er. simpl in Er. lia.
    + intros fuel'. rewrite run_app_loop_S, Hin. cbv zeta.
      rewrite bool_decide_false by (rewrite H2; discriminate).
      rewrite bool_decide_true by done. fold w0. by rewrite Er.
  - intros Hc. destruct (not_auth_choice _ Hc) as (N1 & N2 & N3).
    apply (run_app_next w (S (S (length rest)))).
    + rewrite Hin. simpl. lia.
    + simpl. lia.
    + intros fuel'. rewrite run_app_loop_S, Hin. cbv zeta.
      by rewrite !bool_decide_false by done.
Qed.

Lemma run_app_again_witness :
  run_app (fresh ["7"; "3"])
  = run_app (emit "Invalid choice. Please try again."
               (set_stdin ["3"] (emits welcome_text (fresh ["7"; "3"])))).
Proof.
  destruct (run_app_again (fresh ["7"; "3"]) "7" ["3"] eq_refl) as (_ & _ & H).
  apply H. intros Hc. rewrite !elem_of_cons, elem_of_nil in Hc. vm_compute in Hc.
  repeat (destruct Hc as [Hc|Hc]; [discriminate Hc|]). exact Hc.
Defined.

(** X25: a whole run of the application, whatever is typed, keeps every
    account with its stored hash, and writes two kinds of file only: the
    credentials file, and the task file of a user who has an account. *)
Theorem run_app_keeps_accounts (w : world) (users : gmap string string)
    (r : res unit) (w' : world) :
  credentials w users → run_app w = Some (r, w') →
  ∃ users',
    credentials w' users' ∧ users ⊆ users'
    ∧ ∃ l, saved w' = saved w ++ l
           ∧ Forall (λ p, p = USERS_FILE
                          ∨ ∃ u, is_Some (users' !! u) ∧ p = tasks_path u) l.
Proof.
  intros Hc E.
  destruct (run_app_cases _ _ _ E) as (r1 & w1 & E1 & Hr).
  destruct (run_app_loop_accounts _ _ _ _ _ Hc E1) as (users1 & Hc1 & Hsub & Hu).
  destruct (run_app_loop_changes _ _ _ _ E1) as (_ & _ & _ & _ & _ & l1 & Hs1 & Hl1).
  assert (Forall (λ p, p = USERS_FILE
                       ∨ ∃ u, is_Some (users1 !! u) ∧ p = tasks_path u) l1) as Hl1'.
  { eapply Forall_impl; [exact Hl1|]. intros p ->. by left. }
  assert (r1 = r1 → w' = w1 → ∃ users',
            credentials w' users' ∧ users ⊆ users'
            ∧ ∃ l, saved w' = saved w ++ l
                   ∧ Forall (λ p, p = USERS_FILE
                                  ∨ ∃ u, is_Some (users' !! u) ∧ p = tasks_path u) l)
    as Hsame.
  { intros _ ->. exists users1. split_and!; [done..|]. by exists l1. }
  destruct r1 as [[u|]|e]; [|destruct Hr as [_ ->]; by apply Hsame..].
  destruct (is_empty u); [destruct Hr as [_ ->]; by apply Hsame|].
  pose proof (main_menu_loop_changes _ _ _ _ _ Hr) as Hch.
  exists users1. split_and!; [|done|].
  - eapply changes_credentials; [exact Hch| |done].
    intros H. by apply (tasks_path_not_users u).
  - destruct Hch as (_ & _ & _ & _ & _ & l2 & Hs2 & Hl2).
    exists (l1 ++ l2). split; [by rewrite Hs2, Hs1, app_assoc|].
    apply Forall_app. split; [done|].
    eapply Forall_impl; [exact Hl2|]. intros p ->. right. by exists u.
Qed.

Lemma run_app_keeps_accounts_witness :
  ∃ r w' users',
    run_app
      (put_file USERS_FILE (json_of_users {[ "bob" := hash_password "pw" ]})
         (fresh ["2"; "eve"; "x"; "1"; "eve"; "x"; "1"; "t"]))
    = Some (r, w')
    ∧ credentials w' users' ∧ users' !! "bob" = Some (hash_password "pw").
Proof.
  assert (is_Some (run_app
            (put_file USERS_FILE (json_of_users {[ "bob" := hash_password "pw" ]})
               (fresh ["2"; "eve"; "x"; "1"; "eve"; "x"; "1"; "t"]))))
    as [[r w'] E].
  { destruct (run_app_loop_enough 9
                (put_file USERS_FILE (json_of_users {[ "bob" := hash_password "pw" ]})
                   (fresh ["2"; "eve"; "x"; "1"; "eve"; "x"; "1"; "t"])))
      as [[[[u|]|e] w1] E1]; [simpl; lia|unfold run_app; simpl length; rewrite E1..].
    - destruct (is_empty u); [by eexists|]. apply main_menu_loop_enough. lia.
    - by eexists.
    - by eexists. }
  destruct (run_app_keeps_accounts
              (put_file USERS_FILE (json_of_users {[ "bob" := hash_password "pw" ]})
                 (fresh ["2"; "eve"; "x"; "1"; "eve"; "x"; "1"; "t"]))
              {[ "bob" := hash_password "pw" ]} r w')
    as (users' & Hc' & Hsub & _).
  - apply credentials_put.
  - exact E.
  - exists r, w', users'. split; [exact E|]. split; [exact Hc'|].
    eapply lookup_weaken; [apply lookup_singleton_eq|exact Hsub].
Defined.



(** X27: during a whole run of the application the task list of every
    user moves by steps of the three saving commands only: ids that
    increase along the stored list at the start still do at the end,
    whoever logged in and whatever was typed. *)
Theorem run_app_keeps_ids_increasing (w : world) (u : string) (ts : list task)
    (r : res unit) (w' : world) :
  task_list u w ts → ids_increase ts → run_app w = Some (r, w') →
  ∃ ts',
    task_list u w' ts' ∧ rtc some_step ts ts'
    ∧ ids_increase ts' ∧ NoDup (id <$> ts').
Proof.
  intros Hts Hinc E.
  destruct (run_app_cases _ _ _ E) as (r1 & w1 & E1 & Hr).
  assert (task_list u w1 ts) as Hts1.
  { eapply changes_task_list; [by eapply run_app_loop_changes| |done].
    apply tasks_path_not_users. }
  assert (r1 = r1 → w' = w1 → ∃ ts',
            task_list u w' ts' ∧ rtc some_step ts ts'
            ∧ ids_increase ts' ∧ NoDup (id <$> ts')) as Hsame.
  { intros _ ->. exists ts. split_and!; [done..|]. by apply sorted_lt_NoDup. }
  destruct r1 as [[v|]|e]; [|destruct Hr as [_ ->]; by apply Hsame..].
  destruct (is_empty v); [destruct Hr as [_ ->]; by apply Hsame|].
  destruct (decide (v = u)) as [->|Hne].
  - destruct (main_menu_loop_steps _ _ _ _ _ _ Hts1 Hr) as (ts' & Hts' & Hrtc & _).
    exists ts'. pose proof (rtc_some_step_ids_increase _ _ Hrtc Hinc) as Hinc'.
    split_and!; try done. by apply sorted_lt_NoDup.
  - exists ts. split_and!; [|done|done|by apply sorted_lt_NoDup].
    eapply changes_task_list; [by eapply main_menu_loop_changes| |done].
    intros H. by apply Hne, eq_sym, tasks_path_inj.
Qed.

Lemma run_app_keeps_ids_increasing_witness :
  ∃ r w' ts',
    run_app
      (put_file (tasks_path "bob")
         (json_of_tasks [Task 2 "a" "Pending"; Task 5 "b" "Completed"])
         (fresh ["2"; "bob"; "pw"; "1"; "bob"; "pw"; "1"; "c"; "4"; "2"]))
    = Some (r, w')
    ∧ task_list "bob" w' ts' ∧ NoDup (id <$> ts').
Proof.
  assert (is_Some (run_app
            (put_file (tasks_path "bob")
               (json_of_tasks [Task 2 "a" "Pending"; Task 5 "b" "Completed"])
               (fresh ["2"; "bob"; "pw"; "1"; "bob"; "pw"; "1"; "c"; "4"; "2"]))))
    as [[r w'] E].
  { destruct (run_app_loop_enough 11
                (put_file (tasks_path "bob")
                   (json_of_tasks [Task 2 "a" "Pending"; Task 5 "b" "Completed"])
                   (fresh ["2"; "bob"; "pw"; "1"; "bob"; "pw"; "1"; "c"; "4"; "2"])))
      as [[[[u|]|e] w1] E1]; [simpl; lia|unfold run_app; simpl length; rewrite E1..].
    - destruct (is_empty u); [by eexists|]. apply main_menu_loop_enough. lia.
    - by eexists.
    - by eexists. }
  destruct (run_app_keeps_ids_increasing
              (put_file (tasks_path "bob")
                 (json_of_tasks [Task 2 "a" "Pending"; Task 5 "b" "Completed"])
                 (fresh ["2"; "bob"; "pw"; "1"; "bob"; "pw"; "1"; "c"; "4"; "2"]))
              "bob" [Task 2 "a" "Pending"; Task 5 "b" "Completed"] r w')
    as (ts' & Hts' & _ & _ & Hnd).
  - apply task_list_put.
  - repeat constructor.
  - exact E.
  - exists r, w', ts'. split; [exact E|]. split; [exact Hts'|exact Hnd].
Defined.

(** ** The stored hash *)





(** * Lines beyond code point 255 *)

Lemma wide_world_eq (w1 w2 : Wide.world) :
  Wide.users_file w1 = Wide.users_file w2 → Wide.stdin w1 = Wide.stdin w2 →
  Wide.stdout w1 = Wide.stdout w2 → w1 = w2.
Proof. destruct w1, w2; simpl; intros; subst; reflexivity. Qed.

Lemma wide_login_user_eof w :
  match Wide.stdin w with [] | [_] => True | _ => False end →
  ∃ w', Wide.login_user w = (Wide.Raise Wide.EOFError, w')
        ∧ Wide.users_file w' = Wide.users_file w ∧ Wide.stdin w' = [].
Proof.
  destruct w as [f [|l1 [|l2 rest]] out]; simpl; [| |done]; intros _.
  - exists (Wide.World f [] (out ++ [Wide.of_string "Enter username: "])).
    split; [reflexivity|done].
  - exists (Wide.World f []
              ((out ++ [Wide.of_string "Enter username: "])
               ++ [Wide.of_string "Enter password: "])).
    split; [reflexivity|done].
Qed.

Lemma wide_login_user_spec w l1 l2 rest :
  Wide.stdin w = l1 :: l2 :: rest →
  Wide.login_user w
  = let w2 := Wide.World (Wide.users_file w) rest
                (Wide.stdout w ++ [Wide.of_string "Enter username: ";
                                   Wide.of_string "Enter password: "]) in
    match default ∅ (Wide.users_file w) !! Wide.strip l1 with
    | None =>
        (Wide.Ok None, Wide.emit (Wide.of_string "Invalid username or password.") w2)
    | Some stored =>
        match Wide.encode (Wide.strip l2) with
        | None => (Wide.Raise Wide.UnicodeEncodeError, w2)
        | Some bytes =>
            if bool_decide (stored = Wide.of_string (Sha256.hexdigest bytes))
            then (Wide.Ok (Some (Wide.strip l1)),
                  Wide.emit (Wide.of_string "Welcome, " ++ Wide.strip l1
                             ++ Wide.of_string "!") w2)
            else (Wide.Ok None,
                  Wide.emit (Wide.of_string "Invalid username or password.") w2)
        end
    end.
Proof.
  destruct w as [f inp out]. simpl. intros ->.
  unfold Wide.login_user, Wide.load_users, Wide.input, Wide.hash_password,
    Wide.print, Wide.raise, mbind, mret, Wide.M_bind, Wide.M_ret. simpl.
  rewrite <- !app_assoc. simpl.
  destruct (default ∅ f !! Wide.strip l1) as [stored|]; [|reflexivity].
  destruct (Wide.encode (Wide.strip l2)) as [bytes|]; [|reflexivity].
  simpl. by case_bool_decide.
Qed.

(** C2, at the failing input.  The store holds the account alice; the
    password line is the letter p followed by the lone surrogate U+DCFF.
    With the username alice the login ends in [UnicodeEncodeError]; with
    a username that has no account it prints the failure message and
    returns [None].  The two failure causes are told apart. *)
Theorem login_error_reveals_username :
  let users : gmap Wide.str Wide.str :=
    {[ Wide.of_string "alice" := Wide.of_string (hash_password "secret1") ]} in
  let password : Wide.str := [112; 0xdcff] in
  let prompts := [Wide.of_string "Enter username: "; Wide.of_string "Enter password: "] in
  Wide.login_user (Wide.World (Some users) [Wide.of_string "alice"; password] [])
  = (Wide.Raise Wide.UnicodeEncodeError, Wide.World (Some users) [] prompts)
  ∧ Wide.login_user (Wide.World (Some users) [Wide.of_string "nobody"; password] [])
    = (Wide.Ok None,
       Wide.World (Some users) []
         (prompts ++ [Wide.of_string "Invalid username or password."])).
Proof. cbv zeta. split; vm_compute; reflexivity. Qed.

(** X3: [login_user] on lines of arbitrary code points.  It never changes
    the store.  With fewer than two lines of input it raises [EOFError];
    otherwise it reads exactly two lines, and the outcome is one of four:
    [None] when the stripped username has no account; [UnicodeEncodeError]
    when it has one and the stripped password cannot be encoded; the
    stripped username when the stored hash is that of the password; and
    [None] when the hash differs. *)
Theorem login_user_outcomes (w : Wide.world) (r : Wide.res (option Wide.str))
    (w' : Wide.world) :
  Wide.login_user w = (r, w') →
  Wide.users_file w' = Wide.users_file w
  ∧ match Wide.stdin w with
    | l1 :: l2 :: rest =>
        Wide.stdin w' = rest
        ∧ match default ∅ (Wide.users_file w) !! Wide.strip l1 with
          | None => r = Wide.Ok None
          | Some stored =>
              match Wide.encode (Wide.strip l2) with
              | None => r = Wide.Raise Wide.UnicodeEncodeError
              | Some bytes =>
                  if decide (stored = Wide.of_string (Sha256.hexdigest bytes))
                  then r = Wide.Ok (Some (Wide.strip l1))
                  else r = Wide.Ok None
              end
          end
    | _ => r = Wide.Raise Wide.EOFError
    end.
Proof.
  intros E. destruct (Wide.stdin w) as [|l1 [|l2 rest]] eqn:Hin.
  - destruct (wide_login_user_eof w) as (w1 & E1 & Hf & _); [by rewrite Hin|].
    rewrite E1 in E. by injection E as <- <-.
  - destruct (wide_login_user_eof w) as (w1 & E1 & Hf & _); [by rewrite Hin|].
    rewrite E1 in E. by injection E as <- <-.
  - rewrite (wide_login_user_spec w l1 l2 rest Hin) in E. cbv zeta in E.
    destruct (default ∅ (Wide.users_file w) !! Wide.strip l1) as [stored|].
    + destruct (Wide.encode (Wide.strip l2)) as [bytes|].
      * destruct (decide _) as [Hs|Hs].
        -- rewrite bool_decide_true in E by done. by injection E as <- <-.
        -- rewrite bool_decide_false in E by done. by injection E as <- <-.
      * by injection E as <- <-.
    + by injection E as <- <-.
Qed.

Lemma login_user_outcomes_witness :
  ∃ w', Wide.login_user (Wide.World None [[112]; [0xdcff]] [])
        = (Wide.Ok None, w')
        ∧ Wide.stdin w' = [].
Proof.
  destruct (Wide.login_user (Wide.World None [[112]; [0xdcff]] [])) as [r w'] eqn:E.
  destruct (login_user_outcomes _ r w' E) as (_ & Hr).
  cbn [Wide.stdin Wide.users_file default] in Hr. rewrite lookup_empty in Hr.
  destruct Hr as [Hin ->]. exists w'. split; [reflexivity|exact Hin].
Defined.

(** X29: where the password can be encoded, a wrong password for a
    username that has an account and any password for a username that
    has none end alike: both return [None], both print the one message
    "Invalid username or password.", and the final worlds are equal.
    The password given with the unknown username is not looked at. *)
Theorem login_failures_alike_when_encodable (f : option (gmap Wide.str Wide.str))
    (u1 p1 u2 p2 stored : Wide.str) (bytes : list Z)
    (rest out : list Wide.str) :
  default ∅ f !! Wide.strip u1 = Some stored →
  Wide.encode (Wide.strip p1) = Some bytes →
  stored ≠ Wide.of_string (Sha256.hexdigest bytes) →
  default ∅ f !! Wide.strip u2 = None →
  let w' := Wide.World f rest
              (out ++ [Wide.of_string "Enter username: ";
                       Wide.of_string "Enter password: ";
                       Wide.of_string "Invalid username or password."]) in
  Wide.login_user (Wide.World f (u1 :: p1 :: rest) out) = (Wide.Ok None, w')
  ∧ Wide.login_user (Wide.World f (u2 :: p2 :: rest) out) = (Wide.Ok None, w').
Proof.
  intros H1 He Hne H2 w'. split.
  - rewrite (wide_login_user_spec _ u1 p1 rest) by done. cbv zeta. simpl.
    rewrite H1, He, bool_decide_false by done.
    f_equal. apply wide_world_eq; simpl; try done. by rewrite <- app_assoc.
  - rewrite (wide_login_user_spec _ u2 p2 rest) by done. cbv zeta. simpl.
    rewrite H2. f_equal. apply wide_world_eq; simpl; try done.
    by rewrite <- app_assoc.
Qed.

Lemma login_failures_alike_when_encodable_witness :
  let f : option (gmap Wide.str Wide.str) :=
    Some {[ Wide.of_string "alice" := Wide.of_string (hash_password "secret1") ]} in
  Wide.login_user (Wide.World f [Wide.of_string "alice"; Wide.of_string "wrong"] [])
  = Wide.login_user (Wide.World f [Wide.of_string "mallory"; [0xdcff]] []).
Proof.
  cbv zeta.
  destruct (login_failures_alike_when_encodable
              (Some {[ Wide.of_string "alice"
                       := Wide.of_string (hash_password "secret1") ]})
              (Wide.of_string "alice") (Wide.of_string "wrong")
              (Wide.of_string "mallory") [0xdcff]
              (Wide.of_string (hash_password "secret1")) (encode "wrong") [] [])
    as [H1 H2].
  - apply lookup_singleton_eq.
  - reflexivity.
  - vm_compute. discriminate.
  - apply lookup_singleton_ne. vm_compute. discriminate.
  - exact (eq_trans H1 (eq_sym H2)).
Defined.

(** ** The login on lines below 256 *)

Lemma ord_inj c1 c2 : ord c1 = ord c2 → c1 = c2.
Proof.
  unfold ord. intros H. apply N2Z.inj in H.
  rewrite <- (Ascii.ascii_N_embedding c1), <- (Ascii.ascii_N_embedding c2).
  by rewrite H.
Qed.

Global Instance of_string_inj : Inj (=) (=) Wide.of_string.
Proof.
  intros s. induction s as [|c s IH]; intros [|c' s']; simpl; try done.
  intros [= Hc Hs]. f_equal; [by apply ord_inj|by apply IH].
Qed.

Lemma of_string_app s t :
  Wide.of_string (s +:+ t) = Wide.of_string s ++ Wide.of_string t.
Proof. induction s as [|c s IH]; simpl; [done|]. by rewrite IH. Qed.

Lemma wide_isspace_ord c : Wide.isspace (ord c) = isspace c.
Proof. destruct c as [[] [] [] [] [] [] [] []]; reflexivity. Qed.

Lemma wide_encode_point_ord c :
  Wide.encode_point (ord c)
  = Some (if ord c <? 128 then [ord c]
          else [Z.lor 0xc0 (Z.shiftr (ord c) 6); Z.lor 0x80 (Z.land (ord c) 0x3f)]).
Proof. destruct c as [[] [] [] [] [] [] [] []]; reflexivity. Qed.

Lemma wide_encode_of_string s : Wide.encode (Wide.of_string s) = Some (encode s).
Proof.
  induction s as [|c s IH]; [done|].
  cbn [Wide.of_string Wide.encode encode]. rewrite wide_encode_point_ord, IH.
  cbv zeta. by destruct (ord c <? 128).
Qed.

Lemma wide_lstrip_of_string s :
  Wide.lstrip (Wide.of_string s) = Wide.of_string (lstrip_by isspace s).
Proof.
  induction s as [|c s IH]; [done|]. simpl. rewrite wide_isspace_ord.
  by destruct (isspace c).
Qed.

Lemma wide_rstrip_of_string s :
  Wide.rstrip (Wide.of_string s) = Wide.of_string (rstrip_by isspace s).
Proof.
  induction s as [|c s IH]; [done|]. simpl. rewrite IH, wide_isspace_ord.
  destruct (rstrip_by isspace s); simpl; [by destruct (isspace c)|done].
Qed.

Lemma wide_strip_of_string s :
  Wide.strip (Wide.of_string s) = Wide.of_string (strip s).
Proof.
  unfold Wide.strip, strip, strip_by.
  by rewrite wide_lstrip_of_string, wide_rstrip_of_string.
Qed.

Lemma widen_lookup users w k :
  credentials w users →
  default ∅ (Wide.users_file (widen users w)) !! Wide.of_string k
  = Wide.of_string <$> users !! k.
Proof.
  intros Hc. unfold widen. cbn [Wide.users_file].
  destruct (path_exists USERS_FILE w) eqn:He.
  - change (default ∅ (Some ?m)) with m.
    rewrite lookup_kmap; [|apply of_string_inj]. by rewrite lookup_fmap.
  - change (default ∅ None) with (∅ : gmap Wide.str Wide.str).
    destruct Hc as [[_ ->]|Hf]; [by rewrite !lookup_empty|].
    unfold path_exists in He. rewrite Hf in He.
    rewrite bool_decide_true in He by eauto. done.
Qed.

Lemma widen_ext users w w' :
  files w' = files w → dirs w' = dirs w →
  Wide.users_file (widen users w') = Wide.users_file (widen users w).
Proof.
  intros Hf Hd. unfold widen. cbn [Wide.users_file].
  by rewrite (path_exists_files _ _ _ Hf Hd).
Qed.

Lemma wide_login_user_nil f out :
  Wide.login_user (Wide.World f [] out)
  = (Wide.Raise Wide.EOFError,
     Wide.World f [] (out ++ [Wide.of_string "Enter username: "])).
Proof. reflexivity. Qed.

Lemma wide_login_user_one f l1 out :
  Wide.login_user (Wide.World f [l1] out)
  = (Wide.Raise Wide.EOFError,
     Wide.World f [] ((out ++ [Wide.of_string "Enter username: "])
                      ++ [Wide.of_string "Enter password: "])).
Proof. reflexivity. Qed.

(** On lines below 256 the login on arbitrary lines is the login of the
    model above: same lines read, same output, same result. *)
Lemma login_user_widens w users r w' :
  credentials w users → login_user w = (r, w') →
  Wide.login_user (widen users w)
  = (match r with
     | Ok o => Wide.Ok (Wide.of_string <$> o)
     | Raise _ => Wide.Raise Wide.EOFError
     end, widen users w').
Proof.
  intros Hc E. destruct (stdin w) as [|l1 [|l2 rest]] eqn:Hin.
  - unfold login_user in E.
    rewrite (bind_Ok _ _ _ _ _ (load_users_spec _ _ Hc)) in E.
    erewrite bind_Raise in E by by apply input_eof. injection E as <- <-.
    unfold widen at 1. rewrite Hin. cbn [fmap list_fmap].
    rewrite wide_login_user_nil. f_equal.
    apply wide_world_eq; cbn; [done|by rewrite Hin|by rewrite fmap_app].
  - unfold login_user in E.
    rewrite (bind_Ok _ _ _ _ _ (load_users_spec _ _ Hc)) in E.
    erewrite bind_Ok in E by by apply input_line.
    erewrite bind_Raise in E by by apply input_eof. injection E as <- <-.
    unfold widen at 1. rewrite Hin. cbn [fmap list_fmap].
    rewrite wide_login_user_one. f_equal.
    apply wide_world_eq; cbn; [done..|by rewrite !fmap_app].
  - rewrite (login_user_spec _ users l1 l2 rest Hc Hin) in E. cbv zeta in E.
    rewrite (wide_login_user_spec _ (Wide.of_string l1) (Wide.of_string l2)
               (Wide.of_string <$> rest))
      by (unfold widen; cbn [Wide.stdin]; by rewrite Hin).
    cbv zeta. rewrite !wide_strip_of_string, widen_lookup by done.
    rewrite wide_encode_of_string.
    destruct (decide _) as [Hm|Hm]; injection E as <- <-.
    + rewrite Hm. cbn [fmap option_fmap option_map].
      rewrite bool_decide_true by done.
      f_equal. apply wide_world_eq; cbn; try done.
      * rewrite !fmap_app, <- !app_assoc. cbn [fmap list_fmap].
        rewrite !of_string_app. reflexivity.
    + destruct (users !! strip l1) as [h|] eqn:Hu; cbn [fmap option_fmap option_map].
      * rewrite bool_decide_false
          by (intros Heq; apply (inj Wide.of_string) in Heq;
              unfold hash_password in Hm; congruence).
        f_equal. apply wide_world_eq; cbn; try done.
        rewrite !fmap_app, <- !app_assoc. reflexivity.
      * f_equal. apply wide_world_eq; cbn; try done.
        rewrite !fmap_app, <- !app_assoc. reflexivity.
Qed.

(** * The file helpers on a directory tree *)

Lemma posix_bind_Ok {A B} (m : Posix.M A) (f : A → Posix.M B) d a d' :
  m d = (Posix.Ok a, d') → (m ≫= f) d = f a d'.
Proof. unfold mbind, Posix.M_bind. by intros ->. Qed.

Lemma posix_bind_Raise {A B} (m : Posix.M A) (f : A → Posix.M B) d e d' :
  m d = (Posix.Raise e, d') → (m ≫= f) d = (Posix.Raise e, d').
Proof. unfold mbind, Posix.M_bind. by intros ->. Qed.

Lemma posix_resolve_users d :
  Posix.resolve USERS_FILE d = inr (Posix.cwd d ++ [USERS_FILE]).
Proof. reflexivity. Qed.

Lemma posix_resolve_tasks_dir d :
  Posix.resolve TASKS_DIR d = inr (Posix.cwd d ++ [TASKS_DIR]).
Proof. reflexivity. Qed.

Lemma posix_get_user_tasks_file u d :
  Posix.get_user_tasks_file u d = (Posix.Ok (tasks_path u), Posix.with_tasks_dir d).
Proof.
  unfold Posix.get_user_tasks_file, Posix.os_path_exists, Posix.os_makedirs,
    Posix.with_tasks_dir, mbind, mret, Posix.M_bind, Posix.M_ret.
  rewrite posix_resolve_tasks_dir.
  destruct (Posix.lookup _ d) eqn:E; cbn [negb]; cbv beta iota;
    rewrite ?posix_resolve_tasks_dir, ?E; reflexivity.
Qed.

Lemma posix_lookup_put l doc d x :
  Posix.lookup l d ≠ Posix.Dir →
  Posix.lookup x (Posix.put l doc d)
  = if decide (x = l) then Posix.File doc else Posix.lookup x d.
Proof.
  unfold Posix.lookup, Posix.put. cbn [Posix.dirs Posix.files]. intros Hl.
  destruct (decide (x = l)) as [->|Hne].
  - case_bool_decide; [done|]. by rewrite lookup_insert_eq.
  - by rewrite lookup_insert_ne.
Qed.

Lemma posix_lookup_with_tasks_dir d x :
  Posix.lookup x d ≠ Posix.Missing →
  Posix.lookup x (Posix.with_tasks_dir d) = Posix.lookup x d.
Proof.
  unfold Posix.with_tasks_dir.
  destruct (Posix.lookup (Posix.cwd d ++ [TASKS_DIR]) d) eqn:E; [|done..].
  unfold Posix.lookup in *. cbn [Posix.dirs Posix.files].
  intros Hx. repeat case_bool_decide; try done; set_solver.
Qed.

Lemma posix_with_tasks_dir_there d :
  Posix.lookup (Posix.cwd d ++ [TASKS_DIR]) (Posix.with_tasks_dir d) ≠ Posix.Missing.
Proof.
  unfold Posix.with_tasks_dir.
  destruct (Posix.lookup (Posix.cwd d ++ [TASKS_DIR]) d) eqn:E;
    [|by rewrite E..].
  unfold Posix.lookup. cbn [Posix.dirs Posix.cwd].
  rewrite bool_decide_true; [done|]. right. set_solver.
Qed.

Lemma posix_with_tasks_dir_id d :
  Posix.lookup (Posix.cwd d ++ [TASKS_DIR]) d ≠ Posix.Missing →
  Posix.with_tasks_dir d = d.
Proof. unfold Posix.with_tasks_dir. by destruct (Posix.lookup _ d). Qed.

(** Following directories gives the same place on a disk that has kept
    every directory. *)
Lemma posix_walk_stable d d' names : ∀ l r,
  (∀ x, Posix.lookup x d = Posix.Dir → Posix.lookup x d' = Posix.Dir) →
  Posix.walk names l d = inr r → Posix.walk names l d' = inr r.
Proof.
  induction names as [|name names IH]; intros l r Hd; simpl; [done|].
  destruct (Posix.step name l) as [e|l1]; [done|].
  destruct (Posix.lookup l1 d) eqn:E; [done| |done].
  rewrite (Hd _ E). by apply IH.
Qed.

Lemma posix_resolve_stable d d' p r :
  Posix.cwd d' = Posix.cwd d →
  (∀ x, Posix.lookup x d = Posix.Dir → Posix.lookup x d' = Posix.Dir) →
  Posix.resolve p d = inr r → Posix.resolve p d' = inr r.
Proof.
  unfold Posix.resolve. intros Hc Hd.
  destruct (Posix.has_nul p); [done|]. destruct (is_empty p); [done|].
  destruct (Posix.too_long 4095 p); [done|]. cbv zeta. rewrite Hc.
  destruct (Posix.walk _ _ d) as [e|l] eqn:E; [done|].
  by rewrite (posix_walk_stable d d' _ _ _ Hd E).
Qed.

Lemma posix_write_json_Ok p doc d d' :
  Posix.write_json p doc d = (Posix.Ok tt, d') →
  ∃ l, Posix.resolve p d = inr l ∧ Posix.lookup l d ≠ Posix.Dir
       ∧ d' = Posix.put l doc d.
Proof.
  unfold Posix.write_json.
  destruct (Posix.resolve p d) as [e|l]; [done|].
  destruct (Posix.lookup l d) eqn:E; [|done|]; intros [= <-]; exists l;
    by rewrite E.
Qed.

(** What was written at a path is what is read there. *)
Lemma posix_read_after_write p doc d d' :
  Posix.write_json p doc d = (Posix.Ok tt, d') →
  Posix.os_path_exists p d' = (Posix.Ok true, d')
  ∧ Posix.read_json p d' = (Posix.Ok doc, d')
  ∧ ∀ x, Posix.lookup x d ≠ Posix.Missing → Posix.lookup x d' ≠ Posix.Missing.
Proof.
  intros (l & Hr & Hl & ->)%posix_write_json_Ok.
  assert (Posix.resolve p (Posix.put l doc d) = inr l) as Hr'.
  { apply (posix_resolve_stable d); [done| |done].
    intros x Hx. rewrite posix_lookup_put by done.
    destruct (decide (x = l)) as [->|]; [done|done]. }
  assert (Posix.lookup l (Posix.put l doc d) = Posix.File doc) as Hl'.
  { rewrite posix_lookup_put by done. by rewrite decide_True. }
  split_and!.
  - unfold Posix.os_path_exists. by rewrite Hr', Hl'.
  - unfold Posix.read_json. by rewrite Hr', Hl'.
  - intros x Hx. rewrite posix_lookup_put by done. by destruct (decide (x = l)).
Qed.

(** C7, at the failing input.  On a disk with nothing in the working
    directory, [save_tasks] for the username a/b makes the directory
    [tasks] and then fails to open [tasks/a/b_tasks.json], the directory
    [tasks/a] not being there; nothing is stored, and [load_tasks] for
    a/b returns the empty list, not the list given to [save_tasks]. *)
Theorem save_tasks_nested_name_fails :
  let tasks := [Task 1 "Buy milk" "Pending"] in
  let d := Posix.Disk [] ∅ ∅ in
  let d' := Posix.Disk [] {[ [TASKS_DIR] ]} ∅ in
  Posix.save_tasks "a/b" tasks d = (Posix.Raise Posix.FileNotFoundError, d')
  ∧ Posix.load_tasks "a/b" d' = (Posix.Ok [], d').
Proof. cbv zeta. split; vm_compute; reflexivity. Qed.

(** X30: on a directory tree, whenever a save returns, the load that
    follows returns what was saved: the credential mapping for
    [save_users], and for [save_tasks] the list of that username, with
    the same records in the same order.  This holds for every username,
    also one that holds a slash. *)
Theorem saved_is_loaded (users : gmap string string) (username : string)
    (tasks : list task) (d : Posix.disk) :
  (∀ d', Posix.save_users users d = (Posix.Ok tt, d') →
         Posix.load_users d' = (Posix.Ok users, d'))
  ∧ (∀ d', Posix.save_tasks username tasks d = (Posix.Ok tt, d') →
           Posix.load_tasks username d' = (Posix.Ok tasks, d')).
Proof.
  split; intros d' E.
  - unfold Posix.save_users in E.
    destruct (posix_read_after_write _ _ _ _ E) as (He & Hr & _).
    unfold Posix.load_users.
    rewrite (posix_bind_Ok _ _ _ _ _ He). cbn [negb].
    rewrite (posix_bind_Ok _ _ _ _ _ Hr).
    by rewrite users_of_json_of_users.
  - unfold Posix.save_tasks in E.
    rewrite (posix_bind_Ok _ _ _ _ _ (posix_get_user_tasks_file _ _)) in E.
    destruct (posix_read_after_write _ _ _ _ E) as (He & Hr & Hkeep).
    unfold Posix.load_tasks.
    rewrite (posix_bind_Ok _ _ _ _ _ (posix_get_user_tasks_file _ _)).
    rewrite posix_with_tasks_dir_id.
    2:{ replace (Posix.cwd d') with (Posix.cwd (Posix.with_tasks_dir d)).
        - apply Hkeep.
          replace (Posix.cwd (Posix.with_tasks_dir d)) with (Posix.cwd d)
            by (unfold Posix.with_tasks_dir; by destruct (Posix.lookup _ d)).
          apply posix_with_tasks_dir_there.
        - apply posix_write_json_Ok in E as (l & _ & _ & ->). done. }
    rewrite (posix_bind_Ok _ _ _ _ _ He). cbn [negb].
    rewrite (posix_bind_Ok _ _ _ _ _ Hr).
    by rewrite tasks_of_json_of_tasks.
Qed.

Lemma saved_is_loaded_witness :
  ∃ d', Posix.save_tasks "./bob" [Task 1 "t" "Pending"] (Posix.Disk [] ∅ ∅)
        = (Posix.Ok tt, d')
        ∧ Posix.load_tasks "./bob" d' = (Posix.Ok [Task 1 "t" "Pending"], d').
Proof.
  destruct (Posix.save_tasks "./bob" [Task 1 "t" "Pending"] (Posix.Disk [] ∅ ∅))
    as [r d'] eqn:E.
  assert (r = Posix.Ok tt) as -> by (vm_compute in E; by injection E as <- _).
  exists d'. split; [reflexivity|].
  exact (proj2 (saved_is_loaded ∅ "./bob" [Task 1 "t" "Pending"]
                  (Posix.Disk [] ∅ ∅)) d' E).
Defined.

(** ** Usernames that are one name *)

Lemma posix_split_nonempty p : Posix.split p ≠ [].
Proof.
  destruct p as [|c p]; simpl; [done|].
  destruct (Ascii.eqb c "/"); [done|]. by destruct (Posix.split p).
Qed.

Lemma posix_split_one c p :
  Posix.split (String c p) = [String c p] →
  Ascii.eqb c "/" = false ∧ Posix.split p = [p].
Proof.
  simpl. destruct (Ascii.eqb c "/"); [done|].
  destruct (Posix.split p) as [|name names] eqn:E; [by apply posix_split_nonempty in E|].
  by intros [= -> ->].
Qed.

Lemma posix_split_app s t :
  Posix.split s = [s] → Posix.split t = [t] → Posix.split (s +:+ t) = [s +:+ t].
Proof.
  intros Hs Ht. induction s as [|c s IH]; [done|].
  apply posix_split_one in Hs as [Hc Hs].
  change (String c s +:+ t) with (String c (s +:+ t)). simpl.
  by rewrite Hc, IH.
Qed.

Lemma posix_has_nul_app s t :
  Posix.has_nul (s +:+ t) = Posix.has_nul s || Posix.has_nul t.
Proof.
  induction s as [|c s IH]; [done|].
  change (String c s +:+ t) with (String c (s +:+ t)). simpl.
  by rewrite IH, orb_assoc.
Qed.

Lemma encode_app s t : encode (s +:+ t) = encode s ++ encode t.
Proof.
  induction s as [|c s IH]; [done|].
  change (String c s +:+ t) with (String c (s +:+ t)). simpl.
  rewrite IH. by destruct (ord c <? 128).
Qed.

Lemma posix_step_name name l :
  name ≠ "" → name ≠ "." → name ≠ ".." → Posix.too_long 255 name = false →
  Posix.step name l = inr (l ++ [name]).
Proof.
  intros H1 H2 H3 H4. unfold Posix.step.
  rewrite bool_decide_false by (by intros [?|?]).
  rewrite bool_decide_false by done. by rewrite H4.
Qed.

Lemma posix_step_dot l : Posix.step "." l = inr l.
Proof. reflexivity. Qed.

(** What the definition of a plain username gives for its file name. *)
Lemma plain_file_name u :
  plain u →
  let name := u +:+ "_tasks.json" in
  tasks_path u = "tasks/" +:+ name
  ∧ Posix.split name = [name] ∧ Posix.has_nul name = false
  ∧ Posix.too_long 255 name = false
  ∧ name ≠ "" ∧ name ≠ "." ∧ name ≠ "..".
Proof.
  intros (Hs & Hn & Hl) name.
  assert (Posix.split name = [name]) as Hsplit by by apply posix_split_app.
  assert (11 ≤ String.length name)%nat as Hlen.
  { unfold name. rewrite string_length_app. simpl. lia. }
  split_and!; try done.
  - destruct (tasks_path_cases u) as [[S _]|[_ E]]; [|done].
    apply starts_with_slash_inv in S as [r Hr]. fold name in Hr.
    rewrite Hr in Hsplit. done.
  - unfold name. by rewrite posix_has_nul_app, Hn.
  - intros E. rewrite E in Hlen. simpl in Hlen. lia.
  - intros E. rewrite E in Hlen. simpl in Hlen. lia.
  - intros E. rewrite E in Hlen. simpl in Hlen. lia.
Qed.

Lemma posix_path_not_too_long prefix name :
  (length (encode prefix) ≤ 100)%nat → Posix.too_long 255 name = false →
  Posix.too_long 4095 (prefix +:+ name) = false.
Proof.
  unfold Posix.too_long. rewrite encode_app, length_app.
  intros Hp Hn. apply Z.ltb_ge in Hn. apply Z.ltb_ge. lia.
Qed.

(** The path of a file in the task directory, resolved: the walk stops
    at what is at [tasks]. *)
Lemma posix_resolve_in_tasks name d :
  Posix.split name = [name] → Posix.has_nul name = false →
  Posix.too_long 255 name = false →
  name ≠ "" → name ≠ "." → name ≠ ".." →
  Posix.resolve ("tasks/" +:+ name) d
  = match Posix.lookup (Posix.cwd d ++ [TASKS_DIR]) d with
    | Posix.Dir => inr (Posix.cwd d ++ [TASKS_DIR; name])
    | Posix.File _ => inl Posix.NotADirectoryError
    | Posix.Missing => inl Posix.FileNotFoundError
    end.
Proof.
  intros Hs Hn Hl N1 N2 N3. unfold Posix.resolve.
  rewrite posix_has_nul_app, Hn.
  rewrite (posix_path_not_too_long "tasks/" name) by (simpl; lia || done).
  change (Posix.has_nul "tasks/" || false) with false.
  change (is_empty ("tasks/" +:+ name)) with false.
  change (starts_with_slash ("tasks/" +:+ name)) with false.
  cbv iota zeta.
  assert (Posix.split ("tasks/" +:+ name) = [TASKS_DIR; name]) as ->.
  { change ("tasks/" +:+ name) with
      (String "t" (String "a" (String "s" (String "k" (String "s" (String "/" name)))))).
    cbn [Posix.split Ascii.eqb Bool.eqb]. by rewrite Hs. }
  cbn [length Nat.sub take last default Posix.walk].
  change (Posix.step TASKS_DIR (Posix.cwd d))
    with (inr (Posix.cwd d ++ [TASKS_DIR]) : Posix.exn + Posix.loc).
  cbv iota. destruct (Posix.lookup _ d); [done| |done].
  rewrite posix_step_name by done. by rewrite <- app_assoc.
Qed.

(** The same path with [./] before the name resolves alike. *)
Lemma posix_resolve_dotted name d :
  Posix.split name = [name] → Posix.has_nul name = false →
  Posix.too_long 255 name = false →
  Posix.resolve ("tasks/./" +:+ name) d = Posix.resolve ("tasks/" +:+ name) d.
Proof.
  intros Hs Hn Hl. unfold Posix.resolve.
  rewrite !posix_has_nul_app, Hn.
  rewrite (posix_path_not_too_long "tasks/" name) by (simpl; lia || done).
  rewrite (posix_path_not_too_long "tasks/./" name) by (simpl; lia || done).
  change (Posix.has_nul "tasks/" || false) with false.
  change (Posix.has_nul "tasks/./" || false) with false.
  change (is_empty ("tasks/" +:+ name)) with false.
  change (is_empty ("tasks/./" +:+ name)) with false.
  change (starts_with_slash ("tasks/" +:+ name)) with false.
  change (starts_with_slash ("tasks/./" +:+ name)) with false.
  cbv iota zeta.
  assert (Posix.split ("tasks/" +:+ name) = [TASKS_DIR; name]) as ->.
  { change ("tasks/" +:+ name) with
      (String "t" (String "a" (String "s" (String "k" (String "s" (String "/" name)))))).
    cbn [Posix.split Ascii.eqb Bool.eqb]. by rewrite Hs. }
  assert (Posix.split ("tasks/./" +:+ name) = [TASKS_DIR; "."; name]) as ->.
  { change ("tasks/./" +:+ name) with
      (String "t" (String "a" (String "s" (String "k" (String "s"
         (String "/" (String "." (String "/" name)))))))).
    cbn [Posix.split Ascii.eqb Bool.eqb]. by rewrite Hs. }
  cbn [length Nat.sub take last default Posix.walk].
  change (Posix.step TASKS_DIR (Posix.cwd d))
    with (inr (Posix.cwd d ++ [TASKS_DIR]) : Posix.exn + Posix.loc).
  cbv iota. destruct (Posix.lookup (Posix.cwd d ++ [TASKS_DIR]) d) eqn:E; [done| |done].
  rewrite posix_step_dot. cbv iota. by rewrite E.
Qed.

Lemma posix_with_tasks_dir_cwd d : Posix.cwd (Posix.with_tasks_dir d) = Posix.cwd d.
Proof. unfold Posix.with_tasks_dir. by destruct (Posix.lookup _ d). Qed.

Lemma posix_tasks_dir_made d :
  (∀ doc, Posix.lookup (Posix.cwd d ++ [TASKS_DIR]) d ≠ Posix.File doc) →
  Posix.lookup (Posix.cwd d ++ [TASKS_DIR]) (Posix.with_tasks_dir d) = Posix.Dir.
Proof.
  intros Hf. unfold Posix.with_tasks_dir.
  destruct (Posix.lookup (Posix.cwd d ++ [TASKS_DIR]) d) as [| |doc] eqn:E.
  - unfold Posix.lookup. cbn [Posix.dirs]. rewrite bool_decide_true; [done|].
    right. set_solver.
  - done.
  - by destruct (Hf doc).
Qed.

Lemma posix_lookup_other_name d u :
  Posix.lookup (Posix.tasks_loc u d) (Posix.with_tasks_dir d)
  = Posix.lookup (Posix.tasks_loc u d) d.
Proof.
  unfold Posix.with_tasks_dir.
  destruct (Posix.lookup (Posix.cwd d ++ [TASKS_DIR]) d); [|done..].
  unfold Posix.lookup, Posix.tasks_loc. cbn [Posix.dirs Posix.files Posix.cwd].
  assert (Posix.cwd d ++ [TASKS_DIR; u +:+ "_tasks.json"] ≠ Posix.cwd d ++ [TASKS_DIR])
    as Hne by (intros H%app_inv_head; done).
  repeat case_bool_decide; try done; set_solver.
Qed.

(** [load_tasks] for a plain username, by what is at the place of its
    file. *)
Lemma posix_load_tasks_plain u d :
  plain u →
  Posix.lookup (Posix.cwd d ++ [TASKS_DIR]) (Posix.with_tasks_dir d) = Posix.Dir →
  Posix.load_tasks u d
  = (match Posix.lookup (Posix.tasks_loc u d) (Posix.with_tasks_dir d) with
     | Posix.Missing => Posix.Ok []
     | Posix.Dir => Posix.Raise Posix.IsADirectoryError
     | Posix.File doc =>
         match tasks_of_json doc with
         | Some tasks => Posix.Ok tasks
         | None => Posix.Raise Posix.BadDocument
         end
     end, Posix.with_tasks_dir d).
Proof.
  intros Hp Hdir.
  destruct (plain_file_name u Hp) as (Hpath & Hs & Hn & Hl & N1 & N2 & N3).
  unfold Posix.load_tasks.
  rewrite (posix_bind_Ok _ _ _ _ _ (posix_get_user_tasks_file _ _)).
  unfold Posix.os_path_exists, Posix.read_json, mbind, Posix.M_bind.
  rewrite Hpath, posix_resolve_in_tasks by done.
  rewrite posix_with_tasks_dir_cwd, Hdir. fold (Posix.tasks_loc u d).
  destruct (Posix.lookup (Posix.tasks_loc u d) _) as [| |doc] eqn:E; cbn [negb];
    [done|..];
    rewrite posix_resolve_in_tasks by done;
    rewrite posix_with_tasks_dir_cwd, Hdir; fold (Posix.tasks_loc u d);
    rewrite E; [done|].
  unfold Posix.expect. by destruct (tasks_of_json doc).
Qed.

(** X31: on a directory tree, [save_tasks] for a plain username (no
    slash, no NUL, at most 255 bytes with the suffix) fails in two cases
    only, both outside what the program makes: [tasks] is a regular file,
    or the task file's name is taken by a directory.  Otherwise it makes
    the directory [tasks] when it is missing and stores the list at
    [tasks/<username>_tasks.json] under the working directory. *)
Theorem plain_name_is_saved (u : string) (ts : list task) (d : Posix.disk) :
  plain u →
  (∀ doc, Posix.lookup (Posix.cwd d ++ [TASKS_DIR]) d ≠ Posix.File doc) →
  Posix.lookup (Posix.tasks_loc u d) d ≠ Posix.Dir →
  Posix.save_tasks u ts d
  = (Posix.Ok tt,
     Posix.put (Posix.tasks_loc u d) (json_of_tasks ts) (Posix.with_tasks_dir d)).
Proof.
  intros Hp Hf Hd.
  destruct (plain_file_name u Hp) as (Hpath & Hs & Hn & Hl & N1 & N2 & N3).
  unfold Posix.save_tasks.
  rewrite (posix_bind_Ok _ _ _ _ _ (posix_get_user_tasks_file _ _)).
  unfold Posix.write_json.
  rewrite Hpath, posix_resolve_in_tasks by done.
  rewrite posix_with_tasks_dir_cwd, posix_tasks_dir_made by done.
  fold (Posix.tasks_loc u d). rewrite posix_lookup_other_name.
  unfold Posix.put. rewrite posix_with_tasks_dir_cwd.
  by destruct (Posix.lookup (Posix.tasks_loc u d) d).
Qed.

Lemma plain_name_is_saved_witness :
  Posix.save_tasks "bob" [Task 1 "t" "Pending"] (Posix.Disk [] ∅ ∅)
  = (Posix.Ok tt,
     Posix.Disk [] {[ [TASKS_DIR] ]}
       {[ [TASKS_DIR; "bob_tasks.json"] := json_of_tasks [Task 1 "t" "Pending"] ]}).
Proof.
  rewrite (plain_name_is_saved "bob" [Task 1 "t" "Pending"] (Posix.Disk [] ∅ ∅)).
  - vm_compute. reflexivity.
  - split_and!; reflexivity.
  - intros doc. vm_compute. discriminate.
  - vm_compute. discriminate.
Defined.

Lemma tasks_path_dotted u :
  tasks_path ("./" +:+ u) = "tasks/./" +:+ u +:+ "_tasks.json".
Proof. reflexivity. Qed.

(** X32: which usernames share a task file on disk.  The username
    [./u] and the plain username [u] are one user to [save_tasks] and
    [load_tasks]: both do the same on every disk.  Two plain usernames
    that differ share nothing: a save for one leaves what the other
    loads as it was. *)
Theorem usernames_sharing_a_file (u u' : string) :
  plain u → plain u' →
  (∀ ts d, Posix.save_tasks ("./" +:+ u) ts d = Posix.save_tasks u ts d)
  ∧ (∀ d, Posix.load_tasks ("./" +:+ u) d = Posix.load_tasks u d)
  ∧ (u ≠ u' →
     ∀ ts d d', Posix.save_tasks u ts d = (Posix.Ok tt, d') →
                (Posix.load_tasks u' d').1 = (Posix.load_tasks u' d).1).
Proof.
  intros Hp Hp'.
  destruct (plain_file_name u Hp) as (Hpath & Hs & Hn & Hl & N1 & N2 & N3).
  assert (∀ d, Posix.resolve (tasks_path ("./" +:+ u)) d
               = Posix.resolve (tasks_path u) d) as Hres.
  { intros d. rewrite tasks_path_dotted, Hpath. by apply posix_resolve_dotted. }
  split_and!.
  - intros ts d. unfold Posix.save_tasks.
    rewrite !(posix_bind_Ok _ _ _ _ _ (posix_get_user_tasks_file _ _)).
    unfold Posix.write_json. by rewrite Hres.
  - intros d. unfold Posix.load_tasks.
    rewrite !(posix_bind_Ok _ _ _ _ _ (posix_get_user_tasks_file _ _)).
    unfold Posix.os_path_exists, mbind, Posix.M_bind. rewrite Hres.
    destruct (Posix.resolve (tasks_path u) _) as [e|l] eqn:Er; cbn [negb]; [done|].
    destruct (Posix.lookup l _) eqn:El; cbn [negb]; [done|..];
      unfold Posix.read_json; by rewrite Hres.
  - intros Hne ts d d' E. unfold Posix.save_tasks in E.
    rewrite (posix_bind_Ok _ _ _ _ _ (posix_get_user_tasks_file _ _)) in E.
    apply posix_write_json_Ok in E as (l & Hr & Hl' & ->).
    rewrite Hpath, posix_resolve_in_tasks, posix_with_tasks_dir_cwd in Hr by done.
    destruct (Posix.lookup (Posix.cwd d ++ [TASKS_DIR]) (Posix.with_tasks_dir d))
      eqn:Hdir; [done| |done].
    injection Hr as <-. fold (Posix.tasks_loc u d) in Hl' |- *.
    set (d1 := Posix.with_tasks_dir d) in *.
    set (d' := Posix.put (Posix.tasks_loc u d) (json_of_tasks ts) d1).
    assert (Posix.cwd d' = Posix.cwd d) as Hcwd
      by (unfold d', d1; cbn [Posix.put Posix.cwd]; apply posix_with_tasks_dir_cwd).
    assert (∀ x, x ≠ Posix.tasks_loc u d → Posix.lookup x d' = Posix.lookup x d1)
      as Hsame.
    { intros x Hx. unfold d'. rewrite posix_lookup_put by done.
      by rewrite decide_False. }
    assert (Posix.cwd d ++ [TASKS_DIR] ≠ Posix.tasks_loc u d) as Hne1
      by (unfold Posix.tasks_loc; intros H%app_inv_head; done).
    assert (Posix.tasks_loc u' d ≠ Posix.tasks_loc u d) as Hne2.
    { unfold Posix.tasks_loc. intros H%app_inv_head. injection H as H.
      by apply string_app_inv_r in H. }
    assert (Posix.with_tasks_dir d' = d') as Hid.
    { apply posix_with_tasks_dir_id. rewrite Hcwd, Hsame, Hdir; done. }
    rewrite (posix_load_tasks_plain u' d' Hp')
      by (by rewrite Hid, Hcwd, Hsame, Hdir).
    rewrite (posix_load_tasks_plain u' d Hp' Hdir).
    cbn [fst]. rewrite Hid. unfold Posix.tasks_loc at 1. rewrite Hcwd.
    fold (Posix.tasks_loc u' d). by rewrite Hsame.
Qed.

Lemma usernames_sharing_a_file_witness :
  ∃ d', Posix.save_tasks "./bob" [Task 1 "t" "Pending"] (Posix.Disk [] ∅ ∅)
        = (Posix.Ok tt, d')
        ∧ Posix.load_tasks "bob" d' = (Posix.Ok [Task 1 "t" "Pending"], d')
        ∧ Posix.load_tasks "alice" d' = (Posix.Ok [], d').
Proof.
  destruct (usernames_sharing_a_file "bob" "alice") as (H1 & _ & _).
  - split_and!; reflexivity.
  - split_and!; reflexivity.
  - eexists. split; [|split].
    + change ("./bob") with ("./" +:+ "bob"). rewrite H1.
      vm_compute. reflexivity.
    + vm_compute. reflexivity.
    + vm_compute. reflexivity.
Defined.
